(** * Connector.py: the Ollama + MCP invocation bridge

    A shallow embedding of [src/Connector.py]: the two gateways
    ([ask_ollama], [call_mcp_tool]), the structured detector
    ([detect_tool_call]) and the interactive loop ([chat_loop]), together
    with the parts of the Python runtime they rely on ([str] methods, the
    two regular expressions, [json.loads], [dict.get], indexing and
    truthiness).

    It is followed by an embedding of [src/mcp_server.py], the server
    that the connector calls: the two tools ([get_weather],
    [send_notification]), the dispatcher [call_tool] and the JSON-RPC
    handler [mcp_http_handler].  A tool makes at most one request; what
    that request meets is an argument, and the pictographs in the
    server's texts and the text of an exception are parameters
    ([server_texts]).  Last comes [test_ollama] of
    [src/connection_test.py].

    Conventions.
    - A Python [str] is a [string] whose characters are the code points
      U+0000..U+00FF; [str.lower], [str.strip] and the regex class [\s]
      are the Python ones on that range.  Texts with other characters
      are outside the embedding; the pictographs that the connector
      prints in front of its console messages are left out.
    - A value that came out of [json.loads] (or that the connector builds
      itself) is a [json]; Python's [None] is [JNull].  The interpreter's
      limits on nesting depth and on the number of digits of an integer
      are not modelled.
    - A text within the range can denote a character beyond it, by a
      JSON escape such as [\u4f60].  [json.loads] reads such a text,
      and so does the embedded code: [Json.loads_latin1] fails exactly
      where [json.loads] raises, and keeps [?] in the place of such a
      character, as [str.encode('latin-1', 'replace')] does.
      [Json.loads] is its exact part, which yields a value only when
      nothing had to be replaced; the statements speak of a text that
      parses with [Json.loads], and of one that does not with
      [Json.loads_latin1].
    - Effects (HTTP requests, console input and output, sleeping, reading
      the clock) are threaded through a small history monad; a Python
      exception is an explicit [Raise] outcome.  What the network and the
      console answer is a parameter, the [world]. *)

From Stdlib Require Import Strings.String Strings.Ascii Lists.List.
From Stdlib Require Import ZArith Bool Arith Lia.
From Stdlib Require Import DecimalString.
Import ListNotations.

Local Open Scope list_scope.
Local Open Scope string_scope.

(* ------------------------------------------------------------------ *)
(** ** Python strings *)
(* ------------------------------------------------------------------ *)

Module PyStr.

Definition code (c : ascii) : nat := nat_of_ascii c.

Definition between (lo hi n : nat) : bool := (lo <=? n)%nat && (n <=? hi)%nat.

(** [str.isspace] on one character, which is also the regex class [\s]
    of a [str] pattern: TAB..CR, FS..US, SPACE, NEL and NBSP. *)
Definition isspace (c : ascii) : bool :=
  let n := code c in
  between 9 13 n || between 28 32 n || (n =? 133)%nat || (n =? 160)%nat.

(** Characters with a lower-case mapping: A-Z, and the Latin-1 capitals
    U+00C0..U+00DE without the multiplication sign U+00D7. *)
Definition isupper (c : ascii) : bool :=
  let n := code c in
  between 65 90 n || (between 192 222 n && negb (n =? 215)%nat).

Definition lower_char (c : ascii) : ascii :=
  if isupper c then ascii_of_nat (code c + 32) else c.

(** [s.lower()] *)
Fixpoint lower (s : string) : string :=
  match s with
  | EmptyString => EmptyString
  | String c s' => String (lower_char c) (lower s')
  end.

Fixpoint lstrip (s : string) : string :=
  match s with
  | EmptyString => EmptyString
  | String c s' => if isspace c then lstrip s' else s
  end.

Fixpoint rstrip (s : string) : string :=
  match s with
  | EmptyString => EmptyString
  | String c s' =>
      match rstrip s' with
      | EmptyString => if isspace c then EmptyString else String c EmptyString
      | r => String c r
      end
  end.

(** [s.strip()] *)
Definition strip (s : string) : string := rstrip (lstrip s).

(** [needle in hay] for two strings *)
Fixpoint contains (needle hay : string) : bool :=
  prefix needle hay ||
  match hay with
  | EmptyString => false
  | String _ hay' => contains needle hay'
  end.

(** [s[:n]] *)
Definition take (n : nat) (s : string) : string := substring 0 n s.

Definition is_empty (s : string) : bool :=
  match s with EmptyString => true | _ => false end.

Definition isalpha_ascii (c : ascii) : bool :=
  let n := code c in between 65 90 n || between 97 122 n.

Definition isdigit (c : ascii) : bool := between 48 57 (code c).

End PyStr.

(* ------------------------------------------------------------------ *)
(** ** The regular expressions of the connector

    Both patterns are sequences of literal characters and repeated
    character classes, one of them inside a capturing group.  [match_here]
    is a backtracking matcher with Python's priorities: a greedy repeat
    tries the longest run first, a lazy one the shortest. *)
(* ------------------------------------------------------------------ *)

Module Re.

Inductive atom : Type :=
| Chr (c : ascii)                                   (* a literal *)
| Rep (cls : ascii -> bool) (lo : nat) (greedy : bool).
    (* cls{lo,} when greedy, cls{lo,}? otherwise *)

Inductive node : Type :=
| Plain (a : atom)
| Group (a : atom).                                  (* ( a ) *)

Definition regex := list node.

Definition atom_of (n : node) : atom :=
  match n with Plain a => a | Group a => a end.

Definition captures (n : node) : bool :=
  match n with Plain _ => false | Group _ => true end.

(** One match: the text matched, the captured groups, what follows. *)
Record found : Type := Found
  { matched : string; groups : list string; rest : string }.

Definition extend (c : ascii) {R} (x : string * R) : string * R :=
  (String c (fst x), snd x).

(** [rep cls greedy lo k s]: consume at least [lo] characters of class
    [cls] from [s], then continue with [k]; returns what was consumed
    and [k]'s result. *)
Fixpoint rep {R} (cls : ascii -> bool) (greedy : bool) (lo : nat)
         (k : string -> option R) (s : string) : option (string * R) :=
  let stop (_ : unit) :=
    match lo with
    | O => option_map (pair EmptyString) (k s)
    | S _ => None
    end in
  let more (_ : unit) :=
    match s with
    | String c s' =>
        if cls c
        then option_map (extend c) (rep cls greedy (pred lo) k s')
        else None
    | EmptyString => None
    end in
  if greedy
  then match more tt with Some x => Some x | None => stop tt end
  else match stop tt with Some x => Some x | None => more tt end.

Fixpoint match_here (re : regex) (s : string) : option found :=
  match re with
  | [] => Some (Found EmptyString [] s)
  | n :: re' =>
      match atom_of n with
      | Chr c =>
          match s with
          | String x s' =>
              if Ascii.eqb x c
              then match match_here re' s' with
                   | Some f => Some (Found (String x (matched f))
                                           (groups f) (rest f))
                   | None => None
                   end
              else None
          | EmptyString => None
          end
      | Rep cls lo greedy =>
          match rep cls greedy lo (match_here re') s with
          | Some (m, f) =>
              Some (Found (m ++ matched f)
                          (if captures n then m :: groups f else groups f)
                          (rest f))
          | None => None
          end
      end
  end.

(** [re.search]: the leftmost position at which the pattern matches. *)
Fixpoint search (re : regex) (s : string) : option found :=
  match match_here re s with
  | Some f => Some f
  | None =>
      match s with
      | EmptyString => None
      | String _ s' => search re s'
      end
  end.

(** [re.findall] for a pattern with one group: the group of every
    match, scanning on after each match.  Every pattern here starts
    with a literal, so a match is never empty and [length s] rounds
    are enough. *)
Fixpoint findall_from (rounds : nat) (re : regex) (s : string)
  : list string :=
  match rounds with
  | O => []
  | S n =>
      match search re s with
      | None => []
      | Some f => hd EmptyString (groups f) :: findall_from n re (rest f)
      end
  end.

Definition findall (re : regex) (s : string) : list string :=
  findall_from (String.length s) re s.

Definition any_char (_ : ascii) : bool := true.

Definition letter_or_space (c : ascii) : bool :=
  PyStr.isalpha_ascii c || Ascii.eqb c " ".

(** [r"\{[\s\S]*?\}"] (line 77) *)
Definition json_block_re : regex :=
  [Plain (Chr "{"); Plain (Rep any_char 0 false); Plain (Chr "}")].

(** [r"in\s+([A-Za-z ]+)"] (line 128) *)
Definition city_re : regex :=
  [Plain (Chr "i"); Plain (Chr "n"); Plain (Rep PyStr.isspace 1 true);
   Group (Rep letter_or_space 1 true)].

End Re.

(* ------------------------------------------------------------------ *)
(** ** JSON values and [json.loads] *)
(* ------------------------------------------------------------------ *)

(** A JSON number with a fraction or an exponent becomes a Python
    [float]; it is kept as the decimal [(-1)^neg * digits * 10^exp10]
    that the text denotes, which determines the float. *)
Record decimal : Type := Decimal { neg : bool; digits : Z; exp10 : Z }.

Inductive nonfinite : Type := NaN | PosInfinity | NegInfinity.

#[local] Set Warnings "-register-all".

Inductive json : Type :=
| JNull                                   (* None *)
| JBool (b : bool)
| JInt (z : Z)
| JFloat (d : decimal)
| JNonFinite (k : nonfinite)              (* NaN, Infinity, -Infinity *)
| JStr (s : string)
| JList (l : list json)
| JObj (members : list (string * json)).  (* a dict, in insertion order *)

Module Dict.

Definition t := list (string * json).

(** [key in d] *)
Fixpoint mem (key : string) (d : t) : bool :=
  match d with
  | [] => false
  | (k, _) :: d' => String.eqb k key || mem key d'
  end.

(** [d[key]], [None] standing for [KeyError] *)
Fixpoint lookup (key : string) (d : t) : option json :=
  match d with
  | [] => None
  | (k, v) :: d' => if String.eqb k key then Some v else lookup key d'
  end.

(** [d[key] = v]: an existing key keeps its place *)
Fixpoint set (key : string) (v : json) (d : t) : t :=
  match d with
  | [] => [(key, v)]
  | (k, w) :: d' =>
      if String.eqb k key then (k, v) :: d' else (k, w) :: set key v d'
  end.

End Dict.

Module Json.

Inductive parsed (A : Type) : Type :=
| Ok (a : A) (rest : string)
| Bad                       (* json.loads raises *)
| Deep.                     (* the nesting budget ran out *)
Arguments Ok {A} a rest.
Arguments Bad {A}.
Arguments Deep {A}.

(** The whitespace of the JSON grammar: space, TAB, LF, CR. *)
Definition is_ws (c : ascii) : bool :=
  let n := PyStr.code c in
  (n =? 32)%nat || (n =? 9)%nat || (n =? 10)%nat || (n =? 13)%nat.

Fixpoint skip_ws (s : string) : string :=
  match s with
  | EmptyString => EmptyString
  | String c s' => if is_ws c then skip_ws s' else s
  end.

Definition hex_val (c : ascii) : option nat :=
  let n := PyStr.code c in
  if PyStr.between 48 57 n then Some (n - 48)
  else if PyStr.between 97 102 n then Some (n - 87)
  else if PyStr.between 65 70 n then Some (n - 55)
  else None.

(** The code point of [\uXXXX]. *)
Definition hex4 (a b c d : ascii) : option nat :=
  match hex_val a, hex_val b, hex_val c, hex_val d with
  | Some x, Some y, Some z, Some w => Some (((x * 16 + y) * 16 + z) * 16 + w)
  | _, _, _, _ => None
  end.

Definition simple_escape (c : ascii) : option ascii :=
  let n := PyStr.code c in
  if (n =? 34)%nat then Some c                         (* quote *)
  else if (n =? 92)%nat then Some c                    (* backslash *)
  else if (n =? 47)%nat then Some c                    (* slash *)
  else if (n =? 98)%nat then Some (ascii_of_nat 8)     (* escape b *)
  else if (n =? 102)%nat then Some (ascii_of_nat 12)   (* escape f *)
  else if (n =? 110)%nat then Some (ascii_of_nat 10)   (* escape n *)
  else if (n =? 114)%nat then Some (ascii_of_nat 13)   (* escape r *)
  else if (n =? 116)%nat then Some (ascii_of_nat 9)    (* escape t *)
  else None.

Definition cons_str (c : ascii) (x : option (string * string))
  : option (string * string) :=
  match x with
  | Some (v, r) => Some (String c v, r)
  | None => None
  end.

(** The character that stands for one beyond U+00FF: the one that
    [str.encode('latin-1', 'replace')] puts in its place. *)
Definition replacement : ascii := "?".

(** The two halves of a surrogate pair: U+D800..U+DBFF and
    U+DC00..U+DFFF, blocks of 1024 code points. *)
Definition high_surrogate (cp : nat) : bool := (cp / 1024 =? 54)%nat.
Definition low_surrogate (cp : nat) : bool := (cp / 1024 =? 55)%nat.

(** The six characters are the escape [\uXXXX] of a low surrogate. *)
Definition low_escape (b u h1 h2 h3 h4 : ascii) : bool :=
  (PyStr.code b =? 92)%nat && (PyStr.code u =? 117)%nat &&
  match hex4 h1 h2 h3 h4 with
  | Some cp => low_surrogate cp
  | None => false
  end.

(** The body of a string literal, after its opening quote, up to and
    including the closing quote (strict mode: no raw control
    character).

    An escape [\uXXXX] above U+00FF denotes a character that [string]
    cannot hold; a high surrogate and the escape of a low surrogate
    right after it denote one such character together.  [json.loads]
    accepts them all.  With [lossy] the character is replaced by
    [replacement] and the scan goes on: the scan fails only where
    [json.loads] raises.  Without [lossy] the scan stops there: what it
    yields is the text of the literal, character for character. *)
Fixpoint scan_string (lossy : bool) (s : string) : option (string * string) :=
  match s with
  | EmptyString => None
  | String c s' =>
      let n := PyStr.code c in
      if (n =? 34)%nat then Some (EmptyString, s')
      else if (n <? 32)%nat then None
      else if (n =? 92)%nat then
        match s' with
        | EmptyString => None
        | String e s'' =>
            if (PyStr.code e =? 117)%nat then
              match s'' with
              | String h1 (String h2 (String h3 (String h4 t))) =>
                  match hex4 h1 h2 h3 h4 with
                  | Some cp =>
                      if (cp <? 256)%nat
                      then cons_str (ascii_of_nat cp) (scan_string lossy t)
                      else if lossy then
                        cons_str replacement
                          (if high_surrogate cp then
                             match t with
                             | String b (String u (String l1 (String l2
                                 (String l3 (String l4 t'))))) =>
                                 if low_escape b u l1 l2 l3 l4
                                 then scan_string lossy t'
                                 else scan_string lossy t
                             | _ => scan_string lossy t
                             end
                           else scan_string lossy t)
                      else None
                  | None => None
                  end
              | _ => None
              end
            else
              match simple_escape e with
              | Some x => cons_str x (scan_string lossy s'')
              | None => None
              end
        end
      else cons_str c (scan_string lossy s')
  end.

(** A maximal run of decimal digits: their value, their number, the
    rest. *)
Fixpoint scan_digits (acc : Z) (count : nat) (s : string)
  : Z * nat * string :=
  match s with
  | String c s' =>
      if PyStr.isdigit c
      then scan_digits (acc * 10 + Z.of_nat (PyStr.code c - 48)) (S count) s'
      else (acc, count, s)
  | EmptyString => (acc, count, s)
  end.

(** The integer part [0|[1-9]\d*]. *)
Definition scan_int (s : string) : option (Z * string) :=
  match s with
  | String c s' =>
      if (PyStr.code c =? 48)%nat then Some (0%Z, s')
      else if PyStr.isdigit c
           then let '(v, _, r) := scan_digits 0 0 s in Some (v, r)
           else None
  | EmptyString => None
  end.

(** The optional fraction [(\.\d+)?]: mantissa, digits read, rest. *)
Definition scan_frac (int_part : Z) (s : string) : option (Z * nat * string) :=
  match s with
  | String c s' =>
      if (PyStr.code c =? 46)%nat then
        let '(v, k, r) := scan_digits int_part 0 s' in
        match k with O => None | S _ => Some (v, k, r) end
      else None
  | EmptyString => None
  end.

(** The optional exponent [([eE][-+]?\d+)?]. *)
Definition scan_exp (s : string) : option (Z * string) :=
  match s with
  | String c s' =>
      if (PyStr.code c =? 101)%nat || (PyStr.code c =? 69)%nat then
        let '(sign, s1) :=
          match s' with
          | String g s'' =>
              if (PyStr.code g =? 45)%nat then ((-1)%Z, s'')
              else if (PyStr.code g =? 43)%nat then (1%Z, s'')
              else (1%Z, s')
          | EmptyString => (1%Z, s')
          end in
        let '(v, k, r) := scan_digits 0 0 s1 in
        match k with O => None | S _ => Some ((sign * v)%Z, r) end
      else None
  | EmptyString => None
  end.

(** A number: optional minus sign, integer part, optional fraction,
    optional exponent; an [int] when neither fraction nor exponent is
    there, a [float] otherwise. *)
Definition scan_number (s : string) : option (json * string) :=
  let '(negative, s0) :=
    match s with
    | String c s' => if (PyStr.code c =? 45)%nat then (true, s') else (false, s)
    | EmptyString => (false, s)
    end in
  match scan_int s0 with
  | None => None
  | Some (i, r0) =>
      let '(m, fd, r1, has_frac) :=
        match scan_frac i r0 with
        | Some (m, k, r) => (m, k, r, true)
        | None => (i, O, r0, false)
        end in
      match scan_exp r1 with
      | Some (e, r2) =>
          Some (JFloat (Decimal negative m (e - Z.of_nat fd)), r2)
      | None =>
          if has_frac
          then Some (JFloat (Decimal negative m (- Z.of_nat fd)), r1)
          else Some (JInt (if negative then (- i)%Z else i), r1)
      end
  end.

(** [s[n:]] *)
Fixpoint drop (n : nat) (s : string) : string :=
  match n, s with
  | O, _ => s
  | S n', String _ s' => drop n' s'
  | S _, EmptyString => EmptyString
  end.

Definition keyword (w : string) (v : json) (s : string)
  : option (json * string) :=
  if prefix w s then Some (v, drop (String.length w) s) else None.

Definition first_of {A} (x y : option A) : option A :=
  match x with Some _ => x | None => y end.

(** Everything but strings, lists and objects. *)
Definition scan_scalar (s : string) : option (json * string) :=
  first_of (keyword "null" JNull s)
 (first_of (keyword "true" (JBool true) s)
 (first_of (keyword "false" (JBool false) s)
 (first_of (keyword "NaN" (JNonFinite NaN) s)
 (first_of (keyword "Infinity" (JNonFinite PosInfinity) s)
 (first_of (keyword "-Infinity" (JNonFinite NegInfinity) s)
           (scan_number s)))))).

Definition quote : ascii := ascii_of_nat 34.

Fixpoint parse_value (lossy : bool) (fuel : nat) (s : string) : parsed json :=
  match fuel with
  | O => Deep
  | S fuel' =>
      match s with
      | EmptyString => Bad
      | String c s' =>
          if Ascii.eqb c quote then
            match scan_string lossy s' with
            | Some (v, r) => Ok (JStr v) r
            | None => Bad
            end
          else if Ascii.eqb c "{" then
            match skip_ws s' with
            | String c1 r1 =>
                if Ascii.eqb c1 "}" then Ok (JObj []) r1
                else parse_members lossy fuel' [] (String c1 r1)
            | EmptyString => Bad
            end
          else if Ascii.eqb c "[" then
            match skip_ws s' with
            | String c1 r1 =>
                if Ascii.eqb c1 "]" then Ok (JList []) r1
                else parse_elements lossy fuel' [] (String c1 r1)
            | EmptyString => Bad
            end
          else
            match scan_scalar s with
            | Some (v, r) => Ok v r
            | None => Bad
            end
      end
  end

(** [s] stands at a member's key; [acc] holds the members read. *)
with parse_members (lossy : bool) (fuel : nat) (acc : Dict.t) (s : string)
  : parsed json :=
  match fuel with
  | O => Deep
  | S fuel' =>
      match s with
      | String c s' =>
          if Ascii.eqb c quote then
            match scan_string lossy s' with
            | Some (key, r) =>
                match skip_ws r with
                | String c1 r1 =>
                    if Ascii.eqb c1 ":" then
                      match parse_value lossy fuel' (skip_ws r1) with
                      | Ok v r2 =>
                          let acc' := Dict.set key v acc in
                          match skip_ws r2 with
                          | String c2 r3 =>
                              if Ascii.eqb c2 "}" then Ok (JObj acc') r3
                              else if Ascii.eqb c2 ","
                                   then parse_members lossy fuel' acc'
                                          (skip_ws r3)
                                   else Bad
                          | EmptyString => Bad
                          end
                      | Bad => Bad
                      | Deep => Deep
                      end
                    else Bad
                | EmptyString => Bad
                end
            | None => Bad
            end
          else Bad
      | EmptyString => Bad
      end
  end

(** [s] stands at an element; [acc] holds the elements read, reversed. *)
with parse_elements (lossy : bool) (fuel : nat) (acc : list json)
                    (s : string) : parsed json :=
  match fuel with
  | O => Deep
  | S fuel' =>
      match parse_value lossy fuel' s with
      | Ok v r =>
          match skip_ws r with
          | String c r1 =>
              if Ascii.eqb c "]" then Ok (JList (rev (v :: acc))) r1
              else if Ascii.eqb c ","
                   then parse_elements lossy fuel' (v :: acc) (skip_ws r1)
                   else Bad
          | EmptyString => Bad
          end
      | Bad => Bad
      | Deep => Deep
      end
  end.

(** The parser on a whole text.  Every level of nesting costs two units
    of the budget and at least one character, so the budget
    [1 + 2 * length s] is never exhausted ([parse_within_budget]
    below). *)
Definition parse (lossy : bool) (s : string) : parsed json :=
  let s0 := skip_ws s in
  parse_value lossy (1 + 2 * String.length s0) s0.

Definition read (lossy : bool) (s : string) : option json :=
  match parse lossy s with
  | Ok v r => if PyStr.is_empty (skip_ws r) then Some v else None
  | Bad => None
  | Deep => None
  end.

(** [json.loads(s)] as the embedding sees it: [None] exactly when
    [json.loads] raises, and otherwise its value, in which [replacement]
    stands for every character beyond U+00FF: each string [x] of the
    text is read as [x.encode('latin-1', 'replace').decode('latin-1')],
    the keys of an object too.  This is what the embedded code calls. *)
Definition loads_latin1 (s : string) : option json := read true s.

(** The exact reading, in which the statements below speak of a text
    that parses: when [loads s = Some v], [json.loads(s)] is [v],
    character for character.  It is [None] where [json.loads] raises
    and also where the text denotes a character beyond U+00FF; the two
    are told apart by [loads_latin1] ([loads_exact] below relates
    them). *)
Definition loads (s : string) : option json := read false s.

End Json.

(** Texts with double quotes are written with apostrophes in the
    examples: [dq] turns every apostrophe into a double quote. *)
Fixpoint dq (s : string) : string :=
  match s with
  | EmptyString => EmptyString
  | String c s' =>
      String (if Ascii.eqb c "'" then Json.quote else c) (dq s')
  end.

(* ------------------------------------------------------------------ *)
(** ** Python values: exceptions, truthiness, [get], indexing *)
(* ------------------------------------------------------------------ *)

(** The exceptions the connector can meet.  [KeyboardInterrupt] is the
    only one that is not an instance of [Exception]. *)
Inductive pyexn : Type :=
| KeyboardInterrupt
| EOFError
| RequestException (what : string)   (* ConnectionError, Timeout, ... *)
| JSONDecodeError
| AttributeError
| IndexError
| KeyError
| TypeError.

(** [isinstance(e, Exception)] *)
Definition is_Exception (e : pyexn) : bool :=
  match e with KeyboardInterrupt => false | _ => true end.

Inductive result (A : Type) : Type :=
| Ret (a : A)
| Raise (e : pyexn).
Arguments Ret {A} a.
Arguments Raise {A} e.

Definition rbind {A B} (r : result A) (f : A -> result B) : result B :=
  match r with Ret a => f a | Raise e => Raise e end.

Module Py.

(** [2**-1075] is the largest magnitude that rounds to the float 0.0. *)
Definition rounds_to_zero (d : decimal) : bool :=
  (digits d =? 0)%Z ||
  ((exp10 d <? 0)%Z && (digits d * 2 ^ 1075 <=? 10 ^ (- exp10 d))%Z).

(** [bool(v)] *)
Definition truthy (v : json) : bool :=
  match v with
  | JNull => false
  | JBool b => b
  | JInt z => negb (z =? 0)%Z
  | JFloat d => negb (rounds_to_zero d)
  | JNonFinite _ => true
  | JStr s => negb (PyStr.is_empty s)
  | JList l => match l with [] => false | _ => true end
  | JObj d => match d with [] => false | _ => true end
  end.

(** [v == s] for a string literal [s] *)
Definition eq_str (v : json) (s : string) : bool :=
  match v with JStr t => String.eqb t s | _ => false end.

(** [v.get(key, default)]: only a dict has the method. *)
Definition get (v : json) (key : string) (default : json) : result json :=
  match v with
  | JObj d =>
      Ret (match Dict.lookup key d with Some x => x | None => default end)
  | _ => Raise AttributeError
  end.

(** [v[0]] *)
Definition item0 (v : json) : result json :=
  match v with
  | JList l => match l with x :: _ => Ret x | [] => Raise IndexError end
  | JStr s =>
      match s with
      | String c _ => Ret (JStr (String c EmptyString))
      | EmptyString => Raise IndexError
      end
  | JObj _ => Raise KeyError         (* every key of a JSON dict is a str *)
  | _ => Raise TypeError
  end.

(** [key in v] for a string [key] *)
Definition contains (key : string) (v : json) : result bool :=
  match v with
  | JObj d => Ret (Dict.mem key d)
  | JList l => Ret (existsb (fun x => eq_str x key) l)
  | JStr s => Ret (PyStr.contains key s)
  | _ => Raise TypeError
  end.

(** [v[key]] for a string [key] *)
Definition item (v : json) (key : string) : result json :=
  match v with
  | JObj d =>
      match Dict.lookup key d with Some x => Ret x | None => Raise KeyError end
  | _ => Raise TypeError
  end.

(** [v.lower()]: only a str has the method. *)
Definition lower (v : json) : result string :=
  match v with
  | JStr s => Ret (PyStr.lower s)
  | _ => Raise AttributeError
  end.

(** [str(int(z))] *)
Definition str_of_int (z : Z) : string := NilZero.string_of_int (Z.to_int z).

End Py.

(* ------------------------------------------------------------------ *)
(** ** The process environment and the history monad *)
(* ------------------------------------------------------------------ *)

Record response : Type := Response { status_code : Z; text : string }.

(** [r.json()]: it raises exactly when [json.loads] does on the body. *)
Definition response_json (r : response) : result json :=
  match Json.loads_latin1 (text r) with
  | Some v => Ret v
  | None => Raise JSONDecodeError
  end.

Inductive post_outcome : Type :=
| PostReturns (r : response)
| PostRaises (e : pyexn).

Inductive input_outcome : Type :=
| InputLine (line : string)
| InputRaises (e : pyexn).

(** What the connector prints, as the format string used and its
    arguments. *)
Inductive message : Type :=
| Banner
| Type_exit_to_quit
| Goodbye
| Session_ended_by_user
| Ollama_request_failed (attempt : nat) (e : pyexn)
| Mcp_call_failed_http (status : Z) (body : string)
| Mcp_call_exception (e : pyexn)
| System_prompt_initialized
| Ollama_said (model_output : json)
| Forcing_get_weather
| Forcing_send_notification
| No_tool_call_detected
| Tool_detected (tool args : json)
| Empty_mcp_result
| Mcp_result (text : json)
| Weather_alert_detected
| Notification (notif_text : json)
| Final_answer (summary : json)
| Unexpected_error (e : pyexn).

Inductive event : Type :=
| Post (url : string) (payload : json) (timeout : Z)   (* requests.post *)
| Sleep (seconds : Z)                                  (* time.sleep *)
| Time                                                 (* time.time *)
| Input (prompt : string)                              (* input *)
| Print (m : message)                                  (* print *)
| Log (m : message).                                   (* log *)

Definition history := list event.

Definition is_post (e : event) : bool :=
  match e with Post _ _ _ => true | _ => false end.

Definition is_input (e : event) : bool :=
  match e with Input _ => true | _ => false end.

(** The number of HTTP requests, and of console reads, in a history. *)
Definition posts (h : history) : nat := length (filter is_post h).
Definition inputs (h : history) : nat := length (filter is_input h).

(** Everything outside the process: what the [n]-th HTTP request meets,
    what the [n]-th console read meets, what the clock shows after [n]
    events, and the interpreter's [str()] of a value that is not a
    [str]. *)
Record world : Type := World
  { net : nat -> post_outcome;
    stdin : nat -> input_outcome;
    clock : nat -> Z;
    str_of : json -> string }.

(** A computation reads the history so far and returns its outcome and
    the events it adds. *)
Definition M (A : Type) : Type := history -> result A * list event.

Definition ret {A} (a : A) : M A := fun _ => (Ret a, []).

Definition raise {A} (e : pyexn) : M A := fun _ => (Raise e, []).

Definition bind {A B} (m : M A) (f : A -> M B) : M B :=
  fun h =>
    match m h with
    | (Ret a, ev) => let (r, ev') := f a (h ++ ev)%list in (r, (ev ++ ev')%list)
    | (Raise e, ev) => (Raise e, ev)
    end.

Definition lift {A} (r : result A) : M A := fun _ => (r, []).

Definition emit (e : event) : M unit := fun _ => (Ret tt, [e]).

(** [try: m  except ...: handler]; [handler e = None] when no clause
    catches [e]. *)
Definition try_except {A} (m : M A) (handler : pyexn -> option (M A)) : M A :=
  fun h =>
    match m h with
    | (Ret a, ev) => (Ret a, ev)
    | (Raise e, ev) =>
        match handler e with
        | Some k => let (r, ev') := k (h ++ ev)%list in (r, (ev ++ ev')%list)
        | None => (Raise e, ev)
        end
    end.

(** [except Exception as e: k e] *)
Definition except_Exception {A} (k : pyexn -> M A) (e : pyexn) : option (M A) :=
  if is_Exception e then Some (k e) else None.

Declare Scope py_scope.
Delimit Scope py_scope with py.
Notation "x <- m ;; k" := (bind m (fun x => k))
  (at level 61, m at next level, right associativity) : py_scope.
Notation "m ;; k" := (bind m (fun _ => k))
  (at level 61, right associativity) : py_scope.
Local Open Scope py_scope.

Section Effects.

Variable W : world.

(** [requests.post(url, json=payload, timeout=timeout)] *)
Definition post (url : string) (payload : json) (timeout : Z) : M response :=
  fun h =>
    (match net W (posts h) with
     | PostReturns r => Ret r
     | PostRaises e => Raise e
     end, [Post url payload timeout]).

(** [input(prompt)] *)
Definition input (prompt : string) : M string :=
  fun h =>
    (match stdin W (inputs h) with
     | InputLine l => Ret l
     | InputRaises e => Raise e
     end, [Input prompt]).

(** [int(time.time())] *)
Definition time_time : M Z := fun h => (Ret (clock W (length h)), [Time]).

Definition sleep (seconds : Z) : M unit := emit (Sleep seconds).
Definition print (m : message) : M unit := emit (Print m).
Definition log (m : message) : M unit := emit (Log m).

(** The text an f-string puts for [{v}]. *)
Definition fmt (v : json) : string :=
  match v with JStr s => s | _ => str_of W v end.

End Effects.

(* ------------------------------------------------------------------ *)
(** ** Connector.py *)
(* ------------------------------------------------------------------ *)

(** *** Configuration (lines 21-25) *)

Definition OLLAMA_URL : string := "http://localhost:11434/api/generate".
Definition MCP_URL : string := "http://localhost:9000/mcp".
Definition MODEL : string := "phi3:mini".
Definition ALERT_KEYWORDS : list string := ["rain"; "drizzle"; "shower"; "storm"].
Definition DEFAULT_CITY : string := "Chennai".

Definition nl : string := String (ascii_of_nat 10) EmptyString.

(** Adjacent literals that each end in a newline. *)
Definition unlines (l : list string) : string :=
  fold_right (fun x acc => x ++ nl ++ acc) EmptyString l.

(** Python's [break], against [continue] or reaching the end of the loop
    body. *)
Inductive ctl : Type := Break | Continue.

(** *** [detect_tool_call] (lines 75-85)

    The [try] block swallows every [Exception], so the function raises
    only where [re.search] does: on a text that is not a [str].  The
    block is read as the code reads it ([Json.loads_latin1]): an escape
    above U+00FF in it is no parse failure. *)
Definition detect_tool_call (text : json) : result (json * json) :=
  match text with
  | JStr t =>
      match Re.search Re.json_block_re t with
      | Some json_block =>
          let attempt : result (option (json * json)) :=
            rbind (match Json.loads_latin1 (Re.matched json_block) with
                   | Some j => Ret j
                   | None => Raise JSONDecodeError
                   end) (fun j =>
            rbind (Py.contains "name" j) (fun has_name =>
            rbind (if has_name then Py.contains "arguments" j else Ret false)
                  (fun has_both =>
            if has_both
            then rbind (Py.item j "name") (fun name =>
                 rbind (Py.item j "arguments") (fun arguments =>
                 Ret (Some (name, arguments))))
            else Ret None))) in
          match attempt with
          | Ret (Some call) => Ret call
          | Ret None => Ret (JNull, JNull)
          | Raise _ => Ret (JNull, JNull)            (* except Exception: pass *)
          end
      | None => Ret (JNull, JNull)
      end
  | _ => Raise TypeError
  end.

Section Connector.

Variable W : world.

(** *** [ask_ollama] (lines 36-47) *)

(** The body of the [try] (lines 41-43). *)
Definition ollama_request (payload : json) : M json :=
  r <- post W OLLAMA_URL payload 60 ;;
  data <- lift (response_json r) ;;
  lift (Py.get data "response" (JStr (text r))).

(** Lines 40-46, one iteration: [Some v] is the [return v] of the
    [try], [None] the end of the [except] clause. *)
Definition ollama_try (payload : json) (attempt : nat) : M (option json) :=
  try_except
    (v <- ollama_request payload ;; ret (Some v))
    (except_Exception (fun e =>
       log (Ollama_request_failed (attempt + 1) e) ;;
       sleep 1 ;;
       ret None)).

(** The [for] loop from iteration [attempt] on, [remaining] iterations
    left. *)
Fixpoint ollama_attempts (payload : json) (attempt remaining : nat) : M json :=
  match remaining with
  | O => ret (JStr "[Error: Ollama request failed after retries]")
  | S n =>
      returned <- ollama_try payload attempt ;;
      match returned with
      | Some v => ret v
      | None => ollama_attempts payload (S attempt) n
      end
  end.

Definition ask_ollama (prompt : string) (max_retries : nat) : M json :=
  let payload :=
    JObj [("model", JStr MODEL); ("prompt", JStr prompt);
          ("stream", JBool false)] in
  ollama_attempts payload 0 max_retries.

(** *** [call_mcp_tool] (lines 52-70) *)

(** The body of the [try] (lines 62-66); [None] when it falls through
    to the next iteration. *)
Definition mcp_request (payload : json) : M (option json) :=
  r <- post W MCP_URL payload 60 ;;
  if (status_code r =? 200)%Z
  then (j <- lift (response_json r) ;; ret (Some j))
  else (log (Mcp_call_failed_http (status_code r) (PyStr.take 200 (text r))) ;;
        ret None).

(** Lines 61-69, one iteration. *)
Definition mcp_try (payload : json) : M (option json) :=
  try_except
    (mcp_request payload)
    (except_Exception (fun e =>
       log (Mcp_call_exception e) ;;
       sleep 1 ;;
       ret None)).

Fixpoint mcp_attempts (tool payload : json) (remaining : nat) : M json :=
  match remaining with
  | O => ret (JObj [("error", JStr ("MCP call failed for " ++ fmt W tool))])
  | S n =>
      returned <- mcp_try payload ;;
      match returned with
      | Some j => ret j
      | None => mcp_attempts tool payload n
      end
  end.

Definition call_mcp_tool (tool args : json) (max_retries : nat) : M json :=
  now <- time_time W ;;
  let payload :=
    JObj [("jsonrpc", JStr "2.0");
          ("id", JStr (Py.str_of_int now));
          ("method", JStr "mcp/call_tool");
          ("params", JObj [("tool", tool); ("arguments", args)])] in
  mcp_attempts tool payload max_retries.

(** *** [chat_loop] (lines 90-183) *)

Definition system_instruction : string :=
  unlines
    ["SYSTEM INSTRUCTION:";
     "You are an AI assistant connected to a local MCP server.";
     "You cannot write or show code.";
     "You must call tools for all external actions.";
     "Available tools:";
     "1. get_weather(city: string)";
     "2. send_notification(notification_input: string)";
     "Always respond ONLY in JSON format like:";
     dq "{ 'name': '<tool_name>', 'arguments': { ... } }"].

(** Lines 125-135: the fallback on the user's own words. *)
Definition fallback (user_input : string) (tool args : json) : M (json * json) :=
  if negb (Py.truthy tool) then
    if PyStr.contains "weather" (PyStr.lower user_input) then
      log Forcing_get_weather ;;
      let city_match := Re.findall Re.city_re user_input in
      let city :=
        match city_match with
        | g :: _ => PyStr.strip g
        | [] => DEFAULT_CITY
        end in
      ret (JStr "get_weather", JObj [("city", JStr city)])
    else if PyStr.contains "notify" (PyStr.lower user_input)
            || PyStr.contains "alert" (PyStr.lower user_input) then
      log Forcing_send_notification ;;
      ret (JStr "send_notification",
           JObj [("notification_input",
                  JStr (user_input ++ "|general_alerts"))])
    else ret (tool, args)
  else ret (tool, args).

(** Lines 122-135: the tool and arguments the turn goes on with; no
    tool is called when the tool is not truthy (line 138). *)
Definition resolve_intent (user_input : string) (model_output : json)
  : M (json * json) :=
  call <- lift (detect_tool_call model_output) ;;
  fallback user_input (fst call) (snd call).

(** Lines 145-149 and 166-170:
    [.get("result", {}).get("content", [{}])[0].get("text", "")] *)
Definition result_text (mcp_response : json) : result json :=
  rbind (Py.get mcp_response "result" (JObj [])) (fun result =>
  rbind (Py.get result "content" (JList [JObj []])) (fun content =>
  rbind (Py.item0 content) (fun first =>
  Py.get first "text" (JStr EmptyString)))).

(** Lines 157-171: the rain/drizzle notification trigger. *)
Definition alert_policy (tool text : json) : M unit :=
  if Py.eq_str tool "get_weather" then
    lower_text <- lift (Py.lower text) ;;
    if existsb (fun k => PyStr.contains k lower_text) ALERT_KEYWORDS then
      log Weather_alert_detected ;;
      let notif_input := fmt W text ++ "|weather_alerts" in
      notif_result <-
        call_mcp_tool (JStr "send_notification")
                      (JObj [("notification_input", JStr notif_input)]) 2 ;;
      notif_text <- lift (result_text notif_result) ;;
      log (Notification notif_text)
    else ret tt
  else ret tt.

(** Lines 110-176: the body of the [try]. *)
Definition turn : M ctl :=
  line <- input W "You: " ;;
  let user_input := PyStr.strip line in
  if String.eqb (PyStr.lower user_input) "exit"
     || String.eqb (PyStr.lower user_input) "quit"
  then print Goodbye ;; ret Break
  else
    let enforced_input :=
      "Reminder: Never show code. Use MCP tools only." ++ nl ++ nl
      ++ "User request: " ++ user_input in
    model_output <- ask_ollama enforced_input 3 ;;
    print (Ollama_said model_output) ;;
    call <- resolve_intent user_input model_output ;;
    let tool := fst call in
    let args := snd call in
    if negb (Py.truthy tool)
    then log No_tool_call_detected ;; ret Continue
    else
      log (Tool_detected tool args) ;;
      mcp_response <- call_mcp_tool tool args 2 ;;
      text <- lift (result_text mcp_response) ;;
      if negb (Py.truthy text)
      then log Empty_mcp_result ;; ret Continue
      else
        print (Mcp_result text) ;;
        alert_policy tool text ;;
        let summary_prompt :=
          "Summarize in one line, clearly and concisely: " ++ fmt W text in
        summary <- ask_ollama summary_prompt 3 ;;
        print (Final_answer summary) ;;
        ret Continue.

(** Lines 109-183: one pass of [while True], with its two [except]
    clauses. *)
Definition loop_handler (e : pyexn) : option (M ctl) :=
  match e with
  | KeyboardInterrupt => Some (print Session_ended_by_user ;; ret Break)
  | _ => except_Exception (fun e => log (Unexpected_error e) ;; ret Continue) e
  end.

Definition iteration : M ctl := try_except turn loop_handler.

(** [while True]: at most [rounds] passes; [false] when the loop has
    not been left by then. *)
Fixpoint while_true (rounds : nat) : M bool :=
  match rounds with
  | O => ret false
  | S n =>
      c <- iteration ;;
      match c with
      | Break => ret true
      | Continue => while_true n
      end
  end.

Definition chat_loop (rounds : nat) : M bool :=
  print Banner ;;
  print Type_exit_to_quit ;;
  ask_ollama system_instruction 3 ;;
  log System_prompt_initialized ;;
  while_true rounds.

End Connector.

(* ------------------------------------------------------------------ *)
(** ** mcp_server.py *)
(* ------------------------------------------------------------------ *)

(** What the server does to the world outside. *)
Inductive effect : Type :=
| Get (url : string)                          (* requests.get(url) *)
| Post_data (url : string) (data : string)    (* requests.post(url, data=...) *)
| Log_exception (msg : string)                (* logging.exception(msg) *)
| Print_traceback.                            (* traceback.print_exc() *)

Definition is_request (e : effect) : bool :=
  match e with Get _ | Post_data _ _ => true | _ => false end.

(** The texts that this development does not spell out: the two
    pictographs of the notification texts, which lie outside the
    character range of [string]; [str(e)] of an exception; and the
    library's dump of the two tool records. *)
Record server_texts : Type := ServerTexts
  { check_mark : string;
    cross_mark : string;
    str_exn : pyexn -> string;
    tool_dumps : json }.

(** A computation of the server: its outcome and what it did. *)
Definition Run (A : Type) : Type := result A * list effect.

Definition sret {A} (a : A) : Run A := (Ret a, []).

Definition sbind {A B} (m : Run A) (f : A -> Run B) : Run B :=
  match m with
  | (Ret a, ev) => let (r, ev') := f a in (r, (ev ++ ev')%list)
  | (Raise e, ev) => (Raise e, ev)
  end.

Definition slift {A} (r : result A) : Run A := (r, []).

Definition did (e : effect) : Run unit := (Ret tt, [e]).

(** [try: m  except Exception as e: k e] *)
Definition catching {A} (m : Run A) (k : pyexn -> Run A) : Run A :=
  match m with
  | (Ret a, ev) => (Ret a, ev)
  | (Raise e, ev) =>
      if is_Exception e
      then let (r, ev') := k e in (r, (ev ++ ev')%list)
      else (Raise e, ev)
  end.

(** A request that meets [upstream]. *)
Definition request (what : effect) (upstream : post_outcome) : Run response :=
  (match upstream with
   | PostReturns r => Ret r
   | PostRaises e => Raise e
   end, [what]).

(** [sep.join(l)] *)
Fixpoint join (sep : string) (l : list string) : string :=
  match l with
  | [] => EmptyString
  | [x] => x
  | x :: l' => x ++ sep ++ join sep l'
  end.

(** [s.split(sep, 1)] for a separator of one character *)
Fixpoint split1 (sep : ascii) (s : string) : list string :=
  match s with
  | EmptyString => [EmptyString]
  | String c s' =>
      if Ascii.eqb c sep then [EmptyString; s']
      else match split1 sep s' with
           | x :: l => String c x :: l
           | [] => []
           end
  end.

Declare Scope server_scope.
Delimit Scope server_scope with server.
Notation "x <~ m ;; k" := (sbind m (fun x => k))
  (at level 61, m at next level, right associativity) : server_scope.

Section Server.

Local Open Scope server_scope.

Variable W : world.
Variable T : server_texts.

(** *** [get_weather] (lines 26-49) *)

Definition api_key : string := "88fb13a484c079f6680237dbbc748f07".

(** U+00B0, the degree sign *)
Definition degree : string := String (ascii_of_nat 176) EmptyString.

Definition umbrella_advice : string := " Heavy rain expected. Carry an umbrella!".

(** Lines 44-47, for a description that is a [str]. *)
Definition weather_info (city temp : json) (description : string) : string :=
  "The current temperature in " ++ fmt W city ++ " is " ++ fmt W temp
  ++ degree ++ "C with " ++ description ++ ".".

Definition get_weather (city : json) (upstream : post_outcome) : Run string :=
  if PyStr.is_empty api_key then
    sret ("Weather API key not found. "
          ++ "Please set the WEATHER_API_KEY environment variable.")
  else
    let url :=
      "http://api.openweathermap.org/data/2.5/weather?q=" ++ fmt W city
      ++ "&appid=" ++ api_key ++ "&units=metric" in
    response <~ request (Get url) upstream ;;
    if negb (status_code response =? 200)%Z then
      body <~ slift (response_json response) ;;
      message <~ slift (Py.get body "message" (JStr "Unknown error")) ;;
      sret ("Error fetching weather: " ++ fmt W message)
    else
      data <~ slift (response_json response) ;;
      main <~ slift (Py.get data "main" JNull) ;;
      both <~ (if Py.truthy main
               then slift (Py.get data "weather" JNull)
               else sret main) ;;
      if Py.truthy both then
        main <~ slift (Py.item data "main") ;;
        temp <~ slift (Py.item main "temp") ;;
        weather <~ slift (Py.item data "weather") ;;
        first <~ slift (Py.item0 weather) ;;
        description <~ slift (Py.item first "description") ;;
        let weather_info := weather_info city temp (fmt W description) in
        lowered <~ slift (Py.lower description) ;;
        if PyStr.contains "rain" lowered
        then sret (weather_info ++ umbrella_advice)
        else sret weather_info
      else
        sret ("Unable to fetch weather for " ++ fmt W city
              ++ ". Please check the city name.").

(** *** [send_notification] (lines 56-80) *)

Definition NTFY_URL : string := "https://ntfy.sh/athlour".

Definition send_notification (notification_input : json)
           (upstream : post_outcome) : Run string :=
  catching
    (let notification_input :=
       match notification_input with
       | JList l => JStr (join " " (map (fmt W) l))
       | v => v
       end in
     let parts := split1 "|" (fmt W notification_input) in
     match parts with
     | [message; topic] =>
         let url := NTFY_URL in
         response <~ request (Post_data url (PyStr.strip message)) upstream ;;
         if (status_code response =? 200)%Z
         then sret (check_mark T ++ " Notification sent to '"
                    ++ PyStr.strip topic ++ "': " ++ PyStr.strip message)
         else sret (cross_mark T ++ " Failed to send notification (HTTP "
                    ++ Py.str_of_int (status_code response) ++ ")")
     | _ => sret "Invalid input. Format must be 'message|topic'."
     end)
    (fun e => sret ("Error sending notification: " ++ str_exn T e)).

(** *** [call_tool] (lines 116-135) *)

Inductive text_content : Type :=
| TextContent (type : string) (text : string).

Definition call_tool (name arguments : json) (upstream : post_outcome)
  : Run (list text_content) :=
  catching
    (if Py.eq_str name "get_weather" then
       city <~ slift (Py.get arguments "city" (JStr EmptyString)) ;;
       result <~ get_weather city upstream ;;
       sret [TextContent "text" result]
     else if Py.eq_str name "send_notification" then
       notification_input <~
         slift (Py.get arguments "notification_input" (JStr EmptyString)) ;;
       result <~ send_notification notification_input upstream ;;
       sret [TextContent "text" result]
     else
       sret [TextContent "text" ("Unknown tool: " ++ fmt W name)])
    (fun e =>
       _ <~ did (Log_exception "Tool execution error:") ;;
       sret [TextContent "text"
               ("Error executing tool " ++ fmt W name ++ ": " ++ str_exn T e)]).

(** *** [mcp_http_handler] (lines 160-229) *)

(** Lines 195-203. *)
Definition tool_reply (id : json) (result_text : string) : json :=
  JObj [("jsonrpc", JStr "2.0");
        ("id", id);
        ("result",
         JObj [("content",
                JList [JObj [("type", JStr "text");
                             ("text", JStr result_text)]])])].

Definition error_reply (id : json) (code : Z) (message : string) : json :=
  JObj [("jsonrpc", JStr "2.0");
        ("id", id);
        ("error", JObj [("code", JInt code); ("message", JStr message)])].

(** Lines 180-218: [handle], for the parsed body [payload]. *)
Definition handle (payload : json) (upstream : post_outcome) : Run json :=
  method <~ slift (Py.get payload "method" JNull) ;;
  if Py.eq_str method "mcp/call_tool" then
    params <~ slift (Py.get payload "params" (JObj [])) ;;
    tool <~ slift (Py.get params "tool" JNull) ;;
    args <~ slift (Py.get params "arguments" (JObj [])) ;;
    result_text <~
      (if Py.eq_str tool "get_weather" then
         city <~ slift (Py.get args "city" (JStr EmptyString)) ;;
         get_weather city upstream
       else if Py.eq_str tool "send_notification" then
         notification_input <~
           slift (Py.get args "notification_input" (JStr EmptyString)) ;;
         send_notification notification_input upstream
       else sret ("Unknown tool '" ++ fmt W tool ++ "'")) ;;
    id <~ slift (Py.get payload "id" JNull) ;;
    sret (tool_reply id result_text)
  else if Py.eq_str method "mcp/list_tools" then
    id <~ slift (Py.get payload "id" JNull) ;;
    sret (JObj [("jsonrpc", JStr "2.0");
                ("id", id);
                ("result", JObj [("tools", tool_dumps T)])])
  else
    id <~ slift (Py.get payload "id" JNull) ;;
    sret (error_reply id (-32601) "Unknown method").

(** The view function, for the request's method and the outcome of
    [request.get_json(force=True)]; it returns what is handed to
    [jsonify] and the status. *)
Definition mcp_http_handler (method : string) (get_json : result json)
           (upstream : post_outcome) : Run (json * Z) :=
  if String.eqb method "GET" then
    sret (JObj [("message",
                 JStr "MCP endpoint active. Use POST for JSON-RPC calls.");
                ("example",
                 JObj [("method", JStr "mcp/call_tool");
                       ("params",
                        JObj [("tool", JStr "get_weather");
                              ("arguments",
                               JObj [("city", JStr "Chennai")])])])],
          200%Z)
  else
    match get_json with
    | Raise e =>
        if is_Exception e
        then sret (JObj [("jsonrpc", JStr "2.0");
                         ("error", JObj [("code", JInt (-32700));
                                         ("message", JStr "Invalid JSON")]);
                         ("id", JNull)],
                   400%Z)
        else slift (Raise e)
    | Ret payload =>
        catching
          (response <~ handle payload upstream ;;
           sret (response, 200%Z))
          (fun exc =>
             _ <~ did Print_traceback ;;
             id <~ slift (Py.get payload "id" JNull) ;;
             sret (error_reply id (-32000)
                     ("Internal Server Error: " ++ str_exn T exc),
                   500%Z))
    end.

End Server.

(* ------------------------------------------------------------------ *)
(** ** connection_test.py *)
(* ------------------------------------------------------------------ *)

(** Its [OLLAMA_URL] (line 5) is the connector's. *)
Definition MODEL_NAME : string := "gpt-oss:120b-cloud".

(** What [test_ollama] does: its one request, made without a timeout,
    and what it prints. *)
Inductive test_event : Type :=
| Sending_prompt
| Test_post (url : string) (payload : json)   (* requests.post(url, json=payload) *)
| Http_status (status : Z)
| Raw_response_text (first_300 : string)
| Parsed_json (data : json)                   (* json.dumps(data, indent=2) *)
| Model_said (v : json)
| Could_not_parse (e : pyexn).

(** [test_ollama] (lines 10-31), for what its request meets. *)
Definition test_ollama (prompt : string) (upstream : post_outcome)
  : result unit * list test_event :=
  let payload :=
    JObj [("model", JStr MODEL_NAME); ("prompt", JStr prompt);
          ("stream", JBool false)] in
  let sent := [Sending_prompt; Test_post OLLAMA_URL payload] in
  match upstream with
  | PostRaises e => (Raise e, sent)
  | PostReturns response =>
      let shown :=
        (sent ++ [Http_status (status_code response);
                  Raw_response_text (PyStr.take 300 (text response))])%list in
      let tried : result unit * list test_event :=
        match response_json response with
        | Raise e => (Raise e, [])
        | Ret data =>
            match Py.contains "response" data with
            | Raise e => (Raise e, [Parsed_json data])
            | Ret false => (Ret tt, [Parsed_json data])
            | Ret true =>
                match Py.item data "response" with
                | Raise e => (Raise e, [Parsed_json data])
                | Ret v => (Ret tt, [Parsed_json data; Model_said v])
                end
            end
        end in
      match tried with
      | (Ret u, printed) => (Ret u, (shown ++ printed)%list)
      | (Raise e, printed) =>                   (* except Exception as e *)
          if is_Exception e
          then (Ret tt, (shown ++ printed ++ [Could_not_parse e])%list)
          else (Raise e, (shown ++ printed)%list)
      end
  end.

(* ------------------------------------------------------------------ *)
(** ** Vocabulary of the properties, and scripted worlds *)
(* ------------------------------------------------------------------ *)

(** The outcome and the events of a computation that continues with [k]
    after the events [ev]. *)
Definition after {A} (ev : list event) (k : M A) (h : history)
  : result A * list event :=
  (fst (k (h ++ ev)%list), (ev ++ snd (k (h ++ ev)%list))%list).

(** What [ask_ollama] returns for a reply whose body is the dict [d]:
    [data.get("response", r.text)]. *)
Definition completion (r : response) (d : Dict.t) : json :=
  match Dict.lookup "response" d with
  | Some v => v
  | None => JStr (text r)
  end.

(** A failed attempt of the model gateway: the request raises an
    [Exception] (timeout, connection error), or the body of the reply
    is not the text of a JSON object: [r.json()] raises, or what it
    returns is not a dict.  A body that [json.loads] reads as a dict is
    no failure, whatever characters its strings hold. *)
Definition ollama_attempt_fails (o : post_outcome) : Prop :=
  match o with
  | PostRaises e => is_Exception e = true
  | PostReturns r => forall d, Json.loads_latin1 (text r) <> Some (JObj d)
  end.

Definition ollama_failure_events (payload : json) (attempt : nat) (e : pyexn)
  : list event :=
  [Post OLLAMA_URL payload 60; Log (Ollama_request_failed (attempt + 1) e);
   Sleep 1].

(** A failed attempt of the tool gateway: a status other than 200, or
    an [Exception], raised by the request or by [r.json()] on a 200
    reply whose body is not JSON ([Json.loads_latin1] is [None] exactly
    where [json.loads] raises). *)
Definition mcp_attempt_fails (o : post_outcome) : Prop :=
  match o with
  | PostRaises e => is_Exception e = true
  | PostReturns r =>
      status_code r <> 200%Z \/ Json.loads_latin1 (text r) = None
  end.

Definition reply (status : Z) (body : string) : post_outcome :=
  PostReturns (Response status body).

Definition timeout : post_outcome := PostRaises (RequestException "timeout").

(** The requests meet [replies] in turn and the console reads [lines];
    past their ends the connection is refused and the console is
    closed. *)
Definition scripted (replies : list post_outcome) (lines : list input_outcome)
  : world :=
  World (fun n => nth n replies (PostRaises (RequestException "refused")))
        (fun n => nth n lines (InputRaises EOFError))
        (fun _ => 1700000000%Z)
        (fun _ => "<value>"%string).

Definition ollama_payload (prompt : string) : json :=
  JObj [("model", JStr MODEL); ("prompt", JStr prompt); ("stream", JBool false)].

Definition ollama_sentinel : json :=
  JStr "[Error: Ollama request failed after retries]".

Definition flaky_ollama : world :=
  scripted [timeout; reply 200 (dq "{'response': 'hello'}")] [].

Definition failing_mcp : world :=
  scripted [reply 500 "Internal Server Error"; reply 500 "Internal Server Error"] [].

Definition error_page : string := dq "{'error': 'model not found'}".

Definition empty_content_reply : string :=
  dq "{'jsonrpc': '2.0', 'id': '1700000000', 'result': {'content': []}}".

Definition nested_call : string :=
  dq "{'name': 'get_weather', 'arguments': {'city': 'Paris'}}".

(** [word] occurs in [text] when case is ignored: some substring of
    [text] has the same lower-case form as [word]. *)
Definition occurs_ignoring_case (word text : string) : Prop :=
  exists pre mid post,
    text = pre ++ mid ++ post /\ PyStr.lower mid = PyStr.lower word.

(** Every character of [s] is in the class [p]. *)
Fixpoint every (p : ascii -> bool) (s : string) : bool :=
  match s with
  | EmptyString => true
  | String c s' => p c && every p s'
  end.

(** [s] starts with a character of the class [p]. *)
Definition starts_in (p : ascii -> bool) (s : string) : bool :=
  match s with
  | EmptyString => false
  | String c _ => p c
  end.

(** The user input splits as [pre ++ "in" ++ ws ++ g ++ rest], with
    [ws] a run of whitespace and [g] a run of letters and spaces, both
    not empty: an occurrence of the pattern "in <words>". *)
Definition in_words (s pre ws g rest : string) : Prop :=
  s = pre ++ "in" ++ ws ++ g ++ rest
  /\ every PyStr.isspace ws = true /\ ws <> ""
  /\ every Re.letter_or_space g = true /\ g <> "".

(** The city that the pattern "in <words>" gives for a user input: at
    the leftmost occurrence of the pattern, after the longest run of
    whitespace that still leaves a word, the whole run of letters and
    spaces, stripped; the default city when the pattern does not
    occur. *)
Definition city_for (user_input city : string) : Prop :=
  (exists pre ws g rest,
      in_words user_input pre ws g rest
      /\ starts_in Re.letter_or_space rest = false
      /\ (forall pre' ws' g' rest',
             in_words user_input pre' ws' g' rest' ->
             String.length pre <= String.length pre')
      /\ (forall ws' g' rest',
             in_words user_input pre ws' g' rest' ->
             String.length ws' <= String.length ws)
      /\ city = PyStr.strip g)
  \/ ((forall pre ws g rest, ~ in_words user_input pre ws g rest)
      /\ city = DEFAULT_CITY).

Definition rainy_world : world :=
  scripted
    [reply 200
       (dq "{'result': {'content': [{'type': 'text', 'text': 'sent'}]}}")] [].

(** [c] does not occur in [s]. *)
Definition free_of (c : ascii) (s : string) : Prop :=
  forall a b, s <> a ++ String c b.

(** The resolution run twice in a row on the same inputs. *)
Definition resolve_twice (user_input : string) (model_output : json)
  : M ((json * json) * (json * json)) :=
  bind (resolve_intent user_input model_output) (fun first =>
  bind (resolve_intent user_input model_output) (fun second =>
  ret (first, second))).

(** The line is an exit keyword: "exit" or "quit" in any case, once the
    whitespace around it is stripped. *)
Definition exit_keyword (line : string) : Prop :=
  PyStr.lower (PyStr.strip line) = "exit"%string
  \/ PyStr.lower (PyStr.strip line) = "quit"%string.

(** The history at the start of pass [k] of the loop, from [h] at the
    start of pass 0. *)
Fixpoint history_after (W : world) (k : nat) (h : history) : history :=
  match k with
  | O => h
  | S k' => history_after W k' (h ++ snd (iteration W h))%list
  end.

(** A request made from history [h] on is interrupted. *)
Definition interrupted_request (W : world) (h : history) : Prop :=
  exists n, posts h <= n /\ net W n = PostRaises KeyboardInterrupt.

Definition closed_console : world :=
  scripted [] [InputRaises EOFError; InputLine " Quit "].

(** A whole session: the first turn gets a reply with an empty content
    list and dies of [IndexError], the console then fails once, and the
    third line read ends the session. *)
Definition bumpy_session : world :=
  scripted
    [timeout;
     reply 200 (dq "{'response': 'ready'}");
     reply 200 (dq "{'response': 'I can not call tools.'}");
     reply 200 empty_content_reply]
    [InputLine "  weather in Paris  "; InputRaises EOFError; InputLine " QUIT "].

(** [c] occurs [count_char c s] times in [s]. *)
Fixpoint count_char (c : ascii) (s : string) : nat :=
  match s with
  | EmptyString => 0
  | String x s' => (if Ascii.eqb x c then 1 else 0) + count_char c s'
  end.

(** The request that [call_mcp_tool] sends (lines 53-58), for the
    clock's text [id]. *)
Definition mcp_payload (id : string) (tool args : json) : json :=
  JObj [("jsonrpc", JStr "2.0");
        ("id", JStr id);
        ("method", JStr "mcp/call_tool");
        ("params", JObj [("tool", tool); ("arguments", args)])].

(** The requests and console reads in the events of a computation stay
    within [p] and [i]. *)
Definition within (p i : nat) (ev : list event) : Prop :=
  posts ev <= p /\ inputs ev <= i.


Definition enforced_input (user_input : string) : string :=
  ("Reminder: Never show code. Use MCP tools only." ++ nl ++ nl
   ++ "User request: " ++ user_input).


(** What is left of the turn once the model has answered. *)
Definition turn_rest (W : world) (user_input : string) (model_output : json) : M ctl :=
  bind (resolve_intent user_input model_output) (fun call =>
    if negb (Py.truthy (fst call))
    then bind (log No_tool_call_detected) (fun _ => ret Continue)
    else
      bind (log (Tool_detected (fst call) (snd call))) (fun _ =>
      bind (call_mcp_tool W (fst call) (snd call) 2) (fun mcp_response =>
      bind (lift (result_text mcp_response)) (fun text =>
      if negb (Py.truthy text)
      then bind (log Empty_mcp_result) (fun _ => ret Continue)
      else
        bind (print (Mcp_result text)) (fun _ =>
        bind (alert_policy W (fst call) text) (fun _ =>
        bind (ask_ollama W
                ("Summarize in one line, clearly and concisely: "
                   ++ fmt W text) 3) (fun summary =>
        bind (print (Final_answer summary)) (fun _ =>
        ret Continue)))))))).


(** The events of one failed attempt of the tool gateway: a reply with
    another status than 200 is logged with its status and the first 200
    characters of its body, and the next attempt follows at once; an
    exception is logged and followed by a sleep of 1.  A reply with
    status 200 fails only when [r.json()] raises on its body, which
    then is no JSON text: the exception is [JSONDecodeError]. *)
Definition mcp_failure_events (payload : json) (o : post_outcome)
  : list event :=
  match o with
  | PostReturns r =>
      if (status_code r =? 200)%Z
      then [Post MCP_URL payload 60; Log (Mcp_call_exception JSONDecodeError);
            Sleep 1]
      else [Post MCP_URL payload 60;
            Log (Mcp_call_failed_http (status_code r) (PyStr.take 200 (text r)))]
  | PostRaises e =>
      [Post MCP_URL payload 60; Log (Mcp_call_exception e); Sleep 1]
  end.


(** The address that [get_weather] asks for a city. *)
Definition weather_url (city : string) : string :=
  "http://api.openweathermap.org/data/2.5/weather?q=" ++ city
  ++ "&appid=88fb13a484c079f6680237dbbc748f07&units=metric".

Definition no_texts : server_texts :=
  ServerTexts "[ok]" "[failed]" (fun _ => "<exception>") (JList []).


Definition clear_report : response :=
  Response 200
    (dq "{'main': {'temp': 30}, 'weather': [{'description': 'clear sky'}]}").

(** A world without network and console, for the server's texts. *)
Definition offline : world := scripted [] [].

Definition small_talk : world :=
  scripted [reply 200 (dq "{'response': 'I can not help with that.'}")]
           [InputLine "hello there"].

Definition numeric_answer : world :=
  scripted [reply 200 (dq "{'response': 42}")] [InputLine "hello there"].

Definition server_down : world :=
  scripted [reply 200 (dq "{'response': 'ok'}"); timeout;
            reply 502 "Bad Gateway"]
           [InputLine "weather in Paris"].

Definition flat_call : string :=
  dq "Sure: {'name': 'get_weather', 'arguments': 'Paris'} done".

(** A turn that runs to its end: the model does not call a tool, the
    fallback asks for the weather, the tool server answers, and the
    model summarizes. *)
Definition sunny_day : world :=
  scripted
    [reply 200 (dq "{'response': 'Let me think.'}");
     reply 200
       (dq "{'result': {'content': [{'type': 'text', 'text': 'Sunny'}]}}");
     reply 200 (dq "{'response': 'It is sunny.'}")]
    [InputLine "weather in Paris"].

Definition is_print (e : event) : bool :=
  match e with Print _ => true | _ => false end.

(** Nothing is printed among the events [ev] (log lines apart). *)
Definition silent (ev : list event) : Prop :=
  forall e, In e ev -> is_print e = false.

Example search_nested :
  option_map Re.matched (Re.search Re.json_block_re "x {a{b}c} }") = Some "{a{b}".
Proof. vm_compute. reflexivity. Qed.

Example findall_paris :
  Re.findall Re.city_re "weather in Paris, or in  Rome " = ["Paris"; "Rome "].
Proof. vm_compute. reflexivity. Qed.

Example findall_spaces :
  Re.findall Re.city_re "weather in   " = [" "].
Proof. vm_compute. reflexivity. Qed.

Example loads_call :
  Json.loads (dq "{ 'name': 'get_weather', 'arguments': { 'city': 'Paris' } }")
  = Some (JObj [("name", JStr "get_weather");
                ("arguments", JObj [("city", JStr "Paris")])]).
Proof. vm_compute. reflexivity. Qed.

Example loads_mixed :
  Json.loads (dq " [1, -2.50e1, true, null, 'aA\n', {'k': [], 'k': 0}] ")
  = Some (JList [JInt 1; JFloat (Decimal true 250 (-1)); JBool true; JNull;
                 JStr (String "a" (String "A" (String (ascii_of_nat 10) EmptyString)));
                 JObj [("k", JInt 0)]]).
Proof. vm_compute. reflexivity. Qed.

Example loads_truncated :
  Json.loads_latin1 (dq "{'name': 'get_weather', 'arguments': {'city': 'Paris'}")
  = None.
Proof. vm_compute. reflexivity. Qed.

(** Escapes above U+00FF.  The text is JSON and the embedded code reads
    it, with [?] for each character beyond the range: a surrogate pair
    is one character, a lone surrogate is one too, and an escape within
    the range is the character itself (here U+00E9).  The exact reading
    has no value for such a text.  An escape with a digit missing is no
    JSON. *)
Example loads_beyond_latin1 :
  Json.loads_latin1
    (dq "{'response': '\u4f60\u597D, caf\u00e9 \ud83d\ude00 \ud83d!'}")
  = Some (JObj [("response",
                 JStr ("??, caf" ++ String (ascii_of_nat 233) " ? ?!"))])
  /\ Json.loads
       (dq "{'response': '\u4f60\u597D, caf\u00e9 \ud83d\ude00 \ud83d!'}")
     = None
  /\ Json.loads_latin1 (dq "{'response': '\u4f6'}") = None
  /\ Json.loads_latin1 (dq "'\ud83d\u00zz'") = None.
Proof. repeat split; vm_compute; reflexivity. Qed.

(* ------------------------------------------------------------------ *)
(** ** Properties *)
(* ------------------------------------------------------------------ *)

Local Open Scope list_scope.

(** *** Histories *)

Lemma posts_app (h1 h2 : history) : posts (h1 ++ h2) = posts h1 + posts h2.
Proof. unfold posts. now rewrite filter_app, length_app. Qed.

Lemma inputs_app (h1 h2 : history) : inputs (h1 ++ h2) = inputs h1 + inputs h2.
Proof. unfold inputs. now rewrite filter_app, length_app. Qed.

Lemma bind_ret {A B} (m : M A) (f : A -> M B) h a ev :
  m h = (Ret a, ev) -> bind m f h = after ev (f a) h.
Proof.
  intros E. unfold bind, after. rewrite E.
  now destruct (f a (h ++ ev)%list).
Qed.

Lemma bind_raise {A B} (m : M A) (f : A -> M B) h e ev :
  m h = (Raise e, ev) -> bind m f h = (Raise e, ev).
Proof. intros E. unfold bind. now rewrite E. Qed.

Lemma bind_ret_inv {A B} (m : M A) (f : A -> M B) (h : history) (b : B) :
  fst (bind m f h) = Ret b ->
  exists a, fst (m h) = Ret a /\ fst (f a (h ++ snd (m h))) = Ret b.
Proof.
  unfold bind. destruct (m h) as [[a|e] ev]; cbn; [|discriminate].
  destruct (f a (h ++ ev)) as [r ev'] eqn:Hf. cbn. intros ->.
  exists a. now rewrite Hf.
Qed.

Lemma bind_raise_inv {A B} (m : M A) (f : A -> M B) (h : history) (e : pyexn) :
  fst (bind m f h) = Raise e ->
  fst (m h) = Raise e \/
  exists a, fst (m h) = Ret a /\ fst (f a (h ++ snd (m h))) = Raise e.
Proof.
  unfold bind. destruct (m h) as [[a|e'] ev]; cbn;
    [|intros H; left; congruence].
  destruct (f a (h ++ ev)) as [r ev'] eqn:Hf. cbn. intros ->.
  right. exists a. now rewrite Hf.
Qed.

Lemma bind_events_l {A B} (m : M A) (f : A -> M B) (h : history) (e : event) :
  In e (snd (m h)) -> In e (snd (bind m f h)).
Proof.
  unfold bind. destruct (m h) as [[a|x] ev]; cbn; [|trivial].
  destruct (f a (h ++ ev)) as [r ev']. cbn. intros H.
  apply in_or_app. now left.
Qed.

Lemma bind_events_inv {A B} (m : M A) (f : A -> M B) (h : history) (e : event) :
  In e (snd (bind m f h)) ->
  In e (snd (m h)) \/
  exists a, fst (m h) = Ret a /\ In e (snd (f a (h ++ snd (m h)))).
Proof.
  unfold bind. destruct (m h) as [[a|x] ev]; cbn; [|now left].
  destruct (f a (h ++ ev)) as [r ev'] eqn:Hf. cbn. intros H.
  apply in_app_or in H. destruct H as [H|H]; [now left|].
  right. exists a. rewrite Hf. now split.
Qed.

(** *** Substrings, ignoring case *)

Section Strings.

Local Open Scope string_scope.

Lemma append_assoc (a b c : string) : (a ++ b) ++ c = a ++ (b ++ c).
Proof. induction a as [|x a IH]; cbn; [reflexivity | now rewrite IH]. Qed.

Lemma append_nil_r (a : string) : a ++ "" = a.
Proof. induction a as [|x a IH]; cbn; [reflexivity | now rewrite IH]. Qed.

Lemma length_append (a b : string) :
  String.length (a ++ b) = String.length a + String.length b.
Proof. induction a as [|x a IH]; cbn; [reflexivity | now rewrite IH]. Qed.

Lemma prefix_iff (a s : string) :
  prefix a s = true <-> exists t, s = a ++ t.
Proof.
  revert s. induction a as [|x a IH]; intros s.
  - split; [intros _; now exists s | intros _; now destruct s].
  - destruct s as [|y s]; cbn.
    + split; [discriminate | intros [t Ht]; discriminate].
    + destruct (ascii_dec x y) as [Hxy|Hxy].
      * rewrite IH. split; intros [t Ht]; exists t; congruence.
      * split; [discriminate | intros [t Ht]; congruence].
Qed.

Lemma contains_iff (needle hay : string) :
  PyStr.contains needle hay = true
  <-> exists pre post, hay = pre ++ needle ++ post.
Proof.
  induction hay as [|c hay IH]; cbn [PyStr.contains].
  - rewrite orb_false_r, prefix_iff. split.
    + intros [t Ht]. now exists "", t.
    + intros (pre & post & H). destruct pre; [now exists post|discriminate].
  - rewrite orb_true_iff, prefix_iff, IH. split.
    + intros [[t Ht] | (pre & post & H)].
      * now exists "", t.
      * exists (String c pre), post. cbn. now rewrite H.
    + intros (pre & post & H). destruct pre as [|x pre].
      * left. now exists post.
      * right. exists pre, post. cbn in H. congruence.
Qed.

Lemma lower_append (a b : string) :
  PyStr.lower (a ++ b) = PyStr.lower a ++ PyStr.lower b.
Proof. induction a as [|x a IH]; cbn; [reflexivity | now rewrite IH]. Qed.

Lemma lower_split (s a b : string) :
  PyStr.lower s = a ++ b ->
  exists s1 s2, s = s1 ++ s2 /\ PyStr.lower s1 = a /\ PyStr.lower s2 = b.
Proof.
  revert s. induction a as [|x a IH]; intros s H.
  - now exists "", s.
  - destruct s as [|c s]; [discriminate|].
    cbn in H. injection H as Hc Hs.
    destruct (IH s Hs) as (s1 & s2 & -> & H1 & H2).
    exists (String c s1), s2. cbn. now rewrite Hc, H1.
Qed.

(** The test [word in text.lower()] of the connector, for a word that
    is its own lower-case form. *)
Lemma contains_lower_iff (word text : string) :
  PyStr.lower word = word ->
  PyStr.contains word (PyStr.lower text) = true
  <-> occurs_ignoring_case word text.
Proof.
  intros Hword. rewrite contains_iff. unfold occurs_ignoring_case. split.
  - intros (pre & post & H).
    destruct (lower_split _ _ _ H) as (s1 & s2 & -> & _ & H2).
    destruct (lower_split _ _ _ H2) as (s3 & s4 & -> & H3 & _).
    exists s1, s3, s4. now rewrite Hword.
  - intros (pre & mid & post & -> & Hmid).
    exists (PyStr.lower pre), (PyStr.lower post).
    now rewrite !lower_append, Hmid, Hword.
Qed.

End Strings.

(** *** The parser's budget *)

Section ParserBudget.

Local Open Scope string_scope.

Lemma skip_ws_length (s : string) :
  String.length (Json.skip_ws s) <= String.length s.
Proof.
  induction s as [|c s IH]; cbn [Json.skip_ws]; [lia|].
  destruct (Json.is_ws c); cbn [String.length]; lia.
Qed.

Lemma cons_str_inv c x v r :
  Json.cons_str c x = Some (v, r) -> exists v', x = Some (v', r).
Proof.
  destruct x as [[v' r']|]; cbn; [|discriminate].
  intros H. injection H as _ <-. eauto.
Qed.

Lemma scan_string_shorter (lossy : bool) :
  forall n s v r,
    String.length s <= n -> Json.scan_string lossy s = Some (v, r) ->
    String.length r < String.length s.
Proof.
  induction n as [|n IH]; intros s v r Hn H.
  - destruct s; [discriminate | cbn in Hn; lia].
  - destruct s as [|c s]; [discriminate|].
    cbn [Json.scan_string] in H. cbv zeta in H. cbn [String.length] in *.
    destruct (PyStr.code c =? 34)%nat; [injection H as _ <-; lia|].
    destruct (PyStr.code c <? 32)%nat; [discriminate|].
    destruct (PyStr.code c =? 92)%nat.
    + destruct s as [|e s]; [discriminate|].
      cbn [String.length] in *.
      destruct (PyStr.code e =? 117)%nat.
      * destruct s as [|h1 [|h2 [|h3 [|h4 t]]]]; try discriminate.
        cbn [String.length] in *.
        destruct (Json.hex4 h1 h2 h3 h4) as [cp|]; [|discriminate].
        destruct (cp <? 256)%nat.
        { apply cons_str_inv in H. destruct H as [v' H].
          apply IH in H; lia. }
        destruct lossy; [|discriminate].
        apply cons_str_inv in H. destruct H as [v' H].
        destruct (Json.high_surrogate cp); [|apply IH in H; lia].
        destruct t as [|b [|u [|l1 [|l2 [|l3 [|l4 t']]]]]];
          try (apply IH in H; cbn [String.length] in *; lia).
        destruct (Json.low_escape b u l1 l2 l3 l4);
          apply IH in H; cbn [String.length] in *; lia.
      * destruct (Json.simple_escape e) as [x|]; [|discriminate].
        apply cons_str_inv in H. destruct H as [v' H].
        apply IH in H; lia.
    + apply cons_str_inv in H. destruct H as [v' H].
      apply IH in H; lia.
Qed.

Lemma scan_digits_length :
  forall s acc k,
    String.length (snd (Json.scan_digits acc k s)) <= String.length s.
Proof.
  induction s as [|c s IH]; intros acc k; cbn [Json.scan_digits]; [cbn; lia|].
  destruct (PyStr.isdigit c); cbn [snd String.length]; [|lia].
  specialize (IH (acc * 10 + Z.of_nat (PyStr.code c - 48))%Z (S k)). lia.
Qed.

Lemma scan_int_shorter s v r :
  Json.scan_int s = Some (v, r) -> String.length r < String.length s.
Proof.
  destruct s as [|c s]; [discriminate|]. unfold Json.scan_int.
  destruct (PyStr.code c =? 48)%nat; [intros H; injection H as _ <-; cbn; lia|].
  destruct (PyStr.isdigit c) eqn:Hd; [|discriminate].
  cbn [Json.scan_digits]. rewrite Hd.
  pose proof (scan_digits_length s (0 * 10 + Z.of_nat (PyStr.code c - 48))%Z 1) as Hlen.
  destruct (Json.scan_digits _ 1 s) as [[v' k'] r'].
  intros H. injection H as _ <-. cbn in *. lia.
Qed.

Lemma scan_frac_shorter i s m k r :
  Json.scan_frac i s = Some (m, k, r) -> String.length r < String.length s.
Proof.
  destruct s as [|c s]; [discriminate|]. unfold Json.scan_frac.
  destruct (PyStr.code c =? 46)%nat; [|discriminate].
  pose proof (scan_digits_length s i 0) as Hlen.
  destruct (Json.scan_digits i 0 s) as [[v' k'] r'].
  destruct k'; [discriminate|].
  intros H. injection H as _ _ <-. cbn in *. lia.
Qed.

Lemma scan_exp_shorter s e r :
  Json.scan_exp s = Some (e, r) -> String.length r < String.length s.
Proof.
  destruct s as [|c s]; [discriminate|]. unfold Json.scan_exp.
  destruct ((PyStr.code c =? 101)%nat || (PyStr.code c =? 69)%nat);
    [|discriminate].
  assert (Hsign : forall sign s1,
             String.length s1 <= String.length s ->
             (let '(v, k, r0) := Json.scan_digits 0 0 s1 in
              match k with
              | O => None
              | S _ => Some ((sign * v)%Z, r0)
              end) = Some (e, r) ->
             String.length r < String.length (String c s)).
  { intros sign s1 Hs1.
    pose proof (scan_digits_length s1 0 0) as Hlen.
    destruct (Json.scan_digits 0 0 s1) as [[v' k'] r'].
    destruct k'; [discriminate|].
    intros H. injection H as _ <-. cbn in *. lia. }
  destruct s as [|g s']; [apply (Hsign 1%Z); cbn; lia|].
  destruct (PyStr.code g =? 45)%nat; [apply Hsign; cbn; lia|].
  destruct (PyStr.code g =? 43)%nat; apply Hsign; cbn; lia.
Qed.



Lemma scan_number_shorter s v r :
  Json.scan_number s = Some (v, r) -> String.length r < String.length s.
Proof.
  unfold Json.scan_number.
  assert (Hbody : forall negative s0,
             String.length s0 <= String.length s ->
             match Json.scan_int s0 with
             | Some (i, r0) =>
                 let '(m, fd, r1, has_frac) :=
                   match Json.scan_frac i r0 with
                   | Some (m, k, r) => (m, k, r, true)
                   | None => (i, 0, r0, false)
                   end in
                 match Json.scan_exp r1 with
                 | Some (e, r2) =>
                     Some (JFloat (Decimal negative m (e - Z.of_nat fd)), r2)
                 | None =>
                     if has_frac
                     then Some (JFloat (Decimal negative m (- Z.of_nat fd)), r1)
                     else Some (JInt (if negative then (- i)%Z else i), r1)
                 end
             | None => None
             end = Some (v, r) ->
             String.length r < String.length s).
  { intros negative s0 Hs0.
    destruct (Json.scan_int s0) as [[i r0]|] eqn:Hint; [|discriminate].
    apply scan_int_shorter in Hint.
    destruct (Json.scan_frac i r0) as [[[m k] r1]|] eqn:Hfrac.
    - apply scan_frac_shorter in Hfrac.
      destruct (Json.scan_exp r1) as [[e r2]|] eqn:Hexp.
      + apply scan_exp_shorter in Hexp. intros H. injection H as _ <-. lia.
      + intros H. injection H as _ <-. lia.
    - destruct (Json.scan_exp r0) as [[e r2]|] eqn:Hexp.
      + apply scan_exp_shorter in Hexp. intros H. injection H as _ <-. lia.
      + intros H. injection H as _ <-. lia. }
  destruct s as [|c s']; [apply Hbody; lia|].
  destruct (PyStr.code c =? 45)%nat; apply Hbody; cbn; lia.
Qed.

Lemma drop_prefix_length (w s : string) :
  prefix w s = true ->
  String.length (Json.drop (String.length w) s) + String.length w
  = String.length s.
Proof.
  intros H. apply prefix_iff in H. destruct H as [t ->].
  rewrite length_append.
  assert (Json.drop (String.length w) (w ++ t) = t) as ->
      by (induction w as [|c w IH]; cbn; [now destruct t | exact IH]).
  lia.
Qed.

Lemma keyword_shorter w v s v' r :
  1 <= String.length w ->
  Json.keyword w v s = Some (v', r) -> String.length r < String.length s.
Proof.
  unfold Json.keyword. intros Hw.
  destruct (prefix w s) eqn:Hp; [|discriminate].
  apply drop_prefix_length in Hp.
  intros H. injection H as _ <-. lia.
Qed.

Lemma scan_scalar_shorter s v r :
  Json.scan_scalar s = Some (v, r) -> String.length r < String.length s.
Proof.
  unfold Json.scan_scalar, Json.first_of.
  repeat match goal with
         | |- match Json.keyword ?w ?x s with _ => _ end = _ -> _ =>
             let E := fresh "E" in
             destruct (Json.keyword w x s) as [[? ?]|] eqn:E;
             [ intros H; injection H as <- <-;
               apply keyword_shorter in E; [exact E | cbn; lia]
             | ]
         end.
  apply scan_number_shorter.
Qed.

Ltac ws_bound :=
  repeat match goal with
         | E : Json.skip_ws ?s = _ |- _ =>
             let H := fresh "Hws" in
             pose proof (skip_ws_length s) as H; rewrite E in H;
             cbn [String.length] in H; revert E
         end;
  intros.

(** What a parser leaves is shorter than what it was given. *)
Lemma parse_shorter (lossy : bool) :
  forall fuel,
    (forall s v r, Json.parse_value lossy fuel s = Json.Ok v r ->
                   String.length r < String.length s)
    /\ (forall acc s v r, Json.parse_members lossy fuel acc s = Json.Ok v r ->
                          String.length r < String.length s)
    /\ (forall acc s v r, Json.parse_elements lossy fuel acc s = Json.Ok v r ->
                          String.length r < String.length s).
Proof.
  induction fuel as [|fuel (IHv & IHm & IHe)];
    [repeat split; intros; discriminate|].
  split; [|split].
  - intros s v r H. cbn [Json.parse_value] in H.
    destruct s as [|c s']; [discriminate|]. cbn [String.length].
    destruct (Ascii.eqb c Json.quote).
    { destruct (Json.scan_string lossy s') as [[v0 r0]|] eqn:E; [|discriminate].
      injection H as _ <-.
      apply (scan_string_shorter _ _ _ _ _ (le_n _)) in E. lia. }
    destruct (Ascii.eqb c "{").
    { destruct (Json.skip_ws s') as [|c1 r1] eqn:E; [discriminate|].
      ws_bound.
      destruct (Ascii.eqb c1 "}"); [injection H as _ <-; lia|].
      apply IHm in H. cbn [String.length] in H. lia. }
    destruct (Ascii.eqb c "[").
    { destruct (Json.skip_ws s') as [|c1 r1] eqn:E; [discriminate|].
      ws_bound.
      destruct (Ascii.eqb c1 "]"); [injection H as _ <-; lia|].
      apply IHe in H. cbn [String.length] in H. lia. }
    destruct (Json.scan_scalar (String c s')) as [[v0 r0]|] eqn:E;
      [|discriminate].
    injection H as _ <-. apply scan_scalar_shorter in E.
    cbn [String.length] in E. lia.
  - intros acc s v r H. cbn [Json.parse_members] in H.
    destruct s as [|c s']; [discriminate|]. cbn [String.length].
    destruct (Ascii.eqb c Json.quote); [|discriminate].
    destruct (Json.scan_string lossy s') as [[key r0]|] eqn:Ekey; [|discriminate].
    apply (scan_string_shorter _ _ _ _ _ (le_n _)) in Ekey.
    destruct (Json.skip_ws r0) as [|c1 r1] eqn:E1; [discriminate|].
    destruct (Ascii.eqb c1 ":"); [|discriminate].
    destruct (Json.parse_value lossy fuel (Json.skip_ws r1)) as [v0 r2| |] eqn:Ev;
      try discriminate.
    apply IHv in Ev. pose proof (skip_ws_length r1) as Hr1.
    destruct (Json.skip_ws r2) as [|c2 r3] eqn:E2; [discriminate|].
    ws_bound.
    destruct (Ascii.eqb c2 "}"); [injection H as _ <-; lia|].
    destruct (Ascii.eqb c2 ","); [|discriminate].
    apply IHm in H. pose proof (skip_ws_length r3). lia.
  - intros acc s v r H. cbn [Json.parse_elements] in H.
    destruct (Json.parse_value lossy fuel s) as [v0 r0| |] eqn:Ev; try discriminate.
    apply IHv in Ev.
    destruct (Json.skip_ws r0) as [|c r1] eqn:E; [discriminate|].
    ws_bound.
    destruct (Ascii.eqb c "]"); [injection H as _ <-; lia|].
    destruct (Ascii.eqb c ","); [|discriminate].
    apply IHe in H. pose proof (skip_ws_length r1). lia.
Qed.

(** The budget is enough: two units for every character. *)
Lemma parse_budget (lossy : bool) :
  forall fuel,
    (forall s, 2 * String.length s + 1 <= fuel ->
               Json.parse_value lossy fuel s <> Json.Deep)
    /\ (forall acc s, 2 * String.length s + 1 <= fuel ->
                      Json.parse_members lossy fuel acc s <> Json.Deep)
    /\ (forall acc s, 2 * String.length s + 2 <= fuel ->
                      Json.parse_elements lossy fuel acc s <> Json.Deep).
Proof.
  induction fuel as [|fuel (IHv & IHm & IHe)];
    [repeat split; intros; lia|].
  destruct (parse_shorter lossy fuel) as (Sv & Sm & Se).
  split; [|split].
  - intros s Hfuel. cbn [Json.parse_value].
    destruct s as [|c s']; [discriminate|]. cbn [String.length] in Hfuel.
    destruct (Ascii.eqb c Json.quote).
    { destruct (Json.scan_string lossy s') as [[v0 r0]|]; discriminate. }
    destruct (Ascii.eqb c "{").
    { destruct (Json.skip_ws s') as [|c1 r1] eqn:E; [discriminate|].
      ws_bound.
      destruct (Ascii.eqb c1 "}"); [discriminate|].
      apply IHm. cbn [String.length]. lia. }
    destruct (Ascii.eqb c "[").
    { destruct (Json.skip_ws s') as [|c1 r1] eqn:E; [discriminate|].
      ws_bound.
      destruct (Ascii.eqb c1 "]"); [discriminate|].
      apply IHe. cbn [String.length]. lia. }
    destruct (Json.scan_scalar (String c s')) as [[v0 r0]|]; discriminate.
  - intros acc s Hfuel. cbn [Json.parse_members].
    destruct s as [|c s']; [discriminate|]. cbn [String.length] in Hfuel.
    destruct (Ascii.eqb c Json.quote); [|discriminate].
    destruct (Json.scan_string lossy s') as [[key r0]|] eqn:Ekey; [|discriminate].
    apply (scan_string_shorter _ _ _ _ _ (le_n _)) in Ekey.
    destruct (Json.skip_ws r0) as [|c1 r1] eqn:E1; [discriminate|].
    destruct (Ascii.eqb c1 ":"); [|discriminate].
    pose proof (skip_ws_length r1) as Hr1.
    ws_bound.
    destruct (Json.parse_value lossy fuel (Json.skip_ws r1)) as [v0 r2| |] eqn:Ev.
    + apply Sv in Ev.
      destruct (Json.skip_ws r2) as [|c2 r3] eqn:E2; [discriminate|].
      ws_bound.
      destruct (Ascii.eqb c2 "}"); [discriminate|].
      destruct (Ascii.eqb c2 ","); [|discriminate].
      apply IHm. pose proof (skip_ws_length r3). lia.
    + discriminate.
    + exfalso. apply (IHv (Json.skip_ws r1)); [lia | exact Ev].
  - intros acc s Hfuel. cbn [Json.parse_elements].
    destruct (Json.parse_value lossy fuel s) as [v0 r0| |] eqn:Ev.
    + apply Sv in Ev.
      destruct (Json.skip_ws r0) as [|c r1] eqn:E; [discriminate|].
      ws_bound.
      destruct (Ascii.eqb c "]"); [discriminate|].
      destruct (Ascii.eqb c ","); [|discriminate].
      apply IHe. pose proof (skip_ws_length r1). lia.
    + discriminate.
    + exfalso. apply (IHv s); [lia | exact Ev].
Qed.

(** The parser never runs out of budget: where [Json.loads_latin1] is
    [None], the text is not JSON. *)
Lemma parse_within_budget (lossy : bool) (s : string) :
  Json.parse lossy s <> Json.Deep.
Proof.
  unfold Json.parse.
  apply (proj1 (parse_budget lossy (1 + 2 * String.length (Json.skip_ws s)))).
  lia.
Qed.

(** What the exact scan yields, the lossy one yields too: the two part
    only at a character beyond U+00FF. *)
Lemma scan_string_exact :
  forall n s v r,
    String.length s <= n ->
    Json.scan_string false s = Some (v, r) ->
    Json.scan_string true s = Some (v, r).
Proof.
  induction n as [|n IH]; intros s v r Hn H.
  - destruct s; [discriminate | cbn in Hn; lia].
  - destruct s as [|c s]; [discriminate|].
    cbn [Json.scan_string] in *. cbv zeta in *. cbn [String.length] in Hn.
    destruct (PyStr.code c =? 34)%nat; [exact H|].
    destruct (PyStr.code c <? 32)%nat; [discriminate|].
    assert (Hcons : forall x t,
               String.length t <= n ->
               Json.cons_str x (Json.scan_string false t) = Some (v, r) ->
               Json.cons_str x (Json.scan_string true t) = Some (v, r)).
    { intros x t Ht Hx.
      destruct (Json.scan_string false t) as [[v' r']|] eqn:E; [|discriminate].
      now rewrite (IH _ _ _ Ht E). }
    destruct (PyStr.code c =? 92)%nat; [|apply Hcons; [lia | exact H]].
    destruct s as [|e s]; [discriminate|]. cbn [String.length] in Hn.
    destruct (PyStr.code e =? 117)%nat.
    + destruct s as [|h1 [|h2 [|h3 [|h4 t]]]]; try discriminate.
      cbn [String.length] in Hn.
      destruct (Json.hex4 h1 h2 h3 h4) as [cp|]; [|discriminate].
      destruct (cp <? 256)%nat; [|discriminate].
      apply Hcons; [lia | exact H].
    + destruct (Json.simple_escape e) as [x|]; [|discriminate].
      apply Hcons; [lia | exact H].
Qed.

Lemma parse_exact :
  forall fuel,
    (forall s v r, Json.parse_value false fuel s = Json.Ok v r ->
                   Json.parse_value true fuel s = Json.Ok v r)
    /\ (forall acc s v r, Json.parse_members false fuel acc s = Json.Ok v r ->
                          Json.parse_members true fuel acc s = Json.Ok v r)
    /\ (forall acc s v r, Json.parse_elements false fuel acc s = Json.Ok v r ->
                          Json.parse_elements true fuel acc s = Json.Ok v r).
Proof.
  induction fuel as [|fuel (IHv & IHm & IHe)];
    [repeat split; intros; discriminate|].
  split; [|split].
  - intros s v r H. cbn [Json.parse_value] in *.
    destruct s as [|c s']; [discriminate|].
    destruct (Ascii.eqb c Json.quote).
    { destruct (Json.scan_string false s') as [[v0 r0]|] eqn:E; [|discriminate].
      now rewrite (scan_string_exact _ _ _ _ (le_n _) E). }
    destruct (Ascii.eqb c "{").
    { destruct (Json.skip_ws s') as [|c1 r1]; [discriminate|].
      destruct (Ascii.eqb c1 "}"); [exact H | now apply IHm]. }
    destruct (Ascii.eqb c "[").
    { destruct (Json.skip_ws s') as [|c1 r1]; [discriminate|].
      destruct (Ascii.eqb c1 "]"); [exact H | now apply IHe]. }
    exact H.
  - intros acc s v r H. cbn [Json.parse_members] in *.
    destruct s as [|c s']; [discriminate|].
    destruct (Ascii.eqb c Json.quote); [|discriminate].
    destruct (Json.scan_string false s') as [[key r0]|] eqn:Ekey; [|discriminate].
    rewrite (scan_string_exact _ _ _ _ (le_n _) Ekey).
    destruct (Json.skip_ws r0) as [|c1 r1]; [discriminate|].
    destruct (Ascii.eqb c1 ":"); [|discriminate].
    destruct (Json.parse_value false fuel (Json.skip_ws r1)) as [v0 r2| |] eqn:Ev;
      try discriminate.
    rewrite (IHv _ _ _ Ev).
    destruct (Json.skip_ws r2) as [|c2 r3]; [discriminate|].
    destruct (Ascii.eqb c2 "}"); [exact H|].
    destruct (Ascii.eqb c2 ","); [now apply IHm | discriminate].
  - intros acc s v r H. cbn [Json.parse_elements] in *.
    destruct (Json.parse_value false fuel s) as [v0 r0| |] eqn:Ev;
      try discriminate.
    rewrite (IHv _ _ _ Ev).
    destruct (Json.skip_ws r0) as [|c r1]; [discriminate|].
    destruct (Ascii.eqb c "]"); [exact H|].
    destruct (Ascii.eqb c ","); [now apply IHe | discriminate].
Qed.

(** A text that [Json.loads] reads is read by the embedded code as the
    same value. *)
Lemma loads_exact (s : string) (v : json) :
  Json.loads s = Some v -> Json.loads_latin1 s = Some v.
Proof.
  unfold Json.loads, Json.loads_latin1, Json.read, Json.parse.
  destruct (Json.parse_value false _ _) as [v0 r| |] eqn:E; try discriminate.
  now rewrite (proj1 (parse_exact _) _ _ _ E).
Qed.

(** Where the embedded code meets a parse failure, so does the exact
    reading. *)
Lemma loads_latin1_none (s : string) :
  Json.loads_latin1 s = None -> Json.loads s = None.
Proof.
  intros H. destruct (Json.loads s) as [v|] eqn:E; [|reflexivity].
  apply loads_exact in E. congruence.
Qed.

End ParserBudget.

(** *** The matcher *)

Section Matching.

Local Open Scope string_scope.

Lemma rep_sound {R} cls greedy (k : string -> option R) :
  forall s lo m r,
    Re.rep cls greedy lo k s = Some (m, r) ->
    exists t, s = m ++ t /\ every cls m = true /\ lo <= String.length m
              /\ k t = Some r.
Proof.
  assert (Hstop : forall s lo m r,
             match lo with
             | O => option_map (pair "") (k s)
             | S _ => None
             end = Some (m, r) ->
             exists t, s = m ++ t /\ every cls m = true
                       /\ lo <= String.length m /\ k t = Some r).
  { intros s [|lo] m r H; [|discriminate].
    destruct (k s) as [x|] eqn:Hk; [|discriminate].
    injection H as <- <-. exists s. repeat split; trivial. }
  induction s as [|c s IH]; intros lo m r H; cbn in H.
  - destruct greedy; [now apply Hstop|].
    apply Hstop.
    now destruct (match lo with O => _ | S _ => None end).
  - assert (Hmore : (if cls c
                     then option_map (Re.extend c) (Re.rep cls greedy (pred lo) k s)
                     else None) = Some (m, r) ->
                    exists t, String c s = m ++ t /\ every cls m = true
                              /\ lo <= String.length m /\ k t = Some r).
    { destruct (cls c) eqn:Hc; [|discriminate].
      destruct (Re.rep cls greedy (pred lo) k s) as [[m' r']|] eqn:Hrec;
        [|discriminate].
      cbn. intros E. injection E as <- <-.
      destruct (IH _ _ _ Hrec) as (t & -> & Hm & Hlo & Hk).
      exists t. cbn. rewrite Hc, Hm. repeat split; trivial. lia. }
    destruct greedy.
    + destruct (if cls c then _ else None) as [x|]; [|now apply Hstop].
      injection H as ->. now apply Hmore.
    + destruct (match lo with O => _ | S _ => None end) as [x|] eqn:Hs.
      * injection H as ->. now apply Hstop.
      * now apply Hmore.
Qed.

Lemma rep_complete {R} cls greedy (k : string -> option R) :
  forall m lo t,
    every cls m = true -> lo <= String.length m -> k t <> None ->
    Re.rep cls greedy lo k (m ++ t) <> None.
Proof.
  assert (Hstop : forall s, k s <> None ->
             Re.rep cls greedy 0 k s <> None).
  { intros s Hk. destruct (k s) as [x|] eqn:E; [|contradiction].
    destruct s as [|c s]; cbn; rewrite E; cbn.
    - destruct greedy; discriminate.
    - destruct greedy; [|discriminate].
      destruct (if cls c then _ else None); discriminate. }
  induction m as [|c m IH]; intros lo t Hm Hlo Hk.
  - cbn in Hlo. assert (lo = 0) as -> by lia. now apply Hstop.
  - cbn in Hm. apply andb_true_iff in Hm. destruct Hm as [Hc Hm].
    cbn in Hlo.
    specialize (IH (pred lo) t Hm ltac:(lia) Hk).
    cbn. rewrite Hc.
    destruct (Re.rep cls greedy (pred lo) k (m ++ t)) as [x|];
      [|contradiction].
    cbn. destruct greedy; [discriminate|].
    destruct lo; [|discriminate].
    destruct (option_map _ (k (String c (m ++ t)))); discriminate.
Qed.

(** A greedy repeat that nothing makes give back takes the whole run. *)
Lemma rep_greedy_maximal {R} cls (k : string -> option R) :
  (forall t, k t <> None) ->
  forall s lo m r t,
    Re.rep cls true lo k s = Some (m, r) -> s = m ++ t ->
    starts_in cls t = false.
Proof.
  intros Hk.
  induction s as [|c s IH]; intros lo m r t H Hs.
  - destruct m; [|discriminate]. cbn in Hs. now subst t.
  - cbn in H. destruct (cls c) eqn:Hc.
    + destruct (Re.rep cls true (pred lo) k s) as [[m' r']|] eqn:Hrec.
      * cbn in H. injection H as <- <-. cbn in Hs. injection Hs as Hs.
        now apply (IH _ _ _ _ Hrec).
      * exfalso. destruct lo as [|lo].
        -- apply (rep_complete cls true k "" 0 s eq_refl (le_n 0) (Hk s)).
           exact Hrec.
        -- discriminate.
    + destruct lo; [|discriminate].
      destruct (k (String c s)); [|discriminate].
      cbn in H. injection H as <- <-. cbn in Hs. subst t. exact Hc.
Qed.

Lemma nonempty_length (s : string) : s <> "" <-> 1 <= String.length s.
Proof.
  destruct s; cbn; split; intros H; try congruence; try lia.
Qed.

Lemma match_here_city_sound (s : string) (f : Re.found) :
  Re.match_here Re.city_re s = Some f ->
  exists ws g,
    in_words s "" ws g (Re.rest f) /\ Re.groups f = [g]
    /\ starts_in Re.letter_or_space (Re.rest f) = false.
Proof.
  unfold Re.city_re. cbn [Re.match_here Re.atom_of Re.captures].
  destruct s as [|c1 s]; [discriminate|].
  destruct (Ascii.eqb c1 "i") eqn:E1; [|discriminate].
  destruct s as [|c2 s]; [discriminate|].
  destruct (Ascii.eqb c2 "n") eqn:E2; [|discriminate].
  apply Ascii.eqb_eq in E1, E2. subst c1 c2.
  destruct (Re.rep PyStr.isspace true 1 _ s) as [[ws f1]|] eqn:Hws;
    [|discriminate].
  destruct (rep_sound _ _ _ _ _ _ _ Hws) as (t & -> & Hspace & Hlen & Hk).
  destruct (Re.rep Re.letter_or_space true 1 _ t) as [[g f2]|] eqn:Hg;
    [|discriminate].
  injection Hk as <-.
  destruct (rep_sound _ _ _ _ _ _ _ Hg) as (t' & -> & Hwords & Hlen' & Hk').
  injection Hk' as <-. cbn.
  intros E. injection E as <-. cbn.
  exists ws, g. repeat split; trivial.
  - now apply nonempty_length.
  - now apply nonempty_length.
  - refine (rep_greedy_maximal _ _ _ _ _ _ _ _ Hg eq_refl).
    intros t. discriminate.
Qed.

Lemma match_here_city_complete (s ws g rest : string) :
  in_words s "" ws g rest -> Re.match_here Re.city_re s <> None.
Proof.
  intros (-> & Hspace & Hws & Hwords & Hg).
  unfold Re.city_re. cbn [Re.match_here Re.atom_of Re.captures append].
  cbn [Ascii.eqb Bool.eqb].
  pose proof (rep_complete PyStr.isspace true
                (fun s0 =>
                   match Re.rep Re.letter_or_space true 1
                           (fun s1 => Some (Re.Found "" [] s1)) s0 with
                   | Some (m, f) =>
                       Some (Re.Found (m ++ Re.matched f)
                               (m :: Re.groups f) (Re.rest f))
                   | None => None
                   end)
                ws 1 (g ++ rest) Hspace
                (proj1 (nonempty_length ws) Hws)) as Houter.
  destruct (Re.rep PyStr.isspace true 1 _ (ws ++ g ++ rest)) as [[m f]|];
    [discriminate|].
  exfalso. apply Houter; [|reflexivity].
  pose proof (rep_complete Re.letter_or_space true
                (fun s1 => Some (Re.Found "" [] s1))
                g 1 rest Hwords (proj1 (nonempty_length g) Hg)
                ltac:(discriminate)) as Hinner.
  destruct (Re.rep Re.letter_or_space true 1 _ (g ++ rest)) as [[m f]|];
    [discriminate | contradiction].
Qed.

(** [search] returns the match at the leftmost position that has one. *)
Lemma search_sound (re : Re.regex) :
  forall s f,
    Re.search re s = Some f ->
    exists pre s',
      s = pre ++ s' /\ Re.match_here re s' = Some f /\
      forall pre' s'',
        s = pre' ++ s'' -> String.length pre' < String.length pre ->
        Re.match_here re s'' = None.
Proof.
  induction s as [|c s IH]; intros f H; cbn in H.
  - destruct (Re.match_here re "") as [x|] eqn:E; [|discriminate].
    injection H as ->. exists "", "". repeat split; trivial.
    intros pre' s'' _ Hlt. cbn in Hlt. lia.
  - destruct (Re.match_here re (String c s)) as [x|] eqn:E.
    + injection H as ->. exists "", (String c s). repeat split; trivial.
      intros pre' s'' _ Hlt. cbn in Hlt. lia.
    + destruct (IH _ H) as (pre & s' & -> & Hm & Hleft).
      exists (String c pre), s'. repeat split; trivial.
      intros pre' s'' Hs Hlt. destruct pre' as [|c' pre'].
      * cbn in Hs. now subst s''.
      * cbn in Hs. injection Hs as _ Hs. apply (Hleft pre' s'' Hs).
        cbn in Hlt. lia.
Qed.

Lemma search_none (re : Re.regex) :
  forall s, Re.search re s = None ->
            forall pre s', s = pre ++ s' -> Re.match_here re s' = None.
Proof.
  induction s as [|c s IH]; intros H pre s' Hs; cbn in H.
  - destruct pre; [|discriminate]. cbn in Hs. subst s'.
    now destruct (Re.match_here re "").
  - destruct (Re.match_here re (String c s)) eqn:E; [discriminate|].
    destruct pre as [|c' pre].
    + cbn in Hs. now subst s'.
    + cbn in Hs. injection Hs as _ Hs. now apply (IH H pre).
Qed.

Lemma findall_head (re : Re.regex) (s : string) :
  Re.search re "" = None ->
  hd_error (Re.findall re s)
  = option_map (fun f => hd "" (Re.groups f)) (Re.search re s).
Proof.
  intros Hempty. unfold Re.findall. destruct s as [|c s].
  - cbn [String.length Re.findall_from]. now rewrite Hempty.
  - cbn [String.length Re.findall_from].
    now destruct (Re.search re (String c s)).
Qed.

End Matching.

Section City.

Local Open Scope string_scope.

(** A greedy repeat takes the longest run after which the rest of the
    pattern still matches. *)
Lemma rep_greedy_longest {R} cls (k : string -> option R) :
  forall s lo m r,
    Re.rep cls true lo k s = Some (m, r) ->
    forall m' t',
      s = m' ++ t' -> every cls m' = true -> lo <= String.length m' ->
      k t' <> None -> String.length m' <= String.length m.
Proof.
  induction s as [|c s IH]; intros lo m r H m' t' Hs Hm' Hlo Hk.
  - destruct m'; [cbn; lia | discriminate].
  - destruct m' as [|c' m']; [cbn; lia|].
    cbn in Hs. injection Hs as <- ->.
    cbn in Hm'. apply andb_true_iff in Hm'. destruct Hm' as [Hc Hm'].
    cbn in Hlo. cbn in H. rewrite Hc in H.
    pose proof (rep_complete cls true k m' (pred lo) t' Hm' ltac:(lia) Hk)
      as Hrec.
    destruct (Re.rep cls true (pred lo) k (m' ++ t')) as [[m0 r0]|] eqn:E;
      [|contradiction].
    cbn in H. injection H as <- <-. cbn.
    apply le_n_S. apply (IH _ _ _ E m' t' eq_refl Hm'); [lia | assumption].
Qed.

Lemma append_inv_head (a b c : string) : a ++ b = a ++ c -> b = c.
Proof. induction a as [|x a IH]; cbn; [trivial | intros H; apply IH; congruence]. Qed.

Lemma match_here_city_longest (s ws g : string) (f : Re.found) :
  Re.match_here Re.city_re s = Some f ->
  in_words s "" ws g (Re.rest f) -> Re.groups f = [g] ->
  forall ws' g' rest',
    in_words s "" ws' g' rest' -> String.length ws' <= String.length ws.
Proof.
  intros Hm (Hs & _) Hgroups ws' g' rest' (Hs' & Hspace' & Hws' & Hwords' & Hg').
  revert Hm. unfold Re.city_re.
  cbn [Re.match_here Re.atom_of Re.captures].
  rewrite Hs'. cbn [append Ascii.eqb Bool.eqb].
  destruct (Re.rep PyStr.isspace true 1 _ (ws' ++ g' ++ rest'))
    as [[m f1]|] eqn:Hrep; [|discriminate].
  intros E. injection E as <-.
  pose proof (rep_greedy_longest _ _ _ _ _ _ Hrep ws' (g' ++ rest') eq_refl
                Hspace' (proj1 (nonempty_length ws') Hws')) as Hlong.
  destruct (rep_sound _ _ _ _ _ _ _ Hrep) as (t & Ht & _ & _ & Hk).
  destruct (Re.rep Re.letter_or_space true 1 _ t) as [[g0 f2]|] eqn:Hinner;
    [|discriminate].
  injection Hk as <-. cbn in Hgroups.
  destruct (rep_sound _ _ _ _ _ _ _ Hinner) as (t' & -> & _ & _ & Hk').
  injection Hk' as <-. cbn in Hgroups. injection Hgroups as ->.
  cbn in Hs. rewrite Hs' in Hs. cbn in Hs. injection Hs as Hs.
  assert (Hlen : String.length m = String.length ws).
  { rewrite Ht in Hs.
    apply (f_equal String.length) in Hs.
    rewrite !length_append in Hs. cbn in Hs. lia. }
  rewrite <- Hlen. apply Hlong.
  pose proof (rep_complete Re.letter_or_space true
                (fun s1 => Some (Re.Found "" [] s1))
                g' 1 rest' Hwords' (proj1 (nonempty_length g') Hg')
                ltac:(discriminate)) as Hin.
  destruct (Re.rep Re.letter_or_space true 1 _ (g' ++ rest'));
    [destruct p; discriminate | contradiction].
Qed.

End City.

Section Fallback.

Local Open Scope string_scope.

(** Line 129: [city_match[0].strip() if city_match else DEFAULT_CITY]. *)
Lemma findall_city_for (user_input : string) :
  city_for user_input
    (match Re.findall Re.city_re user_input with
     | g :: _ => PyStr.strip g
     | [] => DEFAULT_CITY
     end).
Proof.
  pose proof (findall_head Re.city_re user_input eq_refl) as Hhead.
  destruct (Re.search Re.city_re user_input) as [f|] eqn:Hsearch.
  - destruct (search_sound _ _ _ Hsearch) as (pre & s' & -> & Hm & Hleft).
    destruct (match_here_city_sound _ _ Hm) as (ws & g & Hin & Hg & Hmax).
    cbn in Hhead. rewrite Hg in Hhead. cbn in Hhead.
    destruct (Re.findall Re.city_re (pre ++ s')) as [|g0 l]; [discriminate|].
    injection Hhead as ->.
    left. exists pre, ws, g, (Re.rest f).
    destruct Hin as (Hs & Hrest). cbn [append] in Hs.
    split; [|split; [|split; [|split]]]; trivial.
    + split; [now rewrite Hs | assumption].
    + intros pre' ws' g' rest' (Hs' & Hrest').
      destruct (Nat.le_gt_cases (String.length pre) (String.length pre'))
        as [Hle|Hlt]; [assumption|].
      exfalso.
      apply (match_here_city_complete ("in" ++ ws' ++ g' ++ rest') ws' g' rest').
      * now split.
      * now apply (Hleft pre').
    + intros ws' g' rest' (Hs' & Hrest').
      apply (match_here_city_longest s' ws g f Hm (conj Hs Hrest) Hg
               ws' g' rest').
      split; [|assumption]. cbn [append].
      now apply (append_inv_head pre).
  - cbn in Hhead.
    destruct (Re.findall Re.city_re user_input) as [|g0 l]; [|discriminate].
    right. split; [|reflexivity].
    intros pre ws g rest (Hs & Hrest).
    apply (match_here_city_complete ("in" ++ ws ++ g ++ rest) ws g rest).
    + now split.
    + now apply (search_none _ _ Hsearch pre).
Qed.

(** The fallback, when the tool that came out of the detector is not
    truthy. *)
Lemma fallback_cases (user_input : string) (tool args : json) (h : history) :
  Py.truthy tool = false ->
  fst (fallback user_input tool args h)
  = Ret (if PyStr.contains "weather" (PyStr.lower user_input)
         then (JStr "get_weather",
               JObj [("city",
                      JStr (match Re.findall Re.city_re user_input with
                            | g :: _ => PyStr.strip g
                            | [] => DEFAULT_CITY
                            end))])
         else if PyStr.contains "notify" (PyStr.lower user_input)
                 || PyStr.contains "alert" (PyStr.lower user_input)
              then (JStr "send_notification",
                    JObj [("notification_input",
                           JStr (user_input ++ "|general_alerts"))])
              else (tool, args)).
Proof.
  intros Hfalsy. unfold fallback. rewrite Hfalsy. cbn [negb].
  destruct (PyStr.contains "weather" (PyStr.lower user_input));
    [reflexivity|].
  destruct (PyStr.contains "notify" (PyStr.lower user_input)
            || PyStr.contains "alert" (PyStr.lower user_input));
    reflexivity.
Qed.

Lemma resolve_intent_fallback user_input model_text tool args h :
  detect_tool_call (JStr model_text) = Ret (tool, args) ->
  fst (resolve_intent user_input (JStr model_text) h)
  = fst (fallback user_input tool args h).
Proof.
  intros Hdetect. unfold resolve_intent.
  rewrite (bind_ret _ _ h (tool, args) []) by (unfold lift; now rewrite Hdetect).
  unfold after. cbn [fst snd]. now rewrite app_nil_r.
Qed.

End Fallback.

(** C4. When the model text yields no structured call (the detector's
    tool is not truthy) and the user input contains "weather", case
    ignored, resolution returns [get_weather] with the city that the
    pattern "in <words>" gives for the user input at its first
    occurrence, or the default city "Chennai" when it does not occur. *)
Theorem weather_fallback (user_input model_text : string) (tool args : json)
        (h : history) :
  detect_tool_call (JStr model_text) = Ret (tool, args) ->
  Py.truthy tool = false ->
  occurs_ignoring_case "weather" user_input ->
  exists city,
    fst (resolve_intent user_input (JStr model_text) h)
    = Ret (JStr "get_weather", JObj [("city", JStr city)])
    /\ city_for user_input city
    /\ (DEFAULT_CITY = "Chennai")%string.
Proof.
  intros Hdetect Hfalsy Hweather.
  apply (contains_lower_iff "weather" user_input eq_refl) in Hweather.
  eexists. split; [|split; [apply findall_city_for | reflexivity]].
  rewrite (resolve_intent_fallback _ _ _ _ _ Hdetect).
  rewrite (fallback_cases _ _ _ _ Hfalsy), Hweather. reflexivity.
Qed.

(** C8. When the model text yields no structured call and the user input
    contains "notify" or "alert" but not "weather", case ignored,
    resolution returns [send_notification] with the argument
    ["<user_input>|general_alerts"]. *)
Theorem notification_fallback (user_input model_text : string)
        (tool args : json) (h : history) :
  detect_tool_call (JStr model_text) = Ret (tool, args) ->
  Py.truthy tool = false ->
  occurs_ignoring_case "notify" user_input
  \/ occurs_ignoring_case "alert" user_input ->
  ~ occurs_ignoring_case "weather" user_input ->
  fst (resolve_intent user_input (JStr model_text) h)
  = Ret (JStr "send_notification",
         JObj [("notification_input",
                JStr (user_input ++ "|general_alerts")%string)]).
Proof.
  intros Hdetect Hfalsy Hword Hweather.
  rewrite (resolve_intent_fallback _ _ _ _ _ Hdetect).
  rewrite (fallback_cases _ _ _ _ Hfalsy).
  destruct (PyStr.contains "weather" (PyStr.lower user_input)) eqn:E.
  - exfalso. apply Hweather.
    now apply (contains_lower_iff "weather" user_input eq_refl).
  - assert (PyStr.contains "notify" (PyStr.lower user_input)
            || PyStr.contains "alert" (PyStr.lower user_input) = true) as ->.
    { apply orb_true_iff. destruct Hword as [H|H]; [left|right].
      - now apply (contains_lower_iff "notify" user_input eq_refl).
      - now apply (contains_lower_iff "alert" user_input eq_refl). }
    reflexivity.
Qed.

Section CityUnique.

Local Open Scope string_scope.

Lemma append_same_length (a a' b b' : string) :
  a ++ b = a' ++ b' -> String.length a = String.length a' ->
  a = a' /\ b = b'.
Proof.
  revert a'. induction a as [|x a IH]; intros [|x' a'] H Hlen;
    try discriminate.
  - now split.
  - cbn in H. injection H as -> H. cbn in Hlen.
    destruct (IH a' H ltac:(lia)) as [-> ->]. now split.
Qed.

Lemma maximal_run_unique (cls : ascii -> bool) (g g' rest rest' : string) :
  g ++ rest = g' ++ rest' ->
  every cls g = true -> every cls g' = true ->
  starts_in cls rest = false -> starts_in cls rest' = false ->
  g = g'.
Proof.
  revert g'. induction g as [|c g IH]; intros [|c' g'] H Hg Hg' Hr Hr';
    trivial; cbn in H, Hg, Hg'.
  - subst rest. cbn in Hr. apply andb_true_iff in Hg'. destruct Hg'. congruence.
  - subst rest'. cbn in Hr'. apply andb_true_iff in Hg. destruct Hg. congruence.
  - injection H as -> H.
    apply andb_true_iff in Hg, Hg'. destruct Hg, Hg'.
    f_equal. now apply (IH g' H).
Qed.

(** [city_for] names one city. *)
Lemma city_for_unique (user_input c1 c2 : string) :
  city_for user_input c1 -> city_for user_input c2 -> c1 = c2.
Proof.
  intros [(pre & ws & g & rest & Hin & Hmax & Hleft & Hlong & ->) | [Hnone ->]]
         [(pre' & ws' & g' & rest' & Hin' & Hmax' & Hleft' & Hlong' & ->)
         | [Hnone' ->]].
  - pose proof (Hleft _ _ _ _ Hin') as H1.
    pose proof (Hleft' _ _ _ _ Hin) as H2.
    destruct Hin as (Hs & Hspace & Hws & Hwords & Hg).
    destruct Hin' as (Hs' & Hspace' & Hws' & Hwords' & Hg').
    rewrite Hs in Hs'.
    destruct (append_same_length _ _ _ _ Hs' ltac:(lia)) as [<- Hs1].
    cbn in Hs1. injection Hs1 as Hs1.
    assert (Hin1 : in_words user_input pre ws g rest) by (repeat split; trivial).
    assert (Hin2 : in_words user_input pre ws' g' rest').
    { repeat split; trivial. rewrite Hs. cbn. now rewrite Hs1. }
    pose proof (Hlong _ _ _ Hin2) as H3.
    pose proof (Hlong' _ _ _ Hin1) as H4.
    destruct (append_same_length _ _ _ _ Hs1 ltac:(lia)) as [<- Hs2].
    now rewrite (maximal_run_unique _ _ _ _ _ Hs2 Hwords Hwords' Hmax Hmax').
  - now destruct (Hnone' _ _ _ _ Hin).
  - now destruct (Hnone _ _ _ _ Hin').
  - reflexivity.
Qed.

End CityUnique.

Lemma weather_fallback_witness :
  exists city,
    fst (resolve_intent "weather in Paris" (JStr "I can not do that.") [])
    = Ret (JStr "get_weather", JObj [("city", JStr city)])
    /\ city_for "weather in Paris" city
    /\ (DEFAULT_CITY = "Chennai")%string.
Proof.
  apply (weather_fallback "weather in Paris" "I can not do that." JNull JNull []).
  - reflexivity.
  - reflexivity.
  - exists ""%string, "weather"%string, " in Paris"%string.
    split; reflexivity.
Defined.

Lemma notification_fallback_witness :
  fst (resolve_intent "notify the team" (JStr "I can not do that.") [])
  = Ret (JStr "send_notification",
         JObj [("notification_input", JStr "notify the team|general_alerts")]).
Proof.
  apply (notification_fallback "notify the team" "I can not do that."
           JNull JNull []).
  - reflexivity.
  - reflexivity.
  - left. exists ""%string, "notify"%string, " the team"%string.
    split; reflexivity.
  - intros Hweather.
    apply (contains_lower_iff "weather" "notify the team" eq_refl) in Hweather.
    discriminate Hweather.
Defined.

(** The end-to-end scenarios of the specification. *)
Example scenario_weather_in_paris (h : history) :
  resolve_intent "weather in Paris" (JStr "Sorry, I can not help.") h
  = (Ret (JStr "get_weather", JObj [("city", JStr "Paris")]),
     [Log Forcing_get_weather]).
Proof. vm_compute. reflexivity. Qed.

Example scenario_weather_no_city (h : history) :
  resolve_intent "How is the WEATHER today?" (JStr "Sorry.") h
  = (Ret (JStr "get_weather", JObj [("city", JStr "Chennai")]),
     [Log Forcing_get_weather]).
Proof. vm_compute. reflexivity. Qed.

(** *** The JSON block *)

Section JsonBlock.

Local Open Scope string_scope.

(** A lazy repeat takes the shortest run after which the rest of the
    pattern matches. *)
Lemma rep_lazy_shortest {R} cls (k : string -> option R) :
  forall s m r,
    Re.rep cls false 0 k s = Some (m, r) ->
    forall m' t',
      s = m' ++ t' -> String.length m' < String.length m -> k t' = None.
Proof.
  induction s as [|c s IH]; intros m r H m' t' Hs Hlt.
  - cbn in H. destruct (k "") as [x|]; [|discriminate].
    cbn in H. injection H as <- _. cbn in Hlt. lia.
  - cbn in H. destruct (k (String c s)) as [x|] eqn:Hk.
    + cbn in H. injection H as <- _. cbn in Hlt. lia.
    + cbn in H. destruct (cls c); [|discriminate].
      destruct (Re.rep cls false 0 k s) as [[m0 r0]|] eqn:Hrec; [|discriminate].
      cbn in H. injection H as <- <-.
      destruct m' as [|c' m'].
      * cbn in Hs. now subst t'.
      * cbn in Hs. injection Hs as _ Hs. cbn in Hlt.
        apply (IH _ _ eq_refl m' t' Hs). lia.
Qed.

Lemma every_any_char (s : string) : every Re.any_char s = true.
Proof. induction s; cbn; trivial. Qed.

(** The block pattern matches at an opening brace that has a closing
    brace somewhere after it. *)
Lemma match_here_block_complete (body t : string) :
  Re.match_here Re.json_block_re (String "{" (body ++ String "}" t)) <> None.
Proof.
  unfold Re.json_block_re.
  cbn [Re.match_here Re.atom_of Re.captures Ascii.eqb Bool.eqb].
  match goal with
  | |- match match Re.rep _ _ _ ?k _ with _ => _ end with _ => _ end <> None =>
      pose proof (rep_complete Re.any_char false k body 0 (String "}" t)
                    (every_any_char body) (Nat.le_0_l _)) as Hc
  end.
  destruct (Re.rep Re.any_char false 0 _ _) as [[m0 f0]|]; [discriminate|].
  exfalso. apply Hc; [discriminate | reflexivity].
Qed.

(** What [re.search] finds for the block pattern: the text from the
    first opening brace to the first closing brace after it. *)
Lemma json_block_shape (text : string) (f : Re.found) :
  Re.search Re.json_block_re text = Some f ->
  exists pre body,
    text = pre ++ "{" ++ body ++ "}" ++ Re.rest f
    /\ Re.matched f = "{" ++ body ++ "}"
    /\ free_of "{" pre /\ free_of "}" body.
Proof.
  intros Hsearch.
  destruct (search_sound _ _ _ Hsearch) as (pre & s' & -> & Hm & Hleft).
  clear Hsearch. revert Hm. unfold Re.json_block_re.
  cbn [Re.match_here Re.atom_of Re.captures].
  destruct s' as [|c1 s1]; [discriminate|].
  destruct (Ascii.eqb c1 "{") eqn:E1; [|discriminate].
  apply Ascii.eqb_eq in E1. subst c1.
  destruct (Re.rep Re.any_char false 0 _ s1) as [[body f1]|] eqn:Hrep;
    [|discriminate].
  destruct (rep_sound _ _ _ _ _ _ _ Hrep) as (t & -> & _ & _ & Hk).
  destruct t as [|c2 t]; [discriminate|].
  destruct (Ascii.eqb c2 "}") eqn:E2; [|discriminate].
  apply Ascii.eqb_eq in E2. subst c2.
  cbn in Hk. injection Hk as <-. cbn.
  intros H. injection H as <-. cbn.
  exists pre, body. repeat split.
  - intros a b ->.
    assert (String.length a < String.length ((a ++ String "{" b))) as Hlt
        by (rewrite length_append; cbn; lia).
    specialize (Hleft a (String "{" ((b ++ String "{" body) ++ String "}" t))).
    apply (match_here_block_complete (b ++ String "{" body) t).
    apply Hleft; [|exact Hlt].
    rewrite !append_assoc. reflexivity.
  - intros a b ->.
    assert (String.length a < String.length (a ++ String "}" b)) as Hlt
        by (rewrite length_append; cbn; lia).
    pose proof (rep_lazy_shortest _ _ _ _ _ Hrep a
                  (String "}" (b ++ String "}" t))) as Hs.
    rewrite append_assoc in Hs. specialize (Hs eq_refl Hlt).
    discriminate Hs.
Qed.


Lemma item_lookup (d : Dict.t) (key : string) (v : json) :
  Py.item (JObj d) key = Ret v <-> Dict.lookup key d = Some v.
Proof.
  cbn. destruct (Dict.lookup key d); split; intros H; congruence.
Qed.

(** When the detector returns a call, the text from the first opening
    brace to the first closing brace after it is, on its own, a JSON
    object with the two members. *)
Lemma detect_tool_call_block (text : string) (tool args : json) :
  detect_tool_call (JStr text) = Ret (tool, args) ->
  (tool, args) <> (JNull, JNull) ->
  exists pre body rest d,
    text = pre ++ "{" ++ body ++ "}" ++ rest
    /\ free_of "{" pre /\ free_of "}" body
    /\ Json.loads_latin1 ("{" ++ body ++ "}") = Some (JObj d)
    /\ Dict.lookup "name" d = Some tool
    /\ Dict.lookup "arguments" d = Some args.
Proof.
  unfold detect_tool_call. intros H Hcall.
  destruct (Re.search Re.json_block_re text) as [f|] eqn:Hsearch;
    [|congruence].
  destruct (json_block_shape _ _ Hsearch)
    as (pre & body & Htext & Hmatched & Hpre & Hbody).
  rewrite Hmatched in H.
  destruct (Json.loads_latin1 ("{" ++ body ++ "}")) as [j|] eqn:Hloads;
    [|cbn in H; congruence].
  cbn [rbind] in H.
  destruct j as [|b|z|x|k|s|l|d];
    try (cbn in H; congruence).
  - cbn [Py.contains rbind] in H.
    destruct (PyStr.contains "name" s);
      [destruct (PyStr.contains "arguments" s)|];
      cbn in H; congruence.
  - cbn [Py.contains rbind] in H.
    destruct (existsb (fun x => Py.eq_str x "name") l);
      [destruct (existsb (fun x => Py.eq_str x "arguments") l)|];
      cbn in H; congruence.
  - cbn [Py.contains rbind] in H.
    exists pre, body, (Re.rest f), d.
    destruct (Dict.mem "name" d); [|cbn in H; congruence].
    destruct (Dict.mem "arguments" d); [|cbn in H; congruence].
    cbn [Py.item rbind] in H.
    destruct (Dict.lookup "name" d) as [n|]; [|cbn in H; congruence].
    destruct (Dict.lookup "arguments" d) as [a|]; [|cbn in H; congruence].
    cbn in H. injection H as <- <-. repeat split; trivial.
Qed.

(** A call that the detector returns with a truthy tool is the outcome
    of the resolution, whatever the user input says. *)
Lemma structured_call_wins (user_input text : string) (tool args : json)
      (h : history) :
  detect_tool_call (JStr text) = Ret (tool, args) ->
  Py.truthy tool = true ->
  resolve_intent user_input (JStr text) h = (Ret (tool, args), []).
Proof.
  intros Hdetect Htruthy. unfold resolve_intent.
  rewrite (bind_ret _ _ h (tool, args) [])
    by (unfold lift; now rewrite Hdetect).
  unfold after, fallback. cbn [fst snd]. rewrite Htruthy. reflexivity.
Qed.

End JsonBlock.

(** *** Intent resolution: the structured stage *)

(** C1, on the call format that the system instruction prescribes.  The
    text is a well-formed JSON object with a name and an arguments
    object, but the lazy pattern stops at the first closing brace: the
    block handed to [json.loads] is cut short and does not parse, the
    detector returns no call, and the fallback on the user's words
    decides instead (or no tool is called at all). *)
Theorem nested_arguments_are_not_detected (h : history) :
  Json.loads nested_call
  = Some (JObj [("name", JStr "get_weather");
                ("arguments", JObj [("city", JStr "Paris")])])
  /\ option_map Re.matched (Re.search Re.json_block_re nested_call)
     = Some (dq "{'name': 'get_weather', 'arguments': {'city': 'Paris'}")
  /\ detect_tool_call (JStr nested_call) = Ret (JNull, JNull)
  /\ resolve_intent "please alert the team" (JStr nested_call) h
     = (Ret (JStr "send_notification",
             JObj [("notification_input",
                    JStr "please alert the team|general_alerts")]),
        [Log Forcing_send_notification])
  /\ resolve_intent "hello" (JStr nested_call) h = (Ret (JNull, JNull), []).
Proof. repeat split; vm_compute; reflexivity. Qed.

(** A call without nested braces is detected, whatever the user said. *)
Example flat_call_is_detected (h : history) :
  resolve_intent "weather alert"
    (JStr (dq "Sure: {'name': 'send_notification', 'arguments': 'hi|team'}")) h
  = (Ret (JStr "send_notification", JStr "hi|team"), []).
Proof. vm_compute. reflexivity. Qed.

(** The outcome and the events of the resolution do not depend on the
    history; the events are log lines. *)
Lemma resolve_intent_any_history (h1 h2 : history)
      (user_input : string) (model_output : json) :
  resolve_intent user_input model_output h1
  = resolve_intent user_input model_output h2
  /\ Forall (fun e => exists m, e = Log m)
            (snd (resolve_intent user_input model_output h1)).
Proof.
  unfold resolve_intent, bind, lift, fallback.
  destruct (detect_tool_call model_output) as [[tool args]|e]; cbn [fst snd].
  - destruct (Py.truthy tool); cbn.
    + repeat split; constructor.
    + destruct (PyStr.contains "weather" (PyStr.lower user_input)); cbn.
      * repeat split. repeat constructor. now exists Forcing_get_weather.
      * destruct (PyStr.contains "notify" (PyStr.lower user_input)
                  || PyStr.contains "alert" (PyStr.lower user_input)); cbn.
        -- repeat split. repeat constructor.
           now exists Forcing_send_notification.
        -- repeat split; constructor.
  - repeat split; constructor.
Qed.

(** C9. Resolution is a function of the user input and the model output
    alone: after any two histories (whatever was requested, read or
    answered before) it has the same outcome; resolving the same pair
    twice in a row gives the same tool and arguments both times; and all
    it adds to the history are log lines (no request, no console read,
    no look at the clock). *)
Theorem resolve_intent_pure (h1 h2 : history)
        (user_input : string) (model_output : json) :
  fst (resolve_intent user_input model_output h1)
  = fst (resolve_intent user_input model_output h2)
  /\ fst (resolve_twice user_input model_output h1)
     = match fst (resolve_intent user_input model_output h1) with
       | Ret call => Ret (call, call)
       | Raise e => Raise e
       end
  /\ Forall (fun e => exists m, e = Log m)
            (snd (resolve_intent user_input model_output h1)).
Proof.
  destruct (resolve_intent_any_history h1 h2 user_input model_output)
    as [Hsame Hlog].
  split; [now rewrite Hsame|]. split; [|exact Hlog].
  unfold resolve_twice.
  destruct (resolve_intent user_input model_output h1) as [[call|e] ev] eqn:H1.
  - rewrite (bind_ret _ _ _ _ _ H1). unfold after. cbn [fst].
    destruct (resolve_intent_any_history h1 (h1 ++ ev) user_input model_output)
      as [Hagain _].
    rewrite H1 in Hagain.
    rewrite (bind_ret _ _ _ _ _ (eq_sym Hagain)). reflexivity.
  - now rewrite (bind_raise _ _ _ _ _ H1).
Qed.

(** *** The model gateway *)

Section Gateways.

Variable W : world.

Lemma ollama_try_returns payload attempt h r d :
  net W (posts h) = PostReturns r ->
  Json.loads_latin1 (text r) = Some (JObj d) ->
  ollama_try W payload attempt h
  = (Ret (Some (completion r d)), [Post OLLAMA_URL payload 60]).
Proof.
  intros Hnet Hbody.
  unfold ollama_try, try_except, ollama_request, bind, post, lift,
    response_json, ret.
  rewrite Hnet. cbn. rewrite Hbody. cbn. reflexivity.
Qed.

Lemma ollama_try_success payload attempt h r d :
  net W (posts h) = PostReturns r ->
  Json.loads (text r) = Some (JObj d) ->
  ollama_try W payload attempt h
  = (Ret (Some (completion r d)), [Post OLLAMA_URL payload 60]).
Proof.
  intros Hnet Hbody. apply ollama_try_returns; [exact Hnet|].
  now apply loads_exact.
Qed.

Lemma ollama_try_failure payload attempt h :
  ollama_attempt_fails (net W (posts h)) ->
  exists e, ollama_try W payload attempt h
            = (Ret None, ollama_failure_events payload attempt e).
Proof.
  unfold ollama_attempt_fails, ollama_try, try_except, ollama_request,
    bind, post, lift, response_json, ret, ollama_failure_events.
  destruct (net W (posts h)) as [r|e]; intros Hfail; cbn.
  - destruct (Json.loads_latin1 (text r)) as [v|] eqn:Hbody; cbn.
    + destruct v; cbn; try (exists AttributeError; reflexivity).
      now destruct (Hfail members).
    + exists JSONDecodeError. reflexivity.
  - exists e. unfold except_Exception. rewrite Hfail. reflexivity.
Qed.

Lemma ollama_try_interrupted payload attempt h :
  net W (posts h) = PostRaises KeyboardInterrupt ->
  ollama_try W payload attempt h
  = (Raise KeyboardInterrupt, [Post OLLAMA_URL payload 60]).
Proof.
  intros Hnet.
  unfold ollama_try, try_except, ollama_request, bind, post.
  rewrite Hnet. reflexivity.
Qed.

(** Every outcome of a request is one of the three above. *)
Lemma ollama_outcome_cases (o : post_outcome) :
  (exists r d, o = PostReturns r
               /\ Json.loads_latin1 (text r) = Some (JObj d))
  \/ ollama_attempt_fails o
  \/ o = PostRaises KeyboardInterrupt.
Proof.
  destruct o as [r|e].
  - destruct (Json.loads_latin1 (text r)) as [v|] eqn:Hbody.
    + destruct v; try (right; left; cbn; rewrite Hbody; congruence).
      left. now exists r, members.
    + right; left. cbn. rewrite Hbody. congruence.
  - destruct e; try (right; left; reflexivity). now right; right.
Qed.

Lemma posts_ollama_failure_events payload attempt e :
  posts (ollama_failure_events payload attempt e) = 1.
Proof. reflexivity. Qed.

(** [N] failed attempts in a row leave the loop [N] iterations on,
    with [N] requests made. *)
Lemma ollama_attempts_skip_failures payload :
  forall N attempt remaining h,
    (forall i, i < N -> ollama_attempt_fails (net W (posts h + i))) ->
    exists ev,
      posts ev = N /\
      ollama_attempts W payload attempt (N + remaining) h
      = after ev (ollama_attempts W payload (N + attempt) remaining) h.
Proof.
  induction N as [|N IH]; intros attempt remaining h Hfail.
  - exists []. split; [reflexivity|].
    unfold after. cbn. rewrite app_nil_r.
    now destruct (ollama_attempts W payload attempt remaining h).
  - destruct (ollama_try_failure payload attempt h) as [e He].
    { specialize (Hfail 0). rewrite Nat.add_0_r in Hfail. apply Hfail. lia. }
    destruct (IH (S attempt) remaining
                (h ++ ollama_failure_events payload attempt e)%list)
      as [ev [Hev Hrun]].
    { intros i Hi. rewrite posts_app, posts_ollama_failure_events.
      replace (posts h + 1 + i) with (posts h + S i) by lia.
      apply Hfail. lia. }
    exists (ollama_failure_events payload attempt e ++ ev)%list. split.
    + rewrite posts_app, posts_ollama_failure_events, Hev. reflexivity.
    + cbn [Nat.add ollama_attempts].
      rewrite (bind_ret _ _ _ _ _ He). unfold after at 1.
      rewrite Hrun. unfold after. cbn [fst snd].
      rewrite <- !app_assoc.
      replace (N + S attempt) with (S (N + attempt)) by lia.
      reflexivity.
Qed.

Lemma ollama_attempts_raise payload :
  forall remaining attempt h e,
    fst (ollama_attempts W payload attempt remaining h) = Raise e ->
    e = KeyboardInterrupt /\
    exists i, i < remaining /\ net W (posts h + i) = PostRaises KeyboardInterrupt.
Proof.
  induction remaining as [|n IH]; intros attempt h e Hraise.
  - discriminate.
  - cbn [ollama_attempts] in Hraise.
    destruct (ollama_outcome_cases (net W (posts h)))
      as [(r & d & Hnet & Hbody) | [Hfail | Hint]].
    + rewrite (bind_ret _ _ _ _ _ (ollama_try_returns payload attempt h r d Hnet Hbody))
        in Hraise.
      discriminate.
    + destruct (ollama_try_failure payload attempt h Hfail) as [e' He'].
      rewrite (bind_ret _ _ _ _ _ He') in Hraise. cbn [after fst] in Hraise.
      destruct (IH _ _ _ Hraise) as [-> (i & Hi & Hnet)].
      split; [reflexivity|]. exists (S i). split; [lia|].
      rewrite posts_app, posts_ollama_failure_events in Hnet.
      now replace (posts h + S i) with (posts h + 1 + i) by lia.
    + rewrite (bind_raise _ _ _ _ _ (ollama_try_interrupted payload attempt h Hint))
        in Hraise.
      cbn in Hraise. injection Hraise as <-.
      split; [reflexivity|]. exists 0. split; [lia|].
      now rewrite Nat.add_0_r.
Qed.

(** *** The tool gateway *)

Lemma mcp_try_returns payload h r j :
  net W (posts h) = PostReturns r ->
  status_code r = 200%Z ->
  Json.loads_latin1 (text r) = Some j ->
  mcp_try W payload h = (Ret (Some j), [Post MCP_URL payload 60]).
Proof.
  intros Hnet Hstatus Hbody.
  unfold mcp_try, try_except, mcp_request, bind, post, lift, response_json, ret.
  rewrite Hnet. cbn. rewrite Hstatus. cbn. rewrite Hbody. reflexivity.
Qed.

Lemma mcp_try_success payload h r j :
  net W (posts h) = PostReturns r ->
  status_code r = 200%Z ->
  Json.loads (text r) = Some j ->
  mcp_try W payload h = (Ret (Some j), [Post MCP_URL payload 60]).
Proof.
  intros Hnet Hstatus Hbody.
  apply (mcp_try_returns payload h r j Hnet Hstatus).
  now apply loads_exact.
Qed.

Lemma mcp_try_failure payload h :
  mcp_attempt_fails (net W (posts h)) ->
  exists ev, posts ev = 1 /\ mcp_try W payload h = (Ret None, ev).
Proof.
  unfold mcp_attempt_fails, mcp_try, try_except, mcp_request, bind, post,
    lift, response_json, ret, log, sleep, emit.
  destruct (net W (posts h)) as [r|e]; intros Hfail; cbn.
  - destruct (status_code r =? 200)%Z eqn:Hstatus; cbn.
    + destruct Hfail as [Hne | Hbody].
      * apply Z.eqb_eq in Hstatus. contradiction.
      * rewrite Hbody. cbn. eexists. split; [|reflexivity]. reflexivity.
    + eexists. split; [|reflexivity]. reflexivity.
  - unfold except_Exception. rewrite Hfail. cbn.
    eexists. split; [|reflexivity]. reflexivity.
Qed.

Lemma mcp_try_interrupted payload h :
  net W (posts h) = PostRaises KeyboardInterrupt ->
  mcp_try W payload h = (Raise KeyboardInterrupt, [Post MCP_URL payload 60]).
Proof.
  intros Hnet. unfold mcp_try, try_except, mcp_request, bind, post.
  rewrite Hnet. reflexivity.
Qed.

Lemma mcp_outcome_cases (o : post_outcome) :
  (exists r j, o = PostReturns r /\ status_code r = 200%Z
               /\ Json.loads_latin1 (text r) = Some j)
  \/ mcp_attempt_fails o
  \/ o = PostRaises KeyboardInterrupt.
Proof.
  destruct o as [r|e].
  - destruct (Z.eq_dec (status_code r) 200) as [Hs|Hs].
    + destruct (Json.loads_latin1 (text r)) as [j|] eqn:Hbody.
      * left. now exists r, j.
      * right; left. cbn. now right.
    + right; left. cbn. now left.
  - destruct e; try (right; left; reflexivity). now right; right.
Qed.

Lemma mcp_attempts_skip_failures tool payload :
  forall N remaining h,
    (forall i, i < N -> mcp_attempt_fails (net W (posts h + i))) ->
    exists ev,
      posts ev = N /\
      mcp_attempts W tool payload (N + remaining) h
      = after ev (mcp_attempts W tool payload remaining) h.
Proof.
  induction N as [|N IH]; intros remaining h Hfail.
  - exists []. split; [reflexivity|].
    unfold after. cbn. rewrite app_nil_r.
    now destruct (mcp_attempts W tool payload remaining h).
  - destruct (mcp_try_failure payload h) as (ev0 & Hev0 & Htry).
    { specialize (Hfail 0). rewrite Nat.add_0_r in Hfail. apply Hfail. lia. }
    destruct (IH remaining (h ++ ev0)) as [ev [Hev Hrun]].
    { intros i Hi. rewrite posts_app, Hev0.
      replace (posts h + 1 + i) with (posts h + S i) by lia.
      apply Hfail. lia. }
    exists (ev0 ++ ev). split.
    + rewrite posts_app, Hev0, Hev. reflexivity.
    + cbn [Nat.add mcp_attempts].
      rewrite (bind_ret _ _ _ _ _ Htry). unfold after at 1.
      rewrite Hrun. unfold after. cbn [fst snd].
      rewrite <- !app_assoc. reflexivity.
Qed.

Lemma mcp_attempts_raise tool payload :
  forall remaining h e,
    fst (mcp_attempts W tool payload remaining h) = Raise e ->
    e = KeyboardInterrupt /\
    exists i, i < remaining /\ net W (posts h + i) = PostRaises KeyboardInterrupt.
Proof.
  induction remaining as [|n IH]; intros h e Hraise.
  - discriminate.
  - cbn [mcp_attempts] in Hraise.
    destruct (mcp_outcome_cases (net W (posts h)))
      as [(r & j & Hnet & Hstatus & Hbody) | [Hfail | Hint]].
    + rewrite (bind_ret _ _ _ _ _ (mcp_try_returns payload h r j Hnet Hstatus Hbody))
        in Hraise.
      discriminate.
    + destruct (mcp_try_failure payload h Hfail) as (ev0 & Hev0 & Htry).
      rewrite (bind_ret _ _ _ _ _ Htry) in Hraise. cbn [after fst] in Hraise.
      destruct (IH _ _ Hraise) as [-> (i & Hi & Hnet)].
      split; [reflexivity|]. exists (S i). split; [lia|].
      rewrite posts_app, Hev0 in Hnet.
      now replace (posts h + S i) with (posts h + 1 + i) by lia.
    + rewrite (bind_raise _ _ _ _ _ (mcp_try_interrupted payload h Hint))
        in Hraise.
      cbn in Hraise. injection Hraise as <-.
      split; [reflexivity|]. exists 0. split; [lia|].
      now rewrite Nat.add_0_r.
Qed.

(** [call_mcp_tool] is its loop, run after the clock was read. *)
Lemma call_mcp_tool_unfold tool args max_retries h :
  exists payload,
    Py.item payload "params"
    = Ret (JObj [("tool", tool); ("arguments", args)]) /\
    call_mcp_tool W tool args max_retries h
    = after [Time] (mcp_attempts W tool payload max_retries) h.
Proof.
  exists (JObj [("jsonrpc", JStr "2.0");
                ("id", JStr (Py.str_of_int (clock W (length h))));
                ("method", JStr "mcp/call_tool");
                ("params", JObj [("tool", tool); ("arguments", args)])]).
  split; [reflexivity|].
  unfold call_mcp_tool.
  now rewrite (bind_ret _ _ h (clock W (length h)) [Time]).
Qed.

End Gateways.

(** C5. [ask_ollama] and its retry bound.  When the
    first [N] attempts fail (the request raises an [Exception], or the
    reply is not the text of a JSON object: [r.json()] raises on it or
    gives no dict) and the next one succeeds,
    [N + 1] requests are made and that reply's completion is returned;
    when all [max_retries] attempts fail (3 by default), [max_retries]
    requests are made and the sentinel string is returned; and no
    [Exception] ever leaves the function: the one thing that can is a
    [KeyboardInterrupt] delivered during one of its requests. *)
Theorem ask_ollama_retry_bound (W : world) (prompt : string)
        (max_retries : nat) (h : history) :
  (forall N r d,
      N < max_retries ->
      (forall i, i < N -> ollama_attempt_fails (net W (posts h + i))) ->
      net W (posts h + N) = PostReturns r ->
      Json.loads (text r) = Some (JObj d) ->
      fst (ask_ollama W prompt max_retries h) = Ret (completion r d) /\
      posts (snd (ask_ollama W prompt max_retries h)) = N + 1)
  /\
  ((forall i, i < max_retries -> ollama_attempt_fails (net W (posts h + i))) ->
   fst (ask_ollama W prompt max_retries h) = Ret ollama_sentinel /\
   posts (snd (ask_ollama W prompt max_retries h)) = max_retries)
  /\
  (forall e,
      fst (ask_ollama W prompt max_retries h) = Raise e ->
      e = KeyboardInterrupt /\
      exists i, i < max_retries /\
                net W (posts h + i) = PostRaises KeyboardInterrupt).
Proof.
  unfold ask_ollama. fold (ollama_payload prompt).
  split; [|split].
  - intros N r d HN Hfail Hnet Hbody.
    destruct (ollama_attempts_skip_failures W (ollama_payload prompt) N 0
                (max_retries - N) h Hfail) as (ev & Hev & Hrun).
    replace (N + (max_retries - N)) with max_retries in Hrun by lia.
    rewrite Hrun. unfold after. cbn [fst snd].
    destruct (max_retries - N) as [|k] eqn:Hk; [lia|].
    cbn [ollama_attempts].
    rewrite (bind_ret _ _ _ _ _
               (ollama_try_success W (ollama_payload prompt) (N + 0) (h ++ ev) r d
                  ltac:(now rewrite posts_app, Hev) Hbody)).
    unfold after. cbn. split; [reflexivity|].
    rewrite posts_app, Hev. reflexivity.
  - intros Hfail.
    destruct (ollama_attempts_skip_failures W (ollama_payload prompt)
                max_retries 0 0 h Hfail) as (ev & Hev & Hrun).
    rewrite Nat.add_0_r in Hrun. rewrite Hrun. unfold after. cbn.
    split; [reflexivity|]. now rewrite app_nil_r.
  - intros e. apply ollama_attempts_raise.
Qed.

Lemma ask_ollama_retry_bound_witness :
  fst (ask_ollama flaky_ollama "hi" 3 []) = Ret (JStr "hello") /\
  posts (snd (ask_ollama flaky_ollama "hi" 3 [])) = 2.
Proof.
  destruct (ask_ollama_retry_bound flaky_ollama "hi" 3 []) as [Hretry _].
  refine (Hretry 1 (Response 200 (dq "{'response': 'hello'}"))
            [("response", JStr "hello")] _ _ _ _).
  - repeat constructor.
  - intros i Hi. destruct i as [|i]; [reflexivity|].
    exfalso. apply (Nat.nlt_0_r i). now apply PeanoNat.lt_S_n.
  - reflexivity.
  - vm_compute. reflexivity.
Defined.

(** C6. [call_mcp_tool] retries every attempt that meets a status other
    than 200 or an [Exception] (raised by the request, or by [r.json()]
    on a body with status 200 that is no JSON); an attempt with status
    200 ends the call at once with the parsed reply; after
    [max_retries] failed attempts (2 by default) it has made
    [max_retries] requests and returns the dict [{"error": ...}]; and no
    [Exception] ever leaves the function: the one thing that can is a
    [KeyboardInterrupt] delivered during one of its requests. *)
Theorem call_mcp_tool_retry_bound (W : world) (tool args : json)
        (max_retries : nat) (h : history) :
  (forall N r j,
      N < max_retries ->
      (forall i, i < N -> mcp_attempt_fails (net W (posts h + i))) ->
      net W (posts h + N) = PostReturns r ->
      status_code r = 200%Z ->
      Json.loads (text r) = Some j ->
      fst (call_mcp_tool W tool args max_retries h) = Ret j /\
      posts (snd (call_mcp_tool W tool args max_retries h)) = N + 1)
  /\
  ((forall i, i < max_retries -> mcp_attempt_fails (net W (posts h + i))) ->
   fst (call_mcp_tool W tool args max_retries h)
   = Ret (JObj [("error", JStr ("MCP call failed for " ++ fmt W tool)%string)]) /\
   posts (snd (call_mcp_tool W tool args max_retries h)) = max_retries)
  /\
  (forall e,
      fst (call_mcp_tool W tool args max_retries h) = Raise e ->
      e = KeyboardInterrupt /\
      exists i, i < max_retries /\
                net W (posts h + i) = PostRaises KeyboardInterrupt).
Proof.
  destruct (call_mcp_tool_unfold W tool args max_retries h)
    as (payload & _ & ->).
  assert (Hposts : posts (h ++ [Time]) = posts h)
    by (rewrite posts_app; cbn; lia).
  unfold after. cbn [fst snd].
  split; [|split].
  - intros N r j HN Hfail Hnet Hstatus Hbody.
    destruct (mcp_attempts_skip_failures W tool payload N (max_retries - N)
                (h ++ [Time])) as (ev & Hev & Hrun).
    { intros i Hi. rewrite Hposts. now apply Hfail. }
    replace (N + (max_retries - N)) with max_retries in Hrun by lia.
    rewrite Hrun. unfold after. cbn [fst snd].
    destruct (max_retries - N) as [|k] eqn:Hk; [lia|].
    cbn [mcp_attempts].
    rewrite (bind_ret _ _ _ _ _
               (mcp_try_success W payload ((h ++ [Time]) ++ ev) r j
                  ltac:(now rewrite posts_app, Hposts, Hev) Hstatus Hbody)).
    unfold after. cbn [fst snd]. split; [reflexivity|].
    rewrite !posts_app, Hev. reflexivity.
  - intros Hfail.
    destruct (mcp_attempts_skip_failures W tool payload max_retries 0
                (h ++ [Time])) as (ev & Hev & Hrun).
    { intros i Hi. rewrite Hposts. now apply Hfail. }
    rewrite Nat.add_0_r in Hrun. rewrite Hrun. unfold after. cbn [fst snd].
    split; [reflexivity|]. rewrite !posts_app, Hev. cbn. lia.
  - intros e Hraise.
    destruct (mcp_attempts_raise W tool payload _ _ _ Hraise)
      as [-> (i & Hi & Hnet)].
    split; [reflexivity|]. exists i. split; [assumption|].
    now rewrite Hposts in Hnet.
Qed.

Lemma call_mcp_tool_retry_bound_witness :
  fst (call_mcp_tool failing_mcp (JStr "get_weather")
         (JObj [("city", JStr "Paris")]) 2 [])
  = Ret (JObj [("error", JStr "MCP call failed for get_weather")]) /\
  posts (snd (call_mcp_tool failing_mcp (JStr "get_weather")
                (JObj [("city", JStr "Paris")]) 2 [])) = 2.
Proof.
  destruct (call_mcp_tool_retry_bound failing_mcp (JStr "get_weather")
              (JObj [("city", JStr "Paris")]) 2 []) as (_ & Hexhaust & _).
  apply Hexhaust.
  intros i Hi.
  destruct i as [|[|i]]; [left; discriminate | left; discriminate |].
  exfalso. apply (Nat.nlt_0_r i). now do 2 apply PeanoNat.lt_S_n.
Defined.

(** C10 (amended). [ask_ollama] never looks at the status of a reply:
    whatever the status, a reply whose body is the text of a JSON object
    ends the call at once, with no retry, and the call returns the
    object's ["response"] member or, when there is none, the body of the
    reply as it is. *)
Theorem ask_ollama_ignores_status (W : world) (prompt : string)
        (max_retries : nat) (h : history) (status : Z) (body : string)
        (d : Dict.t) :
  net W (posts h) = reply status body ->
  Json.loads body = Some (JObj d) ->
  ask_ollama W prompt (S max_retries) h
  = (Ret (match Dict.lookup "response" d with
          | Some v => v
          | None => JStr body
          end),
     [Post OLLAMA_URL (ollama_payload prompt) 60]).
Proof.
  intros Hnet Hbody.
  unfold ask_ollama. fold (ollama_payload prompt). cbn [ollama_attempts].
  rewrite (bind_ret _ _ _ _ _
             (ollama_try_success W (ollama_payload prompt) 0 h
                (Response status body) d Hnet Hbody)).
  unfold after, completion. cbn. reflexivity.
Qed.

Lemma ask_ollama_ignores_status_witness :
  ask_ollama (scripted [reply 404 error_page] []) "hi" 3 []
  = (Ret (JStr error_page), [Post OLLAMA_URL (ollama_payload "hi") 60]).
Proof.
  refine (ask_ollama_ignores_status (scripted [reply 404 error_page] [])
            "hi" 2 [] 404 error_page [("error", JStr "model not found")] _ _).
  - reflexivity.
  - vm_compute. reflexivity.
Defined.

(** C10, on a body that is JSON but not an object.  The reply [[]]
    parses, [data.get] raises [AttributeError], and the attempt is
    retried like a transport failure: three such replies give the
    sentinel. *)
Lemma json_array_reply_is_retried :
  Json.loads "[]" = Some (JList []) /\
  ask_ollama (scripted [reply 200 "[]"; reply 200 "[]"; reply 200 "[]"] [])
             "hi" 3 []
  = (Ret ollama_sentinel,
     [Post OLLAMA_URL (ollama_payload "hi") 60;
      Log (Ollama_request_failed 1 AttributeError); Sleep 1;
      Post OLLAMA_URL (ollama_payload "hi") 60;
      Log (Ollama_request_failed 2 AttributeError); Sleep 1;
      Post OLLAMA_URL (ollama_payload "hi") 60;
      Log (Ollama_request_failed 3 AttributeError); Sleep 1]).
Proof. split; vm_compute; reflexivity. Qed.

(** Replies whose bodies denote characters beyond U+00FF by escapes, as
    the tool server's own do (its notification text starts with
    [\u2705]), are no failed attempts: each gateway returns at its
    first request, with [?] for those characters. *)
Example escaped_replies_are_accepted :
  ask_ollama (scripted [reply 200 (dq "{'response': '\u4f60\u597d'}")] [])
             "hi" 3 []
  = (Ret (JStr "??"), [Post OLLAMA_URL (ollama_payload "hi") 60])
  /\ ~ ollama_attempt_fails (reply 200 (dq "{'response': '\u4f60\u597d'}"))
  /\ fst (call_mcp_tool
            (scripted [reply 200 (dq "{'result': '\u2705 Notification sent'}")]
                      [])
            (JStr "send_notification") (JStr "hi|general_alerts") 2 [])
     = Ret (JObj [("result", JStr "? Notification sent")])
  /\ posts (snd (call_mcp_tool
                   (scripted
                      [reply 200 (dq "{'result': '\u2705 Notification sent'}")]
                      [])
                   (JStr "send_notification") (JStr "hi|general_alerts") 2 []))
     = 1
  /\ ~ mcp_attempt_fails
         (reply 200 (dq "{'result': '\u2705 Notification sent'}")).
Proof.
  split; [vm_compute; reflexivity|].
  split; [intros H; apply (H [("response", JStr "??")]); vm_compute; reflexivity|].
  split; [vm_compute; reflexivity|].
  split; [vm_compute; reflexivity|].
  intros [H | H]; [now apply H | vm_compute in H; discriminate H].
Qed.

(** *** The result text *)

(** The shapes that [result_text] takes for "no text", and those on
    which it raises. *)
Lemma result_text_shapes :
  (forall d, Dict.lookup "result" d = None ->
             result_text (JObj d) = Ret (JStr EmptyString))
  /\ (forall d res,
         Dict.lookup "result" d = Some (JObj res) ->
         Dict.lookup "content" res = None ->
         result_text (JObj d) = Ret (JStr EmptyString))
  /\ (forall d res first others,
         Dict.lookup "result" d = Some (JObj res) ->
         Dict.lookup "content" res = Some (JList (JObj first :: others)) ->
         result_text (JObj d)
         = Ret (match Dict.lookup "text" first with
                | Some t => t
                | None => JStr EmptyString
                end))
  /\ (forall d res,
         Dict.lookup "result" d = Some (JObj res) ->
         Dict.lookup "content" res = Some (JList []) ->
         result_text (JObj d) = Raise IndexError)
  /\ (forall d,
         Dict.lookup "result" d = Some JNull ->
         result_text (JObj d) = Raise AttributeError).
Proof.
  unfold result_text, Py.get, rbind.
  repeat split; intros.
  - rewrite H. reflexivity.
  - rewrite H, H0. reflexivity.
  - rewrite H, H0. reflexivity.
  - rewrite H, H0. reflexivity.
  - rewrite H. reflexivity.
Qed.

(** C2, on a reply whose content list is empty.  The tool gateway hands
    the reply [{"result": {"content": []}}] back as it is, and taking
    the first element of its content raises [IndexError]. *)
Theorem empty_content_list_raises :
  fst (call_mcp_tool (scripted [reply 200 empty_content_reply] [])
         (JStr "get_weather") (JObj [("city", JStr "Paris")]) 2 [])
  = Ret (JObj [("jsonrpc", JStr "2.0"); ("id", JStr "1700000000");
               ("result", JObj [("content", JList [])])])
  /\ result_text (JObj [("jsonrpc", JStr "2.0"); ("id", JStr "1700000000");
                        ("result", JObj [("content", JList [])])])
     = Raise IndexError.
Proof. split; vm_compute; reflexivity. Qed.

(** *** The alert policy *)

Lemma eq_str_iff (v : json) (s : string) :
  Py.eq_str v s = true <-> v = JStr s.
Proof.
  destruct v; cbn; try (split; [discriminate | congruence]).
  rewrite String.eqb_eq. split; congruence.
Qed.

Lemma alert_keyword_iff (text : string) :
  existsb (fun k => PyStr.contains k (PyStr.lower text)) ALERT_KEYWORDS = true
  <-> exists k, In k ALERT_KEYWORDS /\ occurs_ignoring_case k text.
Proof.
  rewrite existsb_exists.
  assert (Hlower : forall k, In k ALERT_KEYWORDS -> PyStr.lower k = k).
  { intros k Hk. cbn in Hk.
    destruct Hk as [<- | [<- | [<- | [<- | []]]]]; reflexivity. }
  split; intros (k & Hk & H); exists k; split; trivial;
    now apply (contains_lower_iff k text (Hlower k Hk)).
Qed.

Section ToolCalls.

Variable W : world.

(** Every attempt starts with the request, and makes no other. *)
Lemma mcp_try_events payload h :
  exists others,
    snd (mcp_try W payload h) = Post MCP_URL payload 60 :: others /\
    forallb (fun e => negb (is_post e)) others = true.
Proof.
  unfold mcp_try, try_except, mcp_request, bind, post, lift, response_json,
    ret, log, sleep, emit, except_Exception.
  destruct (net W (posts h)) as [r|e]; cbn.
  - destruct (status_code r =? 200)%Z; cbn.
    + destruct (Json.loads_latin1 (text r)); cbn; eexists; split; reflexivity.
    + eexists; split; reflexivity.
  - destruct (is_Exception e); cbn; eexists; split; reflexivity.
Qed.

Lemma mcp_attempts_posts tool payload :
  forall remaining h e,
    In e (snd (mcp_attempts W tool payload remaining h)) ->
    is_post e = true -> e = Post MCP_URL payload 60.
Proof.
  induction remaining as [|n IH]; intros h e Hin Hpost.
  - destruct Hin.
  - cbn [mcp_attempts] in Hin.
    apply bind_events_inv in Hin.
    destruct (mcp_try_events payload h) as (others & Hev & Hothers).
    destruct Hin as [Hin | (returned & _ & Hin)].
    + rewrite Hev in Hin. destruct Hin as [<- | Hin]; [reflexivity|].
      rewrite forallb_forall in Hothers. apply Hothers in Hin.
      rewrite Hpost in Hin. discriminate.
    + destruct returned as [j|]; [destruct Hin|].
      now apply (IH _ _ Hin).
Qed.

Lemma mcp_attempts_first_post tool payload remaining h :
  In (Post MCP_URL payload 60)
     (snd (mcp_attempts W tool payload (S remaining) h)).
Proof.
  cbn [mcp_attempts]. apply bind_events_l.
  destruct (mcp_try_events payload h) as (others & -> & _). now left.
Qed.

(** The requests of a tool call all carry the tool and its arguments,
    and there is at least one. *)
Lemma call_mcp_tool_posts tool args remaining h :
  exists payload,
    Py.item payload "params"
    = Ret (JObj [("tool", tool); ("arguments", args)]) /\
    In (Post MCP_URL payload 60)
       (snd (call_mcp_tool W tool args (S remaining) h)) /\
    forall e, In e (snd (call_mcp_tool W tool args (S remaining) h)) ->
              is_post e = true -> e = Post MCP_URL payload 60.
Proof.
  destruct (call_mcp_tool_unfold W tool args (S remaining) h)
    as (payload & Hparams & ->).
  exists payload. split; [assumption|]. unfold after. cbn [snd]. split.
  - right. apply mcp_attempts_first_post.
  - intros e [<- | Hin] Hpost; [discriminate|].
    now apply (mcp_attempts_posts tool payload _ _ _ Hin).
Qed.

End ToolCalls.

(** C3. The alert policy calls the tool gateway exactly when the tool
    is [get_weather] and the result text contains one of rain, drizzle,
    shower, storm, case ignored (so never for the result of another tool,
    [send_notification] included); and every request it then makes is a
    [send_notification] call with the argument
    ["<result_text>|weather_alerts"]. *)
Theorem alert_policy_fires_iff (W : world) (tool : json) (text : string)
        (h : history) :
  ((exists e, In e (snd (alert_policy W tool (JStr text) h)) /\ is_post e = true)
   <-> tool = JStr "get_weather" /\
       exists k, In k ALERT_KEYWORDS /\ occurs_ignoring_case k text)
  /\
  (forall e,
      In e (snd (alert_policy W tool (JStr text) h)) -> is_post e = true ->
      exists payload,
        e = Post MCP_URL payload 60 /\
        Py.item payload "params"
        = Ret (JObj [("tool", JStr "send_notification");
                     ("arguments",
                      JObj [("notification_input",
                             JStr (text ++ "|weather_alerts")%string)])])).
Proof.
  rewrite <- alert_keyword_iff, <- eq_str_iff.
  unfold alert_policy.
  destruct (Py.eq_str tool "get_weather").
  2:{ split; [split|]; cbn.
      - intros (e & [] & _).
      - intros [Hf _]. discriminate.
      - intros e []. }
  rewrite (bind_ret _ _ h (PyStr.lower text) []) by reflexivity.
  unfold after. rewrite app_nil_r. cbn [app snd].
  destruct (existsb _ ALERT_KEYWORDS).
  2:{ split; [split|]; cbn.
      - intros (e & [] & _).
      - intros [_ Hf]. discriminate.
      - intros e []. }
  rewrite (bind_ret _ _ h tt [Log Weather_alert_detected]) by reflexivity.
  unfold after. cbn [snd fmt].
  destruct (call_mcp_tool_posts W (JStr "send_notification")
              (JObj [("notification_input",
                      JStr (text ++ "|weather_alerts")%string)]) 1
              (h ++ [Log Weather_alert_detected]))
    as (payload & Hparams & Hfirst & Hall).
  split; [split|].
  - intros _. now split.
  - intros _. exists (Post MCP_URL payload 60). split; [|reflexivity].
    right. now apply bind_events_l.
  - intros e [<- | Hin] Hpost; [discriminate|].
    apply bind_events_inv in Hin.
    destruct Hin as [Hin | (notif_result & _ & Hin)].
    + exists payload. split; [now apply Hall | assumption].
    + apply bind_events_inv in Hin.
      destruct Hin as [[] | (notif_text & _ & Hin)].
      destruct Hin as [<- | []]. discriminate.
Qed.

Lemma alert_policy_fires_iff_witness :
  exists e,
    In e (snd (alert_policy rainy_world (JStr "get_weather")
                 (JStr "Light RAIN expected") []))
    /\ is_post e = true.
Proof.
  apply (proj2 (proj1 (alert_policy_fires_iff rainy_world (JStr "get_weather")
                         "Light RAIN expected" []))).
  split; [reflexivity|].
  exists "rain"%string. split; [now left|].
  exists "Light "%string, "RAIN"%string, " expected"%string.
  split; reflexivity.
Defined.

Example scenario_light_rain :
  snd (alert_policy rainy_world (JStr "get_weather")
         (JStr "Paris: light rain expected today") [])
  = [Log Weather_alert_detected; Time;
     Post MCP_URL
       (JObj [("jsonrpc", JStr "2.0"); ("id", JStr "1700000000");
              ("method", JStr "mcp/call_tool");
              ("params",
               JObj [("tool", JStr "send_notification");
                     ("arguments",
                      JObj [("notification_input",
                             JStr "Paris: light rain expected today|weather_alerts")])])])
       60;
     Log (Notification (JStr "sent"))].
Proof. vm_compute. reflexivity. Qed.

(** *** The session *)

Lemma exit_keyword_iff (line : string) :
  String.eqb (PyStr.lower (PyStr.strip line)) "exit"
  || String.eqb (PyStr.lower (PyStr.strip line)) "quit" = true
  <-> exit_keyword line.
Proof.
  unfold exit_keyword. now rewrite orb_true_iff, !String.eqb_eq.
Qed.

Section Session.

Variable W : world.

(** The only [break] of the turn is the one of the exit keywords. *)
Lemma turn_break_iff (h : history) :
  fst (turn W h) = Ret Break
  <-> exists line, stdin W (inputs h) = InputLine line /\ exit_keyword line.
Proof.
  unfold turn. split.
  - intros H. apply bind_ret_inv in H. destruct H as (line & Hline & H).
    exists line. split.
    + unfold input in Hline. cbn in Hline.
      destruct (stdin W (inputs h)); congruence.
    + apply exit_keyword_iff.
      destruct (String.eqb (PyStr.lower (PyStr.strip line)) "exit"
                || String.eqb (PyStr.lower (PyStr.strip line)) "quit");
        [reflexivity|].
      exfalso.
      apply bind_ret_inv in H. destruct H as (model_output & _ & H).
      apply bind_ret_inv in H. destruct H as (_ & _ & H).
      apply bind_ret_inv in H. destruct H as (call & _ & H).
      cbv zeta in H.
      destruct (negb (Py.truthy (fst call))).
      { apply bind_ret_inv in H. destruct H as (_ & _ & H). discriminate. }
      apply bind_ret_inv in H. destruct H as (_ & _ & H).
      apply bind_ret_inv in H. destruct H as (mcp_response & _ & H).
      apply bind_ret_inv in H. destruct H as (text & _ & H).
      destruct (negb (Py.truthy text)).
      { apply bind_ret_inv in H. destruct H as (_ & _ & H). discriminate. }
      apply bind_ret_inv in H. destruct H as (_ & _ & H).
      apply bind_ret_inv in H. destruct H as (_ & _ & H).
      apply bind_ret_inv in H. destruct H as (summary & _ & H).
      apply bind_ret_inv in H. destruct H as (_ & _ & H). discriminate.
  - intros (line & Hline & Hexit).
    apply exit_keyword_iff in Hexit.
    rewrite (bind_ret _ _ h line [Input "You: "%string])
      by (unfold input; now rewrite Hline).
    unfold after. cbn [fst]. rewrite Hexit. reflexivity.
Qed.

Lemma iteration_cases (h : history) :
  match fst (turn W h) with
  | Ret c =>
      iteration W h = turn W h
  | Raise KeyboardInterrupt =>
      iteration W h = (Ret Break, snd (turn W h) ++ [Print Session_ended_by_user])
  | Raise e =>
      iteration W h = (Ret Continue, snd (turn W h) ++ [Log (Unexpected_error e)])
  end.
Proof.
  unfold iteration, try_except.
  destruct (turn W h) as [[c|e] ev]; cbn [fst snd]; [reflexivity|].
  destruct e; reflexivity.
Qed.

Lemma while_true_break_iff :
  forall rounds h,
    fst (while_true W rounds h) = Ret true
    <-> exists k, k < rounds /\
                  fst (iteration W (history_after W k h)) = Ret Break.
Proof.
  induction rounds as [|n IH]; intros h.
  - cbn. split; [discriminate | intros (k & Hk & _); lia].
  - cbn [while_true]. split.
    + intros H. apply bind_ret_inv in H. destruct H as (c & Hc & H).
      destruct c.
      * exists 0. split; [lia | exact Hc].
      * apply IH in H. destruct H as (k & Hk & H).
        exists (S k). split; [lia | exact H].
    + intros (k & Hk & H).
      destruct (fst (iteration W h)) as [c|e] eqn:Hc.
      * destruct (iteration W h) as [r ev] eqn:Hit. cbn in Hc. subst r.
        rewrite (bind_ret _ _ _ _ _ Hit). unfold after. cbn [fst].
        destruct c; [reflexivity|].
        apply IH. destruct k as [|k].
        -- cbn in H. rewrite Hit in H. discriminate.
        -- exists k. split; [lia|]. cbn in H. now rewrite Hit in H.
      * pose proof (iteration_cases h) as Hcases.
        destruct (fst (turn W h)) as [c|e'] eqn:Ht.
        -- rewrite Hcases, Ht in Hc. discriminate.
        -- destruct e'; rewrite Hcases in Hc; discriminate.
Qed.

(** Nothing gets past the two [except] clauses. *)
Lemma iteration_total (h : history) :
  exists c, fst (iteration W h) = Ret c.
Proof.
  pose proof (iteration_cases h) as Hcases.
  destruct (fst (turn W h)) as [c|e] eqn:Ht.
  - exists c. now rewrite Hcases.
  - destruct e; rewrite Hcases; cbn; eauto.
Qed.

Lemma while_true_total :
  forall rounds h,
    exists left_loop, fst (while_true W rounds h) = Ret left_loop.
Proof.
  induction rounds as [|n IH]; intros h.
  - now exists false.
  - cbn [while_true].
    destruct (iteration_total h) as [c Hc].
    destruct (iteration W h) as [r ev] eqn:Hit. cbn in Hc. subst r.
    rewrite (bind_ret _ _ _ _ _ Hit). unfold after. cbn [fst].
    destruct c; [now exists true | apply IH].
Qed.

End Session.

(** *** Where a keyboard interrupt comes from *)

Section Interrupts.

Variable W : world.

Lemma interrupted_request_earlier (h ev : history) :
  interrupted_request W (h ++ ev) -> interrupted_request W h.
Proof.
  intros (n & Hn & Hnet). exists n. split; [|assumption].
  rewrite posts_app in Hn. lia.
Qed.

Lemma ask_ollama_interrupted prompt max_retries h :
  fst (ask_ollama W prompt max_retries h) = Raise KeyboardInterrupt ->
  interrupted_request W h.
Proof.
  unfold ask_ollama. intros H.
  destruct (ollama_attempts_raise W _ _ _ _ _ H) as (_ & i & _ & Hnet).
  exists (posts h + i). split; [lia | assumption].
Qed.

Lemma call_mcp_tool_interrupted tool args max_retries h :
  fst (call_mcp_tool W tool args max_retries h) = Raise KeyboardInterrupt ->
  interrupted_request W h.
Proof.
  destruct (call_mcp_tool_unfold W tool args max_retries h)
    as (payload & _ & ->).
  unfold after. cbn [fst]. intros H.
  destruct (mcp_attempts_raise W _ _ _ _ _ H) as (_ & i & _ & Hnet).
  apply (interrupted_request_earlier h [Time]).
  exists (posts (h ++ [Time]) + i). split; [lia | assumption].
Qed.

Lemma detect_tool_call_raises (v : json) (e : pyexn) :
  detect_tool_call v = Raise e -> e = TypeError.
Proof.
  unfold detect_tool_call.
  destruct v; try (intros H; now injection H).
  destruct (Re.search Re.json_block_re s); [|discriminate].
  match goal with
  | |- match ?x with _ => _ end = _ -> _ => destruct x as [[call|]|]
  end; discriminate.
Qed.

Lemma rbind_raises {A B} (r : result A) (f : A -> result B) (e : pyexn) :
  rbind r f = Raise e ->
  r = Raise e \/ exists a, r = Ret a /\ f a = Raise e.
Proof. destruct r as [a|e']; cbn; intros H; [right; eauto | left; congruence]. Qed.

Lemma get_raises v key default e :
  Py.get v key default = Raise e -> is_Exception e = true.
Proof. destruct v; cbn; intros H; now inversion H. Qed.

Lemma item0_raises v e :
  Py.item0 v = Raise e -> is_Exception e = true.
Proof.
  destruct v as [| | | | |s|l|d]; cbn; try (intros H; now inversion H).
  - destruct s; intros H; now inversion H.
  - destruct l; intros H; now inversion H.
Qed.

Lemma result_text_raises (v : json) (e : pyexn) :
  result_text v = Raise e -> is_Exception e = true.
Proof.
  unfold result_text. intros H.
  apply rbind_raises in H. destruct H as [H | (result & _ & H)];
    [now apply get_raises in H|].
  apply rbind_raises in H. destruct H as [H | (content & _ & H)];
    [now apply get_raises in H|].
  apply rbind_raises in H. destruct H as [H | (first & _ & H)];
    [now apply item0_raises in H | now apply get_raises in H].
Qed.

Lemma fallback_returns user_input tool args h :
  exists call, fst (fallback user_input tool args h) = Ret call.
Proof.
  unfold fallback.
  destruct (negb (Py.truthy tool)); [|cbn; eauto].
  destruct (PyStr.contains "weather" (PyStr.lower user_input)); [cbn; eauto|].
  destruct (PyStr.contains "notify" (PyStr.lower user_input)
            || PyStr.contains "alert" (PyStr.lower user_input));
    cbn; eauto.
Qed.

Ltac raise_step H :=
  apply bind_raise_inv in H; destruct H as [H | (? & _ & H)].

Ltac settle H :=
  first
    [ discriminate H
    | apply ask_ollama_interrupted in H
    | apply call_mcp_tool_interrupted in H
    | (unfold lift in H; cbn [fst] in H;
       first [ apply detect_tool_call_raises in H; discriminate H
             | apply result_text_raises in H; discriminate H ]) ];
  repeat apply interrupted_request_earlier in H; try exact H.

Lemma alert_policy_interrupted tool text h :
  fst (alert_policy W tool text h) = Raise KeyboardInterrupt ->
  interrupted_request W h.
Proof.
  unfold alert_policy. intros H.
  destruct (Py.eq_str tool "get_weather"); [|discriminate].
  raise_step H.
  { destruct text; discriminate. }
  destruct (existsb _ ALERT_KEYWORDS); [|discriminate].
  raise_step H; [discriminate|].
  raise_step H; [settle H|].
  raise_step H; [settle H|].
  discriminate.
Qed.

(** A keyboard interrupt inside the turn is one that the console read
    or one of the requests met. *)
Lemma turn_interrupted (h : history) :
  fst (turn W h) = Raise KeyboardInterrupt ->
  stdin W (inputs h) = InputRaises KeyboardInterrupt
  \/ interrupted_request W h.
Proof.
  unfold turn. intros H.
  raise_step H.
  { left. unfold input in H. cbn in H.
    destruct (stdin W (inputs h)); congruence. }
  right.
  destruct (String.eqb _ "exit" || String.eqb _ "quit").
  { raise_step H; discriminate. }
  raise_step H; [settle H|].
  raise_step H; [discriminate|].
  raise_step H.
  { unfold resolve_intent in H. raise_step H; [settle H|].
    match type of H with
    | fst (fallback ?u ?t ?a ?h') = _ =>
        destruct (fallback_returns u t a h') as [call Hcall]
    end.
    congruence. }
  cbv zeta in H.
  destruct (negb (Py.truthy (fst x2))).
  { raise_step H; discriminate. }
  raise_step H; [discriminate|].
  raise_step H; [settle H|].
  raise_step H; [settle H|].
  destruct (negb (Py.truthy x5)).
  { raise_step H; discriminate. }
  raise_step H; [discriminate|].
  raise_step H.
  { apply alert_policy_interrupted in H.
    repeat apply interrupted_request_earlier in H. exact H. }
  raise_step H; [settle H|].
  raise_step H; discriminate.
Qed.

End Interrupts.

(** C7. One pass of the loop never lets an exception out.  An exception
    of the turn other than [KeyboardInterrupt] is logged and the pass
    ends in [continue]; the pass leaves the loop exactly when the line
    read is an exit keyword ("exit" or "quit", any case, whitespace
    stripped) or the turn was interrupted from the keyboard, at the
    console or during a request.  So the session, which never raises,
    has ended within [rounds] passes exactly when one of those passes
    met an exit keyword or a keyboard interrupt. *)
Theorem session_survives_turn_failures (W : world) (h : history) :
  (exists c, fst (iteration W h) = Ret c)
  /\ (forall e,
         fst (turn W h) = Raise e -> e <> KeyboardInterrupt ->
         iteration W h
         = (Ret Continue, snd (turn W h) ++ [Log (Unexpected_error e)]))
  /\ (fst (iteration W h) = Ret Break
      <-> (exists line, stdin W (inputs h) = InputLine line /\ exit_keyword line)
          \/ fst (turn W h) = Raise KeyboardInterrupt)
  /\ (fst (turn W h) = Raise KeyboardInterrupt ->
      stdin W (inputs h) = InputRaises KeyboardInterrupt
      \/ interrupted_request W h)
  /\ (forall rounds,
         (exists left_loop, fst (while_true W rounds h) = Ret left_loop)
         /\ (fst (while_true W rounds h) = Ret true
             <-> exists k, k < rounds /\
                           fst (iteration W (history_after W k h)) = Ret Break)).
Proof.
  pose proof (iteration_cases W h) as Hcases.
  split; [apply iteration_total|].
  split.
  { intros e He Hne. rewrite He in Hcases.
    destruct e; try exact Hcases. now destruct Hne. }
  split.
  { rewrite <- turn_break_iff.
    destruct (fst (turn W h)) as [c|e] eqn:Ht.
    - rewrite Hcases, Ht. split; [now left|].
      intros [H|H]; [assumption | discriminate].
    - destruct e; rewrite Hcases; cbn [fst];
        (split; [try discriminate; now right | intros [H|H]; try discriminate;
                 try reflexivity]).
  }
  split; [apply turn_interrupted|].
  intros rounds. split; [apply while_true_total | apply while_true_break_iff].
Qed.

Lemma session_survives_turn_failures_witness :
  iteration closed_console []
  = (Ret Continue, [Input "You: "; Log (Unexpected_error EOFError)]).
Proof.
  apply (proj1 (proj2 (session_survives_turn_failures closed_console []))
           EOFError).
  - reflexivity.
  - discriminate.
Defined.

Example bumpy_session_run :
  fst (chat_loop bumpy_session 5 []) = Ret true
  /\ filter (fun e => match e with Log _ => true | Input _ => true
                                   | Print Goodbye => true | _ => false end)
            (snd (chat_loop bumpy_session 5 []))
     = [Log (Ollama_request_failed 1 (RequestException "timeout"));
        Log System_prompt_initialized;
        Input "You: ";
        Log Forcing_get_weather;
        Log (Tool_detected (JStr "get_weather") (JObj [("city", JStr "Paris")]));
        Log (Unexpected_error IndexError);
        Input "You: ";
        Log (Unexpected_error EOFError);
        Input "You: ";
        Print Goodbye].
Proof. split; vm_compute; reflexivity. Qed.

(* ------------------------------------------------------------------ *)
(** ** Further properties of the connector *)
(* ------------------------------------------------------------------ *)

(** *** How many requests a call makes *)

Lemma bind_snd {A B} (m : M A) (f : A -> M B) (h : history) :
  snd (bind m f h)
  = snd (m h) ++ match fst (m h) with
                 | Ret a => snd (f a (h ++ snd (m h)))
                 | Raise _ => []
                 end.
Proof.
  unfold bind. destruct (m h) as [[a|e] ev]; cbn [fst snd].
  - now destruct (f a (h ++ ev)).
  - now rewrite app_nil_r.
Qed.

Section Counting.

Variable W : world.

Lemma ollama_try_counts payload attempt h :
  posts (snd (ollama_try W payload attempt h)) = 1
  /\ inputs (snd (ollama_try W payload attempt h)) = 0
  /\ forall e, In e (snd (ollama_try W payload attempt h)) ->
               is_post e = true -> e = Post OLLAMA_URL payload 60.
Proof.
  destruct (ollama_outcome_cases (net W (posts h)))
    as [(r & d & Hnet & Hbody) | [Hfail | Hint]].
  - rewrite (ollama_try_returns W payload attempt h r d Hnet Hbody).
    cbn. repeat split. intros e [<- | []] _. reflexivity.
  - destruct (ollama_try_failure W payload attempt h Hfail) as [e' ->].
    cbn. repeat split.
    intros e [<- | [<- | [<- | []]]] Hp; try discriminate; reflexivity.
  - rewrite (ollama_try_interrupted W payload attempt h Hint).
    cbn. repeat split. intros e [<- | []] _. reflexivity.
Qed.

Lemma ollama_attempts_counts payload :
  forall remaining attempt h,
    posts (snd (ollama_attempts W payload attempt remaining h)) <= remaining
    /\ inputs (snd (ollama_attempts W payload attempt remaining h)) = 0
    /\ forall e, In e (snd (ollama_attempts W payload attempt remaining h)) ->
                 is_post e = true -> e = Post OLLAMA_URL payload 60.
Proof.
  induction remaining as [|n IH]; intros attempt h.
  - cbn. repeat split; [lia | intros e []].
  - cbn [ollama_attempts]. rewrite bind_snd.
    destruct (ollama_try_counts payload attempt h) as (Hp & Hi & Hall).
    rewrite posts_app, inputs_app, Hp, Hi.
    destruct (fst (ollama_try W payload attempt h)) as [[v|]|e].
    + cbn. repeat split; [lia|]. intros e Hin. apply in_app_or in Hin.
      destruct Hin as [Hin|[]]. now apply Hall.
    + destruct (IH (S attempt) (h ++ snd (ollama_try W payload attempt h)))
        as (Hp' & Hi' & Hall').
      repeat split; [lia | lia |].
      intros e Hin. apply in_app_or in Hin.
      destruct Hin as [Hin|Hin]; [now apply Hall | now apply Hall'].
    + cbn. repeat split; [lia|]. intros e0 Hin. apply in_app_or in Hin.
      destruct Hin as [Hin|[]]. now apply Hall.
Qed.

Lemma mcp_try_counts payload h :
  posts (snd (mcp_try W payload h)) = 1
  /\ inputs (snd (mcp_try W payload h)) = 0.
Proof.
  unfold mcp_try, try_except, mcp_request, bind, post, lift, response_json,
    ret, log, sleep, emit, except_Exception.
  destruct (net W (posts h)) as [r|e]; cbn.
  - destruct (status_code r =? 200)%Z; cbn.
    + destruct (Json.loads_latin1 (text r)); cbn; split; reflexivity.
    + split; reflexivity.
  - destruct (is_Exception e); cbn; split; reflexivity.
Qed.

Lemma mcp_attempts_counts tool payload :
  forall remaining h,
    posts (snd (mcp_attempts W tool payload remaining h)) <= remaining
    /\ inputs (snd (mcp_attempts W tool payload remaining h)) = 0.
Proof.
  induction remaining as [|n IH]; intros h.
  - cbn. split; [lia | reflexivity].
  - cbn [mcp_attempts]. rewrite bind_snd.
    destruct (mcp_try_counts payload h) as (Hp & Hi).
    rewrite posts_app, inputs_app, Hp, Hi.
    destruct (fst (mcp_try W payload h)) as [[v|]|e].
    + cbn. split; lia.
    + destruct (IH (h ++ snd (mcp_try W payload h))) as (Hp' & Hi').
      split; lia.
    + cbn. split; lia.
Qed.

Lemma ask_ollama_counts prompt max_retries h :
  within max_retries 0 (snd (ask_ollama W prompt max_retries h)).
Proof.
  unfold ask_ollama, within.
  destruct (ollama_attempts_counts (ollama_payload prompt) max_retries 0 h)
    as (Hp & Hi & _).
  unfold ollama_payload in *. split; lia.
Qed.

Lemma call_mcp_tool_counts tool args max_retries h :
  within max_retries 0 (snd (call_mcp_tool W tool args max_retries h)).
Proof.
  destruct (call_mcp_tool_unfold W tool args max_retries h)
    as (payload & _ & ->).
  unfold after, within. cbn [snd].
  destruct (mcp_attempts_counts tool payload max_retries (h ++ [Time]))
    as (Hp & Hi).
  split.
  - change (Time :: ?x) with ([Time] ++ x). rewrite posts_app. cbn. lia.
  - change (Time :: ?x) with ([Time] ++ x). rewrite inputs_app. cbn. lia.
Qed.

Lemma within_bind {A B} (m : M A) (f : A -> M B) h p1 i1 p2 i2 :
  within p1 i1 (snd (m h)) ->
  (forall a, within p2 i2 (snd (f a (h ++ snd (m h))))) ->
  within (p1 + p2) (i1 + i2) (snd (bind m f h)).
Proof.
  unfold within. intros [Hp Hi] Hf. rewrite bind_snd, posts_app, inputs_app.
  destruct (fst (m h)) as [a|e].
  - destruct (Hf a). lia.
  - cbn. lia.
Qed.

Lemma within_more p i p' i' ev :
  within p i ev -> p <= p' -> i <= i' -> within p' i' ev.
Proof. unfold within. lia. Qed.

Lemma within_quiet (ev : list event) :
  forallb (fun e => negb (is_post e) && negb (is_input e)) ev = true ->
  within 0 0 ev.
Proof.
  unfold within, posts, inputs. induction ev as [|e ev IH]; cbn; [lia|].
  intros H. apply andb_true_iff in H. destruct H as [He H].
  apply andb_true_iff in He. destruct He as [Hp Hi].
  apply negb_true_iff in Hp, Hi. rewrite Hp, Hi. now apply IH.
Qed.

Ltac quiet :=
  apply (within_more 0 0); [apply within_quiet; reflexivity | lia | lia].

Lemma alert_policy_counts tool text h :
  within 2 0 (snd (alert_policy W tool text h)).
Proof.
  unfold alert_policy.
  destruct (Py.eq_str tool "get_weather"); [|quiet].
  apply (within_bind _ _ h 0 0 2 0); [quiet|].
  intros lower_text.
  destruct (existsb _ ALERT_KEYWORDS); [|quiet].
  apply (within_bind _ _ _ 0 0 2 0); [quiet|].
  intros _.
  apply (within_bind _ _ _ 2 0 0 0); [apply call_mcp_tool_counts|].
  intros notif_result.
  apply (within_bind _ _ _ 0 0 0 0); [quiet|].
  intros notif_text. quiet.
Qed.

Lemma turn_counts h : within 10 1 (snd (turn W h)).
Proof.
  unfold turn.
  apply (within_bind _ _ h 0 1 10 0); [split; cbn; lia|].
  intros line.
  destruct (String.eqb _ "exit" || String.eqb _ "quit").
  { apply (within_bind _ _ _ 0 0 10 0); [quiet|].
    intros _. quiet. }
  apply (within_bind _ _ _ 3 0 7 0); [apply ask_ollama_counts|].
  intros model_output.
  apply (within_bind _ _ _ 0 0 7 0); [quiet|].
  intros _.
  apply (within_bind _ _ _ 0 0 7 0).
  { destruct (resolve_intent_any_history
                (h ++ snd (input W "You: " h)) h (PyStr.strip line) model_output)
      as [_ Hlog].
    match goal with
    | |- within 0 0 (snd (resolve_intent ?u ?m ?h')) =>
        destruct (resolve_intent_any_history h' h u m) as [_ Hlog']
    end.
    apply within_quiet. apply forallb_forall. intros e He.
    rewrite Forall_forall in Hlog'. destruct (Hlog' e He) as [m ->].
    reflexivity. }
  intros call. cbv zeta.
  destruct (negb (Py.truthy (fst call))).
  { apply (within_bind _ _ _ 0 0 7 0); [quiet|].
    intros _. quiet. }
  apply (within_bind _ _ _ 0 0 7 0); [quiet|].
  intros _.
  apply (within_bind _ _ _ 2 0 5 0); [apply call_mcp_tool_counts|].
  intros mcp_response.
  apply (within_bind _ _ _ 0 0 5 0); [quiet|].
  intros text.
  destruct (negb (Py.truthy text)).
  { apply (within_bind _ _ _ 0 0 5 0); [quiet|].
    intros _. quiet. }
  apply (within_bind _ _ _ 0 0 5 0); [quiet|].
  intros _.
  apply (within_bind _ _ _ 2 0 3 0); [apply alert_policy_counts|].
  intros _.
  apply (within_bind _ _ _ 3 0 0 0); [apply ask_ollama_counts|].
  intros summary.
  apply (within_bind _ _ _ 0 0 0 0); [quiet|].
  intros _. quiet.
Qed.

End Counting.

(** X1. One pass of the loop reads the console once and makes at most
    ten requests: three for the model's answer, two for the tool, two
    for the alert's notification and three for the summary. *)
Theorem iteration_request_bound (W : world) (h : history) :
  posts (snd (iteration W h)) <= 10
  /\ inputs (snd (iteration W h)) = 1
  /\ exists later, snd (iteration W h) = Input "You: " :: later.
Proof.
  pose proof (turn_counts W h) as [Hp Hi].
  assert (Hfirst : exists later, snd (turn W h) = Input "You: " :: later).
  { unfold turn. rewrite bind_snd. cbn. eauto. }
  destruct Hfirst as [later Hlater].
  assert (Hone : inputs (snd (turn W h)) = 1).
  { rewrite Hlater in *. unfold inputs in *. cbn in *. lia. }
  pose proof (iteration_cases W h) as Hcases.
  destruct (fst (turn W h)) as [c|e].
  - rewrite Hcases. repeat split; [lia | lia | eauto].
  - assert (Hsnd : exists m, snd (iteration W h) = snd (turn W h) ++ [m]
                             /\ is_post m = false /\ is_input m = false).
    { destruct e; rewrite Hcases; cbn [snd]; eexists; repeat split. }
    destruct Hsnd as (m & -> & Hmp & Hmi).
    assert (Hp0 : posts [m] = 0) by (unfold posts; cbn; now rewrite Hmp).
    assert (Hi0 : inputs [m] = 0) by (unfold inputs; cbn; now rewrite Hmi).
    rewrite posts_app, inputs_app, Hp0, Hi0. repeat split; [lia | lia |].
    rewrite Hlater. cbn. eauto.
Qed.

(** *** A turn, step by step *)

Lemma after_nil {A} (m : M A) (h : history) : m h = after [] m h.
Proof. unfold after. cbn. rewrite app_nil_r. now destruct (m h). Qed.

Lemma after_bind_ret {A B} (m : M A) (f : A -> M B) h ev a ev' :
  m (h ++ ev) = (Ret a, ev') ->
  after ev (bind m f) h = after (ev ++ ev') (f a) h.
Proof.
  intros E. unfold after. rewrite (bind_ret _ _ _ _ _ E). unfold after.
  cbn [fst snd]. now rewrite !app_assoc.
Qed.

Lemma after_bind_raise {A B} (m : M A) (f : A -> M B) h ev e ev' :
  m (h ++ ev) = (Raise e, ev') ->
  after ev (bind m f) h = (Raise e, ev ++ ev').
Proof.
  intros E. unfold after. now rewrite (bind_raise _ _ _ _ _ E).
Qed.

Lemma after_ret {A} (a : A) h ev : after ev (ret a) h = (Ret a, ev).
Proof. unfold after. cbn. now rewrite app_nil_r. Qed.

Section Turns.

Variable W : world.

Lemma ask_ollama_first_success prompt remaining h r d :
  net W (posts h) = PostReturns r ->
  Json.loads (text r) = Some (JObj d) ->
  ask_ollama W prompt (S remaining) h
  = (Ret (completion r d), [Post OLLAMA_URL (ollama_payload prompt) 60]).
Proof.
  intros Hnet Hbody. unfold ask_ollama. fold (ollama_payload prompt).
  cbn [ollama_attempts].
  rewrite (bind_ret _ _ _ _ _
             (ollama_try_success W (ollama_payload prompt) 0 h r d Hnet Hbody)).
  reflexivity.
Qed.

(** The turn up to the model's answer: the line read is no exit keyword
    and the first request for the answer succeeds. *)
Lemma turn_answered h line r d :
  stdin W (inputs h) = InputLine line ->
  ~ exit_keyword line ->
  net W (posts h) = PostReturns r ->
  Json.loads (text r) = Some (JObj d) ->
  turn W h
  = after [Input "You: ";
           Post OLLAMA_URL (ollama_payload (enforced_input (PyStr.strip line))) 60;
           Print (Ollama_said (completion r d))]
          (turn_rest W (PyStr.strip line) (completion r d)) h.
Proof.
  intros Hline Hexit Hnet Hbody.
  rewrite after_nil. unfold turn.
  rewrite (after_bind_ret _ _ h [] line [Input "You: "])
    by (unfold input; rewrite app_nil_r; now rewrite Hline).
  destruct (String.eqb (PyStr.lower (PyStr.strip line)) "exit"
            || String.eqb (PyStr.lower (PyStr.strip line)) "quit") eqn:E.
  { exfalso. apply Hexit. now apply exit_keyword_iff. }
  fold (enforced_input (PyStr.strip line)).
  rewrite (after_bind_ret _ _ h _ _ _
             (ask_ollama_first_success (enforced_input (PyStr.strip line)) 2
                (h ++ [] ++ [Input "You: "]) r d
                ltac:(rewrite posts_app; cbn; now rewrite Nat.add_0_r) Hbody)).
  rewrite (after_bind_ret _ _ h _ tt [Print (Ollama_said (completion r d))])
    by reflexivity.
  reflexivity.
Qed.

Lemma resolve_intent_at (h h' : history) user_input model_output :
  resolve_intent user_input model_output h
  = resolve_intent user_input model_output h'.
Proof. apply resolve_intent_any_history. Qed.

Lemma not_occurs_contains (word text : string) :
  PyStr.lower word = word ->
  ~ occurs_ignoring_case word text ->
  PyStr.contains word (PyStr.lower text) = false.
Proof.
  intros Hword Hno.
  destruct (PyStr.contains word (PyStr.lower text)) eqn:E; [|reflexivity].
  exfalso. apply Hno. now apply contains_lower_iff.
Qed.

Lemma logs_make_no_request (l : list event) :
  Forall (fun e => exists m, e = Log m) l -> posts l = 0.
Proof.
  unfold posts. induction 1 as [|e l [m ->] _ IH]; cbn; trivial.
Qed.

Lemma call_mcp_tool_exhausted tool args max_retries h :
  (forall i, i < max_retries -> mcp_attempt_fails (net W (posts h + i))) ->
  exists ev,
    call_mcp_tool W tool args max_retries h
    = (Ret (JObj [("error", JStr ("MCP call failed for " ++ fmt W tool)%string)]),
       ev)
    /\ posts ev = max_retries.
Proof.
  intros Hfail.
  destruct (call_mcp_tool_unfold W tool args max_retries h)
    as (payload & _ & ->).
  assert (Hposts : posts (h ++ [Time]) = posts h)
    by (rewrite posts_app; cbn; lia).
  destruct (mcp_attempts_skip_failures W tool payload max_retries 0
              (h ++ [Time])) as (ev & Hev & Hrun).
  { intros i Hi. rewrite Hposts. now apply Hfail. }
  rewrite Nat.add_0_r in Hrun. unfold after at 1. rewrite Hrun.
  unfold after. cbn [fst snd mcp_attempts ret]. rewrite app_nil_r.
  exists ([Time] ++ ev). split; [reflexivity|].
  rewrite posts_app, Hev. reflexivity.
Qed.

End Turns.

(** X2. A turn in which nothing asks for a tool.  When the model's text
    holds no call that the detector accepts and the user input has none
    of the words weather, notify and alert (case ignored), the turn
    makes its one request to the model and none to the tool server, says
    that no tool call was detected, and the loop goes on. *)
Theorem turn_without_intent (W : world) (h : history) (line : string)
        (r : response) (d : Dict.t) (model_text : string) (tool args : json) :
  stdin W (inputs h) = InputLine line ->
  ~ exit_keyword line ->
  net W (posts h) = PostReturns r ->
  Json.loads (text r) = Some (JObj d) ->
  completion r d = JStr model_text ->
  detect_tool_call (JStr model_text) = Ret (tool, args) ->
  Py.truthy tool = false ->
  ~ occurs_ignoring_case "weather" (PyStr.strip line) ->
  ~ occurs_ignoring_case "notify" (PyStr.strip line) ->
  ~ occurs_ignoring_case "alert" (PyStr.strip line) ->
  turn W h
  = (Ret Continue,
     [Input "You: ";
      Post OLLAMA_URL (ollama_payload (enforced_input (PyStr.strip line))) 60;
      Print (Ollama_said (JStr model_text));
      Log No_tool_call_detected]).
Proof.
  intros Hline Hexit Hnet Hbody Hanswer Hdetect Hfalsy Hw Hn Ha.
  rewrite (turn_answered W h line r d Hline Hexit Hnet Hbody), Hanswer.
  unfold turn_rest.
  assert (Hres : forall h', resolve_intent (PyStr.strip line) (JStr model_text) h'
                            = (Ret (tool, args), [])).
  { intros h'. unfold resolve_intent.
    rewrite (bind_ret _ _ h' (tool, args) [])
      by (unfold lift; now rewrite Hdetect).
    unfold after, fallback. cbn [fst snd]. rewrite Hfalsy. cbn [negb].
    rewrite (not_occurs_contains "weather" _ eq_refl Hw),
      (not_occurs_contains "notify" _ eq_refl Hn),
      (not_occurs_contains "alert" _ eq_refl Ha).
    reflexivity. }
  rewrite (after_bind_ret _ _ h _ _ _ (Hres _)). cbn [fst snd].
  rewrite Hfalsy. cbn [negb].
  rewrite (after_bind_ret _ _ h _ tt [Log No_tool_call_detected])
    by reflexivity.
  rewrite after_ret. reflexivity.
Qed.

(** X3. An answer that is not text.  When the reply of the model service
    is a JSON object whose ["response"] member is not a string,
    [ask_ollama] returns that value, [re.search] raises [TypeError] on
    it, and the pass of the loop ends there: no tool is called and the
    error is logged. *)
Theorem turn_on_answer_without_text (W : world) (h : history) (line : string)
        (r : response) (d : Dict.t) :
  stdin W (inputs h) = InputLine line ->
  ~ exit_keyword line ->
  net W (posts h) = PostReturns r ->
  Json.loads (text r) = Some (JObj d) ->
  (forall s, completion r d <> JStr s) ->
  iteration W h
  = (Ret Continue,
     [Input "You: ";
      Post OLLAMA_URL (ollama_payload (enforced_input (PyStr.strip line))) 60;
      Print (Ollama_said (completion r d));
      Log (Unexpected_error TypeError)]).
Proof.
  intros Hline Hexit Hnet Hbody Hanswer.
  assert (Hturn : turn W h
                  = (Raise TypeError,
                     [Input "You: ";
                      Post OLLAMA_URL
                        (ollama_payload (enforced_input (PyStr.strip line))) 60;
                      Print (Ollama_said (completion r d))])).
  { rewrite (turn_answered W h line r d Hline Hexit Hnet Hbody).
    unfold turn_rest.
    rewrite (after_bind_raise _ _ h _ TypeError []).
    - now rewrite app_nil_r.
    - unfold resolve_intent. apply bind_raise. unfold lift.
      destruct (completion r d) as [| | | | |s| |]; try reflexivity.
      now destruct (Hanswer s). }
  pose proof (iteration_cases W h) as Hcases.
  rewrite Hturn in Hcases. cbn [fst snd] in Hcases. exact Hcases.
Qed.

(** X4. The tool server is down.  When a tool was resolved and both
    attempts of the tool gateway fail (the request raises an
    [Exception], the status is not 200, or [r.json()] raises on the
    body), the turn reads the empty text out of the gateway's error
    value, logs an empty result and ends there, after three requests in
    all: the one to the model and the two attempts. *)
Theorem turn_with_tool_server_down (W : world) (h : history) (line : string)
        (r : response) (d : Dict.t) (tool args : json) (logged : list event) :
  stdin W (inputs h) = InputLine line ->
  ~ exit_keyword line ->
  net W (posts h) = PostReturns r ->
  Json.loads (text r) = Some (JObj d) ->
  resolve_intent (PyStr.strip line) (completion r d) []
  = (Ret (tool, args), logged) ->
  Py.truthy tool = true ->
  (forall i, i < 2 -> mcp_attempt_fails (net W (posts h + 1 + i))) ->
  exists events,
    turn W h = (Ret Continue, events ++ [Log Empty_mcp_result])
    /\ posts events = 3.
Proof.
  intros Hline Hexit Hnet Hbody Hres Htruthy Hfail.
  rewrite (turn_answered W h line r d Hline Hexit Hnet Hbody).
  unfold turn_rest.
  set (asked := [Input "You: ";
                 Post OLLAMA_URL
                   (ollama_payload (enforced_input (PyStr.strip line))) 60;
                 Print (Ollama_said (completion r d))]).
  rewrite (after_bind_ret _ _ h asked (tool, args) logged)
    by (rewrite <- Hres; apply resolve_intent_at).
  cbn [fst snd]. rewrite Htruthy. cbn [negb].
  rewrite (after_bind_ret _ _ h _ tt [Log (Tool_detected tool args)])
    by reflexivity.
  assert (Hlogged : posts logged = 0).
  { destruct (resolve_intent_any_history [] []
                (PyStr.strip line) (completion r d)) as [_ Hlog].
    rewrite Hres in Hlog. cbn [snd] in Hlog.
    now apply logs_make_no_request. }
  destruct (call_mcp_tool_exhausted W tool args 2
              (h ++ (asked ++ logged) ++ [Log (Tool_detected tool args)]))
    as (ev & Hcall & Hev).
  { intros i Hi. rewrite !posts_app, Hlogged. cbn.
    replace (posts h + (1 + 0 + 0) + i) with (posts h + 1 + i) by lia.
    now apply Hfail. }
  rewrite (after_bind_ret _ _ h _ _ _ Hcall).
  rewrite (after_bind_ret _ _ h _ (JStr "") []) by reflexivity.
  cbn [Py.truthy PyStr.is_empty negb].
  rewrite (after_bind_ret _ _ h _ tt [Log Empty_mcp_result]) by reflexivity.
  rewrite after_ret.
  exists (((asked ++ logged) ++ [Log (Tool_detected tool args)]) ++ ev).
  split; [now rewrite !app_nil_r, <- !app_assoc|].
  rewrite !posts_app, Hlogged, Hev. reflexivity.
Qed.

(** *** The alert, when the notification cannot be sent *)

(** X5. The alert is best effort.  When the alert fires and both attempts
    to send the notification fail (the request raises an [Exception],
    the status is not 200, or [r.json()] raises on the body), the policy
    reads the empty text out of the gateway's error value, logs it and
    returns: the turn goes on to the summary. *)
Theorem alert_survives_failed_notification (W : world) (text : string)
        (h : history) :
  (exists k, In k ALERT_KEYWORDS /\ occurs_ignoring_case k text) ->
  (forall i, i < 2 -> mcp_attempt_fails (net W (posts h + i))) ->
  exists requests,
    alert_policy W (JStr "get_weather") (JStr text) h
    = (Ret tt,
       Log Weather_alert_detected
         :: requests ++ [Log (Notification (JStr ""))])
    /\ posts requests = 2.
Proof.
  intros Hrain Hfail. apply alert_keyword_iff in Hrain.
  rewrite after_nil. unfold alert_policy.
  rewrite (proj2 (eq_str_iff (JStr "get_weather") "get_weather") eq_refl).
  rewrite (after_bind_ret _ _ h [] (PyStr.lower text) []) by reflexivity.
  rewrite Hrain.
  rewrite (after_bind_ret _ _ h _ tt [Log Weather_alert_detected])
    by reflexivity.
  destruct (call_mcp_tool_exhausted W (JStr "send_notification")
              (JObj [("notification_input",
                      JStr (fmt W (JStr text) ++ "|weather_alerts")%string)]) 2
              (h ++ ([] ++ []) ++ [Log Weather_alert_detected]))
    as (ev & Hcall & Hev).
  { intros i Hi. rewrite posts_app. cbn.
    replace (posts h + 0 + i) with (posts h + i) by lia. now apply Hfail. }
  rewrite (after_bind_ret _ _ h _ _ _ Hcall).
  rewrite (after_bind_ret _ _ h _ (JStr "") []) by reflexivity.
  unfold after. cbn [log emit fst snd app]. rewrite app_nil_r.
  exists ev. now split.
Qed.

(** *** The requests of the gateways *)

Lemma call_mcp_tool_payload (W : world) tool args max_retries h :
  call_mcp_tool W tool args max_retries h
  = after [Time]
      (mcp_attempts W tool
         (JObj [("jsonrpc", JStr "2.0");
                ("id", JStr (Py.str_of_int (clock W (length h))));
                ("method", JStr "mcp/call_tool");
                ("params", JObj [("tool", tool); ("arguments", args)])])
         max_retries) h.
Proof.
  unfold call_mcp_tool.
  now rewrite (bind_ret _ _ h (clock W (length h)) [Time]).
Qed.

(** X6. [ask_ollama] sends one and the same request at every attempt, at
    most [max_retries] times: the prompt as it was given, the configured
    model, streaming off, a timeout of 60. *)
Theorem ask_ollama_requests (W : world) (prompt : string) (max_retries : nat)
        (h : history) :
  posts (snd (ask_ollama W prompt max_retries h)) <= max_retries
  /\ forall url payload timeout,
       In (Post url payload timeout) (snd (ask_ollama W prompt max_retries h)) ->
       url = OLLAMA_URL
       /\ payload = JObj [("model", JStr "phi3:mini"); ("prompt", JStr prompt);
                          ("stream", JBool false)]
       /\ timeout = 60%Z.
Proof.
  unfold ask_ollama.
  destruct (ollama_attempts_counts W
              (JObj [("model", JStr MODEL); ("prompt", JStr prompt);
                     ("stream", JBool false)]) max_retries 0 h)
    as (Hp & _ & Hall).
  split; [exact Hp|].
  intros url payload timeout Hin.
  specialize (Hall _ Hin eq_refl). injection Hall as -> -> ->.
  repeat split.
Qed.

(** X7. [call_mcp_tool] reads the clock once, before its first attempt,
    and sends one and the same JSON-RPC request at every attempt, the
    id included, at most [max_retries] times. *)
Theorem call_mcp_tool_requests (W : world) (tool args : json)
        (max_retries : nat) (h : history) :
  posts (snd (call_mcp_tool W tool args max_retries h)) <= max_retries
  /\ (exists later, snd (call_mcp_tool W tool args max_retries h) = Time :: later
                    /\ ~ In Time later)
  /\ forall url payload timeout,
       In (Post url payload timeout)
          (snd (call_mcp_tool W tool args max_retries h)) ->
       url = MCP_URL
       /\ payload
          = JObj [("jsonrpc", JStr "2.0");
                  ("id", JStr (Py.str_of_int (clock W (length h))));
                  ("method", JStr "mcp/call_tool");
                  ("params", JObj [("tool", tool); ("arguments", args)])]
       /\ timeout = 60%Z.
Proof.
  split; [apply call_mcp_tool_counts|].
  rewrite call_mcp_tool_payload. unfold after. cbn [snd].
  set (payload := JObj _).
  assert (Hevents : forall n h0 e,
             In e (snd (mcp_attempts W tool payload n h0)) ->
             e <> Time /\ (is_post e = true -> e = Post MCP_URL payload 60)).
  { induction n as [|n IH]; intros h0 e Hin; [destruct Hin|].
    cbn [mcp_attempts] in Hin. apply bind_events_inv in Hin.
    destruct Hin as [Hin | (returned & _ & Hin)].
    - revert Hin.
      unfold mcp_try, try_except, mcp_request, bind, post, lift,
        response_json, ret, log, sleep, emit, except_Exception.
      destruct (net W (posts h0)) as [r0|e0]; cbn.
      + destruct (status_code r0 =? 200)%Z; cbn.
        * destruct (Json.loads_latin1 (text r0)); cbn;
            intros H; repeat destruct H as [H|H]; subst;
            try (now destruct H); split; try discriminate; reflexivity.
        * intros H; repeat destruct H as [H|H]; subst;
            try (now destruct H); split; try discriminate; reflexivity.
      + destruct (is_Exception e0); cbn;
          intros H; repeat destruct H as [H|H]; subst;
          try (now destruct H); split; try discriminate; reflexivity.
    - destruct returned; [destruct Hin | now apply (IH _ _ Hin)]. }
  split.
  - eexists. split; [reflexivity|].
    intros Hin. now destruct (Hevents _ _ _ Hin).
  - intros url p timeout [E | Hin]; [discriminate|].
    destruct (Hevents _ _ _ Hin) as [_ Hpost].
    specialize (Hpost eq_refl). injection Hpost as -> -> ->. repeat split.
Qed.

(** *** What a failed tool call leaves in the log *)

Lemma mcp_try_failure_events (W : world) payload h :
  mcp_attempt_fails (net W (posts h)) ->
  mcp_try W payload h
  = (Ret None, mcp_failure_events payload (net W (posts h))).
Proof.
  unfold mcp_attempt_fails, mcp_try, try_except, mcp_request, bind, post,
    lift, response_json, ret, log, sleep, emit, mcp_failure_events.
  destruct (net W (posts h)) as [r|e]; intros Hfail; cbn.
  - destruct (status_code r =? 200)%Z eqn:Hstatus; cbn; [|reflexivity].
    destruct Hfail as [Hne | Hbody].
    + apply Z.eqb_eq in Hstatus. contradiction.
    + rewrite Hbody. reflexivity.
  - unfold except_Exception. rewrite Hfail. reflexivity.
Qed.

Lemma posts_mcp_failure_events payload o :
  posts (mcp_failure_events payload o) = 1.
Proof.
  destruct o as [r|e]; cbn; [|reflexivity].
  now destruct (status_code r =? 200)%Z.
Qed.

Lemma flat_map_seq_shift {A} (f : nat -> list A) (n : nat) :
  flat_map f (seq 1 n) = flat_map (fun i => f (S i)) (seq 0 n).
Proof.
  rewrite <- seq_shift, !flat_map_concat_map, map_map. reflexivity.
Qed.

Lemma mcp_attempts_failure_events (W : world) tool payload :
  forall n h,
    (forall i, i < n -> mcp_attempt_fails (net W (posts h + i))) ->
    snd (mcp_attempts W tool payload n h)
    = flat_map (fun i => mcp_failure_events payload (net W (posts h + i)))
               (seq 0 n).
Proof.
  induction n as [|n IH]; intros h Hfail; [reflexivity|].
  cbn [mcp_attempts]. rewrite bind_snd.
  assert (H0 : mcp_attempt_fails (net W (posts h)))
    by (specialize (Hfail 0); rewrite Nat.add_0_r in Hfail; apply Hfail; lia).
  rewrite (mcp_try_failure_events W payload h H0). cbn [fst snd].
  rewrite IH.
  - cbn [seq flat_map]. rewrite Nat.add_0_r. f_equal.
    rewrite flat_map_seq_shift.
    apply flat_map_ext. intros i.
    rewrite posts_app, posts_mcp_failure_events.
    now replace (posts h + 1 + i) with (posts h + S i) by lia.
  - intros i Hi. rewrite posts_app, posts_mcp_failure_events.
    replace (posts h + 1 + i) with (posts h + S i) by lia. apply Hfail. lia.
Qed.

(** X8. What a tool call that fails throughout leaves behind.  After the
    look at the clock come, attempt by attempt, the request and its log
    line; a sleep of 1 follows an attempt that raised (the request, or
    [r.json()] on a reply with status 200 whose body is no JSON), and
    nothing follows a reply with another status than 200: the next
    attempt is made at once.  The log line of such a reply carries its
    status and the first 200 characters of its body. *)
Theorem failed_tool_call_events (W : world) (tool args : json)
        (max_retries : nat) (h : history) :
  (forall i, i < max_retries -> mcp_attempt_fails (net W (posts h + i))) ->
  snd (call_mcp_tool W tool args max_retries h)
  = Time
      :: flat_map
           (fun i =>
              mcp_failure_events
                (JObj [("jsonrpc", JStr "2.0");
                       ("id", JStr (Py.str_of_int (clock W (length h))));
                       ("method", JStr "mcp/call_tool");
                       ("params", JObj [("tool", tool); ("arguments", args)])])
                (net W (posts h + i)))
           (seq 0 max_retries).
Proof.
  intros Hfail. rewrite call_mcp_tool_payload. unfold after. cbn [snd app].
  f_equal.
  assert (Hposts : posts (h ++ [Time]) = posts h)
    by (rewrite posts_app; cbn; lia).
  rewrite mcp_attempts_failure_events.
  - apply flat_map_ext. intros i. now rewrite Hposts.
  - intros i Hi. rewrite Hposts. now apply Hfail.
Qed.

Lemma failed_tool_call_events_witness :
  snd (call_mcp_tool failing_mcp (JStr "get_weather")
         (JObj [("city", JStr "Paris")]) 2 [])
  = [Time;
     Post MCP_URL
       (JObj [("jsonrpc", JStr "2.0"); ("id", JStr "1700000000");
              ("method", JStr "mcp/call_tool");
              ("params", JObj [("tool", JStr "get_weather");
                               ("arguments", JObj [("city", JStr "Paris")])])])
       60;
     Log (Mcp_call_failed_http 500 "Internal Server Error");
     Post MCP_URL
       (JObj [("jsonrpc", JStr "2.0"); ("id", JStr "1700000000");
              ("method", JStr "mcp/call_tool");
              ("params", JObj [("tool", JStr "get_weather");
                               ("arguments", JObj [("city", JStr "Paris")])])])
       60;
     Log (Mcp_call_failed_http 500 "Internal Server Error")].
Proof.
  apply (failed_tool_call_events failing_mcp (JStr "get_weather")
           (JObj [("city", JStr "Paris")]) 2 []).
  intros i Hi.
  destruct i as [|[|i]]; [left; discriminate | left; discriminate |].
  exfalso. apply (Nat.nlt_0_r i). now do 2 apply PeanoNat.lt_S_n.
Defined.

(** *** The city of a forced weather call *)

Section CityShape.

Local Open Scope string_scope.









End CityShape.



Example city_cut_at_full_stop (h : history) :
  fst (fallback "weather in St. Louis" JNull JNull h)
  = Ret (JStr "get_weather", JObj [("city", JStr "St")]).
Proof. vm_compute. reflexivity. Qed.

(** *** The detector, the other way round *)

Section Detected.

Local Open Scope string_scope.

Lemma free_of_tail c x s : free_of c (String x s) -> x <> c /\ free_of c s.
Proof.
  intros H. split.
  - intros ->. now apply (H "" s).
  - intros a b ->. now apply (H (String x a) b).
Qed.

Lemma rep_lazy_first {R} (k : string -> option R) (t : string) (r : R) :
  forall body,
    (forall a x b, body = a ++ String x b -> k (String x b ++ t) = None) ->
    k t = Some r ->
    Re.rep Re.any_char false 0 k (body ++ t) = Some (body, r).
Proof.
  induction body as [|x body IH]; intros Hnone Hk.
  - cbn [append]. destruct t; cbn; now rewrite Hk.
  - cbn [append Re.rep].
    pose proof (Hnone "" x body eq_refl) as H0. cbn [append] in H0.
    rewrite H0. cbn [option_map Re.any_char pred].
    rewrite IH; trivial.
    intros a y b ->. apply (Hnone (String x a) y b). reflexivity.
Qed.

Lemma closing_brace_later (body t : string) :
  free_of "}" body ->
  forall a x b, body = a ++ String x b ->
    Re.match_here [Re.Plain (Re.Chr "}")] (String x b ++ t) = None.
Proof.
  intros Hfree a x b ->. cbn [append Re.match_here Re.atom_of].
  destruct (Ascii.eqb x "}") eqn:E; trivial.
  apply Ascii.eqb_eq in E. subst x. now destruct (Hfree a b).
Qed.

Lemma match_here_block_unfold (s : string) :
  Re.match_here Re.json_block_re (String "{" s)
  = match
      match Re.rep Re.any_char false 0
              (Re.match_here [Re.Plain (Re.Chr "}")]) s with
      | Some (m, f) => Some (Re.Found (m ++ Re.matched f) (Re.groups f) (Re.rest f))
      | None => None
      end
    with
    | Some f => Some (Re.Found (String "{" (Re.matched f)) (Re.groups f) (Re.rest f))
    | None => None
    end.
Proof. reflexivity. Qed.

Lemma match_here_block_found (body rest : string) :
  free_of "}" body ->
  Re.match_here Re.json_block_re (String "{" (body ++ String "}" rest))
  = Some (Re.Found (String "{" (body ++ "}")) [] rest).
Proof.
  intros Hbody. rewrite match_here_block_unfold.
  rewrite (rep_lazy_first _ (String "}" rest) (Re.Found "}" [] rest) body
             (closing_brace_later body _ Hbody)).
  - reflexivity.
  - cbn. reflexivity.
Qed.

Lemma search_block_found (pre body rest : string) :
  free_of "{" pre -> free_of "}" body ->
  Re.search Re.json_block_re (pre ++ "{" ++ body ++ "}" ++ rest)
  = Some (Re.Found ("{" ++ body ++ "}") [] rest).
Proof.
  intros Hpre Hbody. induction pre as [|x pre IH].
  - cbn [append]. unfold Re.search.
    rewrite (match_here_block_found body rest Hbody).
    now destruct body.
  - apply free_of_tail in Hpre. destruct Hpre as [Hx Hpre].
    cbn [append Re.search]. unfold Re.json_block_re at 1.
    cbn [Re.match_here Re.atom_of]. apply Ascii.eqb_neq in Hx. rewrite Hx.
    now apply IH.
Qed.

Lemma mem_of_lookup key d v : Dict.lookup key d = Some v -> Dict.mem key d = true.
Proof.
  induction d as [|[k w] d IH]; cbn; [discriminate|].
  destruct (String.eqb k key); [reflexivity | exact IH].
Qed.

End Detected.

(** X10. What the detector accepts.  When the text from the first opening
    brace of the model's text to the first closing brace after it is a
    JSON object with a ["name"] and an ["arguments"] member, the
    detector returns those two members, whatever stands before and after
    the block; and when the name is truthy, that call is the outcome of
    the resolution, nothing is logged, and the user's words are not
    looked at. *)
Theorem detect_tool_call_accepts (pre body rest : string) (d : Dict.t)
        (name arguments : json) :
  free_of "{" pre ->
  free_of "}" body ->
  Json.loads ("{" ++ body ++ "}")%string = Some (JObj d) ->
  Dict.lookup "name" d = Some name ->
  Dict.lookup "arguments" d = Some arguments ->
  detect_tool_call (JStr (pre ++ "{" ++ body ++ "}" ++ rest)%string)
  = Ret (name, arguments)
  /\ (Py.truthy name = true ->
      forall user_input h,
        resolve_intent user_input
          (JStr (pre ++ "{" ++ body ++ "}" ++ rest)%string) h
        = (Ret (name, arguments), [])).
Proof.
  intros Hpre Hbody Hloads Hname Hargs. apply loads_exact in Hloads.
  assert (Hdetect : detect_tool_call
                      (JStr (pre ++ "{" ++ body ++ "}" ++ rest)%string)
                    = Ret (name, arguments)).
  { unfold detect_tool_call.
    rewrite (search_block_found pre body rest Hpre Hbody).
    cbn [Re.matched]. rewrite Hloads.
    cbn [rbind Py.contains Py.item].
    rewrite (mem_of_lookup _ _ _ Hname), (mem_of_lookup _ _ _ Hargs).
    cbn [rbind]. rewrite Hname, Hargs. reflexivity. }
  split; [exact Hdetect|].
  intros Htruthy user_input h. unfold resolve_intent.
  rewrite (bind_ret _ _ h (name, arguments) [])
    by (unfold lift; now rewrite Hdetect).
  unfold after, fallback. cbn [fst snd]. rewrite Htruthy. reflexivity.
Qed.

(* ------------------------------------------------------------------ *)
(** ** Properties of the server, and of the two programs together *)
(* ------------------------------------------------------------------ *)

(** *** Characters of a text *)

Section Characters.

Local Open Scope string_scope.

Lemma count_char_app c a b :
  count_char c (a ++ b) = count_char c a + count_char c b.
Proof. induction a as [|x a IH]; cbn; [reflexivity | rewrite IH; lia]. Qed.

Lemma free_of_count c s : free_of c s <-> count_char c s = 0.
Proof.
  split.
  - induction s as [|x s IH]; intros H; cbn; [reflexivity|].
    apply free_of_tail in H. destruct H as [Hx H].
    apply Ascii.eqb_neq in Hx. rewrite Hx. now apply IH.
  - intros H a b ->. rewrite count_char_app in H. cbn in H.
    rewrite Ascii.eqb_refl in H. lia.
Qed.

Lemma free_of_app c a b : free_of c (a ++ b) <-> free_of c a /\ free_of c b.
Proof. rewrite !free_of_count, count_char_app. lia. Qed.

(** [s.split(sep, 1)] gives [s] alone when [sep] does not occur in it. *)
Lemma split1_free sep s : free_of sep s -> split1 sep s = [s].
Proof.
  induction s as [|c s IH]; intros H; cbn; [reflexivity|].
  apply free_of_tail in H. destruct H as [Hc H].
  apply Ascii.eqb_neq in Hc. rewrite Hc, (IH H). reflexivity.
Qed.

(** ... and otherwise what stands before the first [sep] and all that
    stands after it. *)
Lemma split1_first sep m t :
  free_of sep m -> split1 sep (m ++ String sep t) = [m; t].
Proof.
  induction m as [|c m IH]; intros H; cbn.
  - now rewrite Ascii.eqb_refl.
  - apply free_of_tail in H. destruct H as [Hc H].
    apply Ascii.eqb_neq in Hc. rewrite Hc, (IH H). reflexivity.
Qed.

Lemma split1_cases sep s :
  (free_of sep s /\ split1 sep s = [s])
  \/ exists m t, s = m ++ String sep t /\ free_of sep m
                 /\ split1 sep s = [m; t].
Proof.
  induction s as [|c s IH].
  - left. split; [intros [|] ? ?; discriminate | reflexivity].
  - destruct (Ascii.eqb c sep) eqn:E.
    + apply Ascii.eqb_eq in E. subst c. right. exists "", s.
      repeat split.
      * intros [|] ? ?; discriminate.
      * cbn. now rewrite Ascii.eqb_refl.
    + destruct IH as [[Hfree Hs] | (m & t & -> & Hfree & Hs)].
      * left. split.
        -- apply free_of_count. cbn. rewrite E.
           now apply free_of_count in Hfree.
        -- cbn. now rewrite E, Hs.
      * right. exists (String c m), t. repeat split.
        -- apply free_of_count. cbn. rewrite E.
           now apply free_of_count in Hfree.
        -- cbn. now rewrite E, Hs.
Qed.

End Characters.

Example split1_join_examples :
  split1 "|" "a|b|c" = ["a"; "b|c"]%string
  /\ split1 "|" "abc" = ["abc"]%string
  /\ split1 "|" "|" = [""; ""]%string
  /\ split1 "|" "" = [""]%string
  /\ join " " ["a"; "b"; "c"]%string = "a b c"%string
  /\ join " " [] = ""%string.
Proof. repeat split. Qed.

(** *** [send_notification] *)

Section Notifications.

Local Open Scope string_scope.

Variable W : world.
Variable T : server_texts.

Lemma send_notification_invalid (s : string) (upstream : post_outcome) :
  free_of "|" s ->
  send_notification W T (JStr s) upstream
  = (Ret "Invalid input. Format must be 'message|topic'.", []).
Proof.
  intros H. unfold send_notification. cbn [fmt].
  rewrite (split1_free _ _ H). reflexivity.
Qed.

Lemma send_notification_split (m t : string) (upstream : post_outcome) :
  free_of "|" m ->
  send_notification W T (JStr (m ++ String "|" t)) upstream
  = (match upstream with
     | PostReturns response =>
         if (status_code response =? 200)%Z
         then Ret (check_mark T ++ " Notification sent to '"
                   ++ PyStr.strip t ++ "': " ++ PyStr.strip m)
         else Ret (cross_mark T ++ " Failed to send notification (HTTP "
                   ++ Py.str_of_int (status_code response) ++ ")")
     | PostRaises e =>
         if is_Exception e
         then Ret ("Error sending notification: " ++ str_exn T e)
         else Raise e
     end,
     [Post_data NTFY_URL (PyStr.strip m)]).
Proof.
  intros H. unfold send_notification. cbn [fmt].
  rewrite (split1_first _ _ _ H).
  unfold request, sbind, catching, sret.
  destruct upstream as [r|e].
  - destruct (status_code r =? 200)%Z; reflexivity.
  - destruct (is_Exception e); reflexivity.
Qed.

End Notifications.

(** X11. A notification without a bar.  [send_notification] makes a
    request exactly when the text it is given contains a bar; without
    one it answers that the input is invalid. *)
Theorem notification_needs_a_bar (W : world) (T : server_texts) (s : string)
        (upstream : post_outcome) :
  (snd (send_notification W T (JStr s) upstream) = [] <-> free_of "|" s)
  /\ (free_of "|" s ->
      fst (send_notification W T (JStr s) upstream)
      = Ret "Invalid input. Format must be 'message|topic'."%string).
Proof.
  split; [split|]; intros H.
  - destruct (split1_cases "|" s) as [[Hfree _] | (m & t & -> & Hfree & _)];
      trivial.
    rewrite (send_notification_split W T m t upstream Hfree) in H.
    discriminate H.
  - now rewrite (send_notification_invalid W T s upstream H).
  - now rewrite (send_notification_invalid W T s upstream H).
Qed.

(** X12. The message and the topic.  The text is split at its first bar:
    what stands before it, stripped, is posted to the one fixed address,
    whatever the topic is; the topic, which is all that follows the
    first bar, only shows in the text returned for a reply with status
    200. *)
Theorem notification_splits_at_first_bar (W : world) (T : server_texts)
        (message topic : string) (upstream : post_outcome) :
  free_of "|" message ->
  snd (send_notification W T (JStr (message ++ "|" ++ topic)%string) upstream)
  = [Post_data "https://ntfy.sh/athlour" (PyStr.strip message)]
  /\ forall body,
      upstream = reply 200 body ->
      fst (send_notification W T (JStr (message ++ "|" ++ topic)%string) upstream)
      = Ret (check_mark T ++ " Notification sent to '" ++ PyStr.strip topic
             ++ "': " ++ PyStr.strip message)%string.
Proof.
  intros H. cbn [append].
  rewrite (send_notification_split W T message topic upstream H).
  split; [reflexivity|]. intros body ->. reflexivity.
Qed.

(** What [send_notification] lets pass. *)
Lemma send_notification_raises (W : world) (T : server_texts)
      (notification_input : json) (upstream : post_outcome) (e : pyexn) :
  fst (send_notification W T notification_input upstream) = Raise e ->
  e = KeyboardInterrupt /\ upstream = PostRaises KeyboardInterrupt.
Proof.
  unfold send_notification.
  set (text := fmt W match notification_input with
                     | JList l => JStr (join " " (map (fmt W) l))
                     | v => v
                     end).
  destruct (split1_cases "|" text) as [[_ ->] | (m & t & _ & _ & ->)].
  - intros H. discriminate H.
  - unfold request, sbind, catching, sret.
    destruct upstream as [r|e0].
    + destruct (status_code r =? 200)%Z; cbn; intros H; discriminate H.
    + destruct e0; cbn; intros H; try discriminate H.
      injection H as <-. now split.
Qed.

(** X13. [send_notification] swallows every [Exception]: whatever it is
    given and whatever the request meets, nothing leaves it but the
    [KeyboardInterrupt] of an interrupted request, and it makes at most
    one request. *)
Theorem send_notification_never_fails (W : world) (T : server_texts)
        (notification_input : json) (upstream : post_outcome) :
  (forall e, fst (send_notification W T notification_input upstream) = Raise e ->
             e = KeyboardInterrupt /\ upstream = PostRaises KeyboardInterrupt)
  /\ length (snd (send_notification W T notification_input upstream)) <= 1.
Proof.
  split; [apply send_notification_raises|].
  unfold send_notification.
  set (text := fmt W match notification_input with
                     | JList l => JStr (join " " (map (fmt W) l))
                     | v => v
                     end).
  destruct (split1_cases "|" text) as [[_ ->] | (m & t & _ & _ & ->)].
  - cbn. lia.
  - unfold request, sbind, catching, sret.
    destruct upstream as [r|e0].
    + destruct (status_code r =? 200)%Z; cbn; lia.
    + destruct e0; cbn; lia.
Qed.

(** *** [get_weather] *)

Section Weather.

Local Open Scope string_scope.

Variable W : world.

Lemma get_weather_url (city : json) (upstream : post_outcome) :
  snd (get_weather W city upstream) = [Get (weather_url (fmt W city))].
Proof.
  unfold get_weather, request, sbind, slift, sret. cbn [PyStr.is_empty api_key].
  assert (Hurl : "http://api.openweathermap.org/data/2.5/weather?q="
                   ++ fmt W city ++ "&appid=" ++ api_key ++ "&units=metric"
                 = weather_url (fmt W city)) by reflexivity.
  rewrite Hurl. generalize (weather_url (fmt W city)). intros url.
  destruct upstream as [r|e]; [|reflexivity].
  repeat match goal with
         | |- context [match ?x with _ => _ end] =>
             match x with
             | context [match _ with _ => _ end] => fail 1
             | _ => destruct x; cbn [fst snd app]
             end
         end;
    reflexivity.
Qed.


End Weather.



(** *** The weather text and the connector's alert *)

Lemma sbind_ret_inv {A B} (m : Run A) (f : A -> Run B) (b : B) :
  fst (sbind m f) = Ret b -> exists a, fst m = Ret a /\ fst (f a) = Ret b.
Proof.
  unfold sbind. destruct m as [[a|e] ev]; cbn; [|discriminate].
  destruct (f a) as [r ev'] eqn:Hf. cbn. intros ->. exists a. now rewrite Hf.
Qed.

Tactic Notation "sbind_step" hyp(H) ident(a) :=
  apply sbind_ret_inv in H;
  let E := fresh "E" in
  destruct H as (a & E & H); cbn beta in H.

Section WeatherAlert.

Local Open Scope string_scope.

Lemma occurs_in_context (word a b c : string) :
  occurs_ignoring_case word b -> occurs_ignoring_case word (a ++ b ++ c).
Proof.
  intros (pre & mid & post & -> & H).
  exists (a ++ pre), mid, (post ++ c). split; [|exact H].
  now rewrite !append_assoc.
Qed.

(** When the alert fires, a request to the tool gateway follows that
    asks for a notification with the text and the topic weather_alerts. *)
Lemma alert_policy_notifies (W : world) (text : string) (h : history) :
  (exists k, In k ALERT_KEYWORDS /\ occurs_ignoring_case k text) ->
  exists id,
    In (Post MCP_URL
          (mcp_payload id (JStr "send_notification")
             (JObj [("notification_input", JStr (text ++ "|weather_alerts"))]))
          60)
       (snd (alert_policy W (JStr "get_weather") (JStr text) h)).
Proof.
  intros Hk. apply alert_keyword_iff in Hk.
  exists (Py.str_of_int (clock W (length (h ++ [Log Weather_alert_detected])%list))).
  unfold alert_policy.
  rewrite (proj2 (eq_str_iff (JStr "get_weather") "get_weather") eq_refl).
  rewrite (bind_ret _ _ h (PyStr.lower text) []) by reflexivity.
  unfold after. rewrite app_nil_r. cbn [app snd]. rewrite Hk.
  rewrite (bind_ret _ _ h tt [Log Weather_alert_detected]) by reflexivity.
  unfold after. cbn [snd fmt]. right.
  apply bind_events_l.
  rewrite call_mcp_tool_payload. unfold after. cbn [snd]. right.
  apply mcp_attempts_first_post.
Qed.

Lemma get_weather_mentions_city (W : world) (city : json) (r : response)
      (text : string) :
  status_code r = 200%Z ->
  fst (get_weather W city (PostReturns r)) = Ret text ->
  exists a b, text = a ++ fmt W city ++ b.
Proof.
  intros Hstatus H.
  unfold get_weather in H. cbn [PyStr.is_empty api_key] in H.
  sbind_step H reply.
  injection E as <-. rewrite Hstatus in H. cbn [Z.eqb Pos.eqb negb] in H.
  sbind_step H data. sbind_step H main. sbind_step H both.
  destruct (Py.truthy both).
  - sbind_step H main'. sbind_step H temp. sbind_step H weather.
    sbind_step H first. sbind_step H description. sbind_step H lowered.
    unfold weather_info in H.
    destruct (PyStr.contains "rain" lowered); injection H as <-.
    + exists "The current temperature in ". eexists.
      rewrite <- append_assoc. f_equal.
      rewrite <- append_assoc. reflexivity.
    + exists "The current temperature in ". eexists. reflexivity.
  - injection H as <-.
    exists "Unable to fetch weather for ". eexists. reflexivity.
Qed.

End WeatherAlert.

(** X15. The weather text and the alert.  The connector's alert policy
    asks for a notification on every text that [get_weather] returns
    with the umbrella advice, and on every text it returns for a reply
    with status 200 when the name of the city contains one of rain,
    drizzle, shower and storm, case ignored, whatever the weather is. *)
Theorem weather_text_raises_alert (Wserver Wconnector : world) (city : json)
        (r : response) (text : string) (h : history) :
  status_code r = 200%Z ->
  fst (get_weather Wserver city (PostReturns r)) = Ret text ->
  (exists a, text = (a ++ " Heavy rain expected. Carry an umbrella!")%string)
  \/ (exists k, In k ALERT_KEYWORDS
                /\ occurs_ignoring_case k (fmt Wserver city)) ->
  exists id,
    In (Post MCP_URL
          (mcp_payload id (JStr "send_notification")
             (JObj [("notification_input",
                     JStr (text ++ "|weather_alerts")%string)]))
          60)
       (snd (alert_policy Wconnector (JStr "get_weather") (JStr text) h)).
Proof.
  intros Hstatus Htext Hwhy. apply alert_policy_notifies.
  destruct Hwhy as [[a ->] | (k & Hk & Hoccurs)].
  - exists "rain"%string. split; [cbn; tauto|].
    exists (a ++ " Heavy ")%string, "rain"%string,
      " expected. Carry an umbrella!"%string.
    split; [|reflexivity]. symmetry. exact (append_assoc a " Heavy " _).
  - destruct (get_weather_mentions_city _ _ _ _ Hstatus Htext) as (a & b & ->).
    exists k. split; [exact Hk|]. now apply occurs_in_context.
Qed.


(** *** The JSON-RPC handler *)

Section Handler.

Local Open Scope string_scope.

Variable W : world.
Variable T : server_texts.

Lemma sbind_slift {A B} (r : result A) (a : A) (f : A -> Run B) :
  r = Ret a -> sbind (slift r) f = f a.
Proof. intros ->. unfold sbind, slift. now destruct (f a). Qed.

Lemma sbind_slift_raise {A B} (r : result A) (e : pyexn) (f : A -> Run B) :
  r = Raise e -> sbind (slift r) f = (Raise e, []).
Proof. now intros ->. Qed.

Lemma sbind_sret {A} (m : Run A) : sbind m (fun a => sret a) = m.
Proof.
  unfold sbind, sret. destruct m as [[a|e] ev]; [|reflexivity].
  now rewrite app_nil_r.
Qed.

Lemma sbind_ext {A B} (m : Run A) (f g : A -> Run B) :
  (forall a, f a = g a) -> sbind m f = sbind m g.
Proof.
  intros H. unfold sbind. destruct m as [[a|e] ev]; [|reflexivity].
  now rewrite H.
Qed.

Lemma sbind_assoc {A B C} (m : Run A) (f : A -> Run B) (g : B -> Run C) :
  sbind (sbind m f) g = sbind m (fun a => sbind (f a) g).
Proof.
  unfold sbind. destruct m as [[a|e] ev]; [|reflexivity].
  destruct (f a) as [[b|e] ev']; [|reflexivity].
  destruct (g b) as [r ev'']. now rewrite app_assoc.
Qed.

(** What the connector's request for the weather reaches. *)
Lemma handle_weather_call (id : string) (a : Dict.t) (upstream : post_outcome) :
  handle W T (mcp_payload id (JStr "get_weather") (JObj a)) upstream
  = sbind (get_weather W
             (match Dict.lookup "city" a with
              | Some city => city
              | None => JStr ""
              end) upstream)
          (fun result_text => sret (tool_reply (JStr id) result_text)).
Proof.
  unfold handle, mcp_payload.
  rewrite (sbind_slift _ (JStr "mcp/call_tool")) by reflexivity.
  cbn [Py.eq_str String.eqb Ascii.eqb Bool.eqb andb].
  rewrite (sbind_slift _ (JObj [("tool", JStr "get_weather");
                                ("arguments", JObj a)])) by reflexivity.
  rewrite (sbind_slift _ (JStr "get_weather")) by reflexivity.
  rewrite (sbind_slift _ (JObj a)) by reflexivity.
  cbn [Py.eq_str String.eqb Ascii.eqb Bool.eqb andb].
  rewrite (sbind_slift (Py.get (JObj a) "city" (JStr ""))
             (match Dict.lookup "city" a with
              | Some city => city
              | None => JStr ""
              end)) by reflexivity.
  apply sbind_ext. intros t.
  now rewrite (sbind_slift _ (JStr id)) by reflexivity.
Qed.

(** What the connector's request for a notification reaches. *)
Lemma handle_notification_call (id : string) (a : Dict.t)
      (upstream : post_outcome) :
  handle W T (mcp_payload id (JStr "send_notification") (JObj a)) upstream
  = sbind (send_notification W T
             (match Dict.lookup "notification_input" a with
              | Some notification_input => notification_input
              | None => JStr ""
              end) upstream)
          (fun result_text => sret (tool_reply (JStr id) result_text)).
Proof.
  unfold handle, mcp_payload.
  rewrite (sbind_slift _ (JStr "mcp/call_tool")) by reflexivity.
  cbn [Py.eq_str String.eqb Ascii.eqb Bool.eqb andb].
  rewrite (sbind_slift _ (JObj [("tool", JStr "send_notification");
                                ("arguments", JObj a)])) by reflexivity.
  rewrite (sbind_slift _ (JStr "send_notification")) by reflexivity.
  rewrite (sbind_slift _ (JObj a)) by reflexivity.
  cbn [Py.eq_str String.eqb Ascii.eqb Bool.eqb andb].
  rewrite (sbind_slift (Py.get (JObj a) "notification_input" (JStr ""))
             (match Dict.lookup "notification_input" a with
              | Some notification_input => notification_input
              | None => JStr ""
              end)) by reflexivity.
  apply sbind_ext. intros t.
  now rewrite (sbind_slift _ (JStr id)) by reflexivity.
Qed.

(** A call of one of the two tools whose arguments are no object dies
    of [AttributeError] before the tool is reached. *)
Lemma handle_refuses (id : string) (tool args : json)
      (upstream : post_outcome) :
  tool = JStr "get_weather" \/ tool = JStr "send_notification" ->
  (forall a, args <> JObj a) ->
  handle W T (mcp_payload id tool args) upstream = (Raise AttributeError, []).
Proof.
  intros Htool Hargs.
  assert (Hget : forall key default,
             Py.get args key default = Raise AttributeError).
  { intros key default. destruct args; try reflexivity. now destruct (Hargs members). }
  unfold handle, mcp_payload.
  rewrite (sbind_slift _ (JStr "mcp/call_tool")) by reflexivity.
  cbn [Py.eq_str String.eqb Ascii.eqb Bool.eqb andb].
  rewrite (sbind_slift _ (JObj [("tool", tool); ("arguments", args)]))
    by reflexivity.
  rewrite (sbind_slift _ tool) by reflexivity.
  rewrite (sbind_slift _ args) by reflexivity.
  destruct Htool as [-> | ->];
    cbn [Py.eq_str String.eqb Ascii.eqb Bool.eqb andb];
    rewrite (sbind_slift_raise _ AttributeError (fun _ => _)) by apply Hget;
    reflexivity.
Qed.

Lemma handle_replies (payload : json) (upstream : post_outcome)
      (response : json) :
  fst (handle W T payload upstream) = Ret response ->
  exists id,
    (exists result_text, response = tool_reply id result_text)
    \/ response = JObj [("jsonrpc", JStr "2.0"); ("id", id);
                        ("result", JObj [("tools", tool_dumps T)])]
    \/ response = error_reply id (-32601) "Unknown method".
Proof.
  intros H. unfold handle in H.
  sbind_step H method.
  destruct (Py.eq_str method "mcp/call_tool").
  - sbind_step H params. sbind_step H tool. sbind_step H args.
    sbind_step H result_text. sbind_step H id.
    injection H as <-. exists id. left. now exists result_text.
  - destruct (Py.eq_str method "mcp/list_tools").
    + sbind_step H id. injection H as <-. exists id. right. now left.
    + sbind_step H id. injection H as <-. exists id. right. now right.
Qed.

Lemma not_Exception (e : pyexn) : is_Exception e = false -> e = KeyboardInterrupt.
Proof. destruct e; cbn; congruence. Qed.

End Handler.

(** X16. The replies of the server and the connector's reading of them.
    Whatever the request is, and whatever the tool meets, the connector's
    extraction of the result text does not raise on a reply of the
    handler: it finds a text, which is empty for every reply that is
    not the result of a tool call. *)
Theorem server_replies_are_readable (W : world) (T : server_texts)
        (method : string) (get_json : result json) (upstream : post_outcome)
        (answer : json) (status : Z) :
  fst (mcp_http_handler W T method get_json upstream) = Ret (answer, status) ->
  exists text, result_text answer = Ret (JStr text).
Proof.
  unfold mcp_http_handler.
  destruct (String.eqb method "GET").
  { intros H. injection H as <- _. now exists ""%string. }
  destruct get_json as [payload|e].
  2:{ destruct (is_Exception e); intros H; [|discriminate H].
      injection H as <- _. now exists ""%string. }
  unfold catching.
  destruct (sbind (handle W T payload upstream) _) as [[[response code]|e] ev]
    eqn:Hrun.
  - cbn [fst]. intros H. injection H as -> ->.
    assert (Hfst : fst (sbind (handle W T payload upstream)
                          (fun response => sret (response, 200%Z)))
                   = Ret (answer, status)) by now rewrite Hrun.
    apply sbind_ret_inv in Hfst. destruct Hfst as (response & Hhandle & Hret).
    injection Hret as -> _.
    destruct (handle_replies W T _ _ _ Hhandle)
      as (id & [[t ->] | [-> | ->]]).
    + now exists t.
    + now exists ""%string.
    + now exists ""%string.
  - destruct (is_Exception e); [|intros H; discriminate H].
    unfold sbind, did, slift, sret.
    destruct (Py.get payload "id" JNull) as [id|e'];
      cbn [fst]; intros H; [|discriminate H].
    injection H as <- _. now exists ""%string.
Qed.

(** X17. What leaves the handler.  An exception leaves the view function
    in two cases only: a [KeyboardInterrupt], and the [AttributeError]
    of a request body that is JSON but no object, which is raised once
    more while the error reply is built, so that no JSON-RPC error is
    returned for it. *)
Theorem handler_failures (W : world) (T : server_texts) (method : string)
        (get_json : result json) (upstream : post_outcome) :
  (forall e,
      fst (mcp_http_handler W T method get_json upstream) = Raise e ->
      e = KeyboardInterrupt
      \/ (e = AttributeError
          /\ exists payload, get_json = Ret payload
                             /\ forall d, payload <> JObj d))
  /\ (forall payload,
         get_json = Ret payload -> (forall d, payload <> JObj d) ->
         method <> "GET"%string ->
         mcp_http_handler W T method get_json upstream
         = (Raise AttributeError, [Print_traceback])).
Proof.
  split.
  - unfold mcp_http_handler.
    destruct (String.eqb method "GET"); [intros e H; discriminate H|].
    destruct get_json as [payload|e0].
    2:{ destruct (is_Exception e0) eqn:He0; intros e H; [discriminate H|].
        injection H as <-. left. now apply not_Exception. }
    unfold catching.
    destruct (sbind (handle W T payload upstream) _) as [[[response code]|e0] ev];
      [intros e H; discriminate H|].
    destruct (is_Exception e0) eqn:He0.
    2:{ intros e H. injection H as <-. left. now apply not_Exception. }
    unfold sbind, did, slift, sret.
    destruct payload; cbn; intros e H; try discriminate H;
      injection H as <-; right; (split; [reflexivity|]);
      eexists; (split; [reflexivity|]); intros ?; discriminate.
  - intros payload -> Hpayload Hmethod.
    apply String.eqb_neq in Hmethod.
    unfold mcp_http_handler. rewrite Hmethod.
    assert (Hget : forall key default,
               Py.get payload key default = Raise AttributeError).
    { intros key default. destruct payload; try reflexivity.
      now destruct (Hpayload members). }
    unfold handle. rewrite (sbind_slift_raise _ AttributeError (fun _ => _))
      by apply Hget.
    unfold catching, sbind, did, slift, sret. cbn [is_Exception].
    now rewrite Hget.
Qed.

Section RoundTrips.

Local Open Scope string_scope.

Variable W : world.
Variable T : server_texts.

(** The handler on a call that [handle] answers. *)
Lemma handler_answers (payload : json) (upstream : post_outcome)
      (text : string) (id : json) (effects : list effect) (method : string) :
  method <> "GET" ->
  handle W T payload upstream = (Ret (tool_reply id text), effects) ->
  mcp_http_handler W T method (Ret payload) upstream
  = (Ret (tool_reply id text, 200%Z), effects).
Proof.
  intros Hmethod Hhandle. apply String.eqb_neq in Hmethod.
  unfold mcp_http_handler. rewrite Hmethod, Hhandle.
  unfold catching, sbind, sret. now rewrite app_nil_r.
Qed.

Lemma sbind_run {A B} (m : Run A) (f : A -> Run B) (a : A) (ev : list effect) :
  m = (Ret a, ev) -> sbind m f = (fst (f a), (ev ++ snd (f a))%list).
Proof. intros ->. unfold sbind. now destruct (f a). Qed.

End RoundTrips.

(** X18. A weather call, from the connector's request to the text it
    reads.  For the request that [call_mcp_tool] sends for [get_weather]
    with a city, the handler asks the weather service for that city
    and, when [get_weather] returns a text, answers with status 200 and
    a reply from which the connector's extraction reads that very
    text. *)
Theorem weather_call_round_trip (W : world) (T : server_texts) (id : string)
        (city : json) (upstream : post_outcome) (text : string) :
  fst (get_weather W city upstream) = Ret text ->
  exists answer,
    mcp_http_handler W T "POST"
      (Ret (mcp_payload id (JStr "get_weather") (JObj [("city", city)])))
      upstream
    = (Ret (answer, 200%Z), [Get (weather_url (fmt W city))])
    /\ result_text answer = Ret (JStr text)
    /\ Py.item answer "id" = Ret (JStr id).
Proof.
  intros Htext. exists (tool_reply (JStr id) text).
  split; [|split; reflexivity].
  apply handler_answers; [discriminate|].
  rewrite handle_weather_call. cbn [Dict.lookup String.eqb Ascii.eqb Bool.eqb].
  rewrite (sbind_run (get_weather W city upstream) _ text
             [Get (weather_url (fmt W city))]).
  - cbn [sret fst snd]. now rewrite app_nil_r.
  - rewrite <- Htext, <- (get_weather_url W city upstream).
    now destruct (get_weather W city upstream).
Qed.

(** X19. A notification call, from the connector's request to the text
    it reads.  For the request that [call_mcp_tool] sends for
    [send_notification] with a message free of bars, a bar and a
    topic, as the connector builds it for the topics general_alerts
    and weather_alerts, the handler posts the stripped message to the
    fixed address and answers with status 200, whatever that post
    meets short of a keyboard interrupt; when the post is answered with
    status 200, the connector's extraction reads the text that names
    the topic and the message. *)
Theorem notification_call_round_trip (W : world) (T : server_texts)
        (id message topic : string) (upstream : post_outcome) :
  free_of "|" message ->
  upstream <> PostRaises KeyboardInterrupt ->
  exists answer,
    mcp_http_handler W T "POST"
      (Ret (mcp_payload id (JStr "send_notification")
              (JObj [("notification_input",
                      JStr (message ++ "|" ++ topic)%string)])))
      upstream
    = (Ret (answer, 200%Z),
       [Post_data "https://ntfy.sh/athlour" (PyStr.strip message)])
    /\ forall body,
        upstream = reply 200 body ->
        result_text answer
        = Ret (JStr (check_mark T ++ " Notification sent to '"
                     ++ PyStr.strip topic ++ "': "
                     ++ PyStr.strip message)%string).
Proof.
  intros Hfree Hup.
  pose proof (send_notification_split W T message topic upstream Hfree) as Hsend.
  set (text := match upstream with
               | PostReturns r =>
                   if (status_code r =? 200)%Z
                   then (check_mark T ++ " Notification sent to '"
                         ++ PyStr.strip topic ++ "': "
                         ++ PyStr.strip message)%string
                   else (cross_mark T ++ " Failed to send notification (HTTP "
                         ++ Py.str_of_int (status_code r) ++ ")")%string
               | PostRaises e =>
                   ("Error sending notification: " ++ str_exn T e)%string
               end).
  assert (Hrun : send_notification W T (JStr (message ++ String "|" topic))
                   upstream
                 = (Ret text, [Post_data NTFY_URL (PyStr.strip message)])).
  { rewrite Hsend. unfold text. destruct upstream as [r|e].
    - now destruct (status_code r =? 200)%Z.
    - destruct e; try reflexivity. now destruct Hup. }
  exists (tool_reply (JStr id) text). split.
  - apply handler_answers; [discriminate|].
    rewrite handle_notification_call.
    cbn [Dict.lookup String.eqb Ascii.eqb Bool.eqb append].
    rewrite (sbind_run _ _ _ _ Hrun).
    cbn [sret fst snd]. rewrite app_nil_r. reflexivity.
  - intros body ->. reflexivity.
Qed.


(** *** Closing braces and the parser *)

Section ClosingBraces.

Local Open Scope string_scope.

Variable c : ascii.

Lemma occ_tail x s : count_char c s <= count_char c (String x s).
Proof. cbn. lia. Qed.

Lemma skip_ws_occ (s : string) : count_char c (Json.skip_ws s) <= count_char c s.
Proof.
  induction s as [|x s IH]; cbn [Json.skip_ws]; [lia|].
  destruct (Json.is_ws x); [|lia]. pose proof (occ_tail x s). lia.
Qed.

Lemma scan_string_occ (lossy : bool) :
  forall n s v r,
    String.length s <= n -> Json.scan_string lossy s = Some (v, r) ->
    count_char c r <= count_char c s.
Proof.
  induction n as [|n IH]; intros s v r Hn H.
  - destruct s; [discriminate | cbn in Hn; lia].
  - destruct s as [|x s]; [discriminate|].
    cbn [Json.scan_string] in H. cbv zeta in H. cbn [String.length] in Hn.
    pose proof (occ_tail x s) as Hx.
    destruct (PyStr.code x =? 34)%nat; [injection H as _ <-; lia|].
    destruct (PyStr.code x <? 32)%nat; [discriminate|].
    destruct (PyStr.code x =? 92)%nat.
    + destruct s as [|e s]; [discriminate|].
      cbn [String.length] in Hn. pose proof (occ_tail e s) as He.
      destruct (PyStr.code e =? 117)%nat.
      * destruct s as [|h1 [|h2 [|h3 [|h4 t]]]]; try discriminate.
        cbn [String.length] in Hn.
        destruct (Json.hex4 h1 h2 h3 h4) as [cp|]; [|discriminate].
        pose proof (occ_tail h1 (String h2 (String h3 (String h4 t)))).
        pose proof (occ_tail h2 (String h3 (String h4 t))).
        pose proof (occ_tail h3 (String h4 t)).
        pose proof (occ_tail h4 t).
        destruct (cp <? 256)%nat.
        { apply cons_str_inv in H. destruct H as [v' H].
          apply IH in H; lia. }
        destruct lossy; [|discriminate].
        apply cons_str_inv in H. destruct H as [v' H].
        destruct (Json.high_surrogate cp); [|apply IH in H; lia].
        destruct t as [|b [|u [|l1 [|l2 [|l3 [|l4 t']]]]]];
          try (apply IH in H; cbn [String.length] in *; lia).
        cbn [String.length] in Hn.
        pose proof (occ_tail b (String u (String l1 (String l2
                      (String l3 (String l4 t')))))).
        pose proof (occ_tail u (String l1 (String l2 (String l3 (String l4 t'))))).
        pose proof (occ_tail l1 (String l2 (String l3 (String l4 t')))).
        pose proof (occ_tail l2 (String l3 (String l4 t'))).
        pose proof (occ_tail l3 (String l4 t')).
        pose proof (occ_tail l4 t').
        destruct (Json.low_escape b u l1 l2 l3 l4); apply IH in H;
          cbn [String.length]; lia.
      * destruct (Json.simple_escape e) as [y|]; [|discriminate].
        apply cons_str_inv in H. destruct H as [v' H].
        apply IH in H; lia.
    + apply cons_str_inv in H. destruct H as [v' H].
      apply IH in H; lia.
Qed.

Lemma scan_digits_occ :
  forall s acc k, count_char c (snd (Json.scan_digits acc k s)) <= count_char c s.
Proof.
  induction s as [|x s IH]; intros acc k; cbn [Json.scan_digits]; [cbn; lia|].
  destruct (PyStr.isdigit x); cbn [snd]; [|lia].
  specialize (IH (acc * 10 + Z.of_nat (PyStr.code x - 48))%Z (S k)).
  pose proof (occ_tail x s). lia.
Qed.

Lemma scan_int_occ s v r : Json.scan_int s = Some (v, r) -> count_char c r <= count_char c s.
Proof.
  destruct s as [|x s]; [discriminate|]. unfold Json.scan_int.
  pose proof (occ_tail x s) as Hx.
  destruct (PyStr.code x =? 48)%nat; [intros H; injection H as _ <-; lia|].
  destruct (PyStr.isdigit x) eqn:Hd; [|discriminate].
  cbn [Json.scan_digits]. rewrite Hd.
  pose proof (scan_digits_occ s (0 * 10 + Z.of_nat (PyStr.code x - 48))%Z 1)
    as Hocc.
  destruct (Json.scan_digits _ 1 s) as [[v' k'] r'].
  intros H. injection H as _ <-. cbn [snd] in Hocc. lia.
Qed.

Lemma scan_frac_occ i s m k r :
  Json.scan_frac i s = Some (m, k, r) -> count_char c r <= count_char c s.
Proof.
  destruct s as [|x s]; [discriminate|]. unfold Json.scan_frac.
  pose proof (occ_tail x s) as Hx.
  destruct (PyStr.code x =? 46)%nat; [|discriminate].
  pose proof (scan_digits_occ s i 0) as Hocc.
  destruct (Json.scan_digits i 0 s) as [[v' k'] r'].
  destruct k'; [discriminate|].
  intros H. injection H as _ _ <-. cbn [snd] in Hocc. lia.
Qed.

Lemma scan_exp_occ s e r : Json.scan_exp s = Some (e, r) -> count_char c r <= count_char c s.
Proof.
  destruct s as [|x s]; [discriminate|]. unfold Json.scan_exp.
  pose proof (occ_tail x s) as Hx.
  destruct ((PyStr.code x =? 101)%nat || (PyStr.code x =? 69)%nat);
    [|discriminate].
  assert (Hsign : forall sign s1,
             count_char c s1 <= count_char c s ->
             (let '(v, k, r0) := Json.scan_digits 0 0 s1 in
              match k with
              | O => None
              | S _ => Some ((sign * v)%Z, r0)
              end) = Some (e, r) ->
             count_char c r <= count_char c (String x s)).
  { intros sign s1 Hs1.
    pose proof (scan_digits_occ s1 0 0) as Hocc.
    destruct (Json.scan_digits 0 0 s1) as [[v' k'] r'].
    destruct k'; [discriminate|].
    intros H. injection H as _ <-. cbn [snd] in Hocc. lia. }
  destruct s as [|g s']; [apply (Hsign 1%Z); lia|].
  pose proof (occ_tail g s').
  destruct (PyStr.code g =? 45)%nat; [apply Hsign; lia|].
  destruct (PyStr.code g =? 43)%nat; apply Hsign; lia.
Qed.

Lemma scan_number_occ s v r : Json.scan_number s = Some (v, r) -> count_char c r <= count_char c s.
Proof.
  unfold Json.scan_number.
  assert (Hbody : forall negative s0,
             count_char c s0 <= count_char c s ->
             match Json.scan_int s0 with
             | Some (i, r0) =>
                 let '(m, fd, r1, has_frac) :=
                   match Json.scan_frac i r0 with
                   | Some (m, k, r) => (m, k, r, true)
                   | None => (i, 0, r0, false)
                   end in
                 match Json.scan_exp r1 with
                 | Some (e, r2) =>
                     Some (JFloat (Decimal negative m (e - Z.of_nat fd)), r2)
                 | None =>
                     if has_frac
                     then Some (JFloat (Decimal negative m (- Z.of_nat fd)), r1)
                     else Some (JInt (if negative then (- i)%Z else i), r1)
                 end
             | None => None
             end = Some (v, r) ->
             count_char c r <= count_char c s).
  { intros negative s0 Hs0.
    destruct (Json.scan_int s0) as [[i r0]|] eqn:Hint; [|discriminate].
    apply scan_int_occ in Hint.
    destruct (Json.scan_frac i r0) as [[[m k] r1]|] eqn:Hfrac.
    - apply scan_frac_occ in Hfrac.
      destruct (Json.scan_exp r1) as [[e r2]|] eqn:Hexp.
      + apply scan_exp_occ in Hexp. intros H. injection H as _ <-. lia.
      + intros H. injection H as _ <-. lia.
    - destruct (Json.scan_exp r0) as [[e r2]|] eqn:Hexp.
      + apply scan_exp_occ in Hexp. intros H. injection H as _ <-. lia.
      + intros H. injection H as _ <-. lia. }
  destruct s as [|x s']; [apply Hbody; lia|].
  pose proof (occ_tail x s').
  destruct (PyStr.code x =? 45)%nat; apply Hbody; lia.
Qed.

Lemma drop_occ n : forall s, count_char c (Json.drop n s) <= count_char c s.
Proof.
  induction n as [|n IH]; intros s; [cbn; lia|].
  destruct s as [|x s]; [cbn; lia|]. cbn [Json.drop].
  specialize (IH s). pose proof (occ_tail x s). lia.
Qed.

Lemma keyword_occ w v s v' r :
  Json.keyword w v s = Some (v', r) -> count_char c r <= count_char c s.
Proof.
  unfold Json.keyword. destruct (prefix w s); [|discriminate].
  intros H. injection H as _ <-. apply drop_occ.
Qed.

Lemma scan_scalar_occ s v r :
  Json.scan_scalar s = Some (v, r) ->
  count_char c r <= count_char c s /\ forall d, v <> JObj d.
Proof.
  unfold Json.scan_scalar, Json.first_of.
  repeat match goal with
         | |- match Json.keyword ?w ?x s with _ => _ end = _ -> _ =>
             let E := fresh "E" in
             destruct (Json.keyword w x s) as [[? ?]|] eqn:E;
             [ intros H; injection H as <- <-;
               pose proof E as E';
               apply keyword_occ in E; split; [exact E|];
               unfold Json.keyword in E';
               destruct (prefix w s); [|discriminate E'];
               injection E' as <- _; discriminate
             | ]
         end.
  intros H. split; [now apply scan_number_occ in H|].
  revert H. unfold Json.scan_number.
  destruct (match s with
            | "" => (false, s)
            | String x s' =>
                if (PyStr.code x =? 45)%nat then (true, s') else (false, s)
            end) as [negative s0].
  destruct (Json.scan_int s0) as [[i r0]|]; [|discriminate].
  destruct (match Json.scan_frac i r0 with
            | Some (m, k, r1) => (m, k, r1, true)
            | None => (i, 0, r0, false)
            end) as [[[m fd] r1] has_frac].
  destruct (Json.scan_exp r1) as [[e r2]|].
  - intros H. injection H as <- _. discriminate.
  - destruct has_frac; intros H; injection H as <- _; discriminate.
Qed.

Lemma lookup_set (key k : string) (v : json) (d : Dict.t) :
  Dict.lookup k (Dict.set key v d)
  = if String.eqb key k then Some v else Dict.lookup k d.
Proof.
  induction d as [|[k0 w] d IH]; cbn [Dict.set Dict.lookup].
  - reflexivity.
  - destruct (String.eqb k0 key) eqn:E0.
    + apply String.eqb_eq in E0. subst k0. cbn [Dict.lookup].
      now destruct (String.eqb key k).
    + cbn [Dict.lookup]. destruct (String.eqb k0 k) eqn:E1.
      * apply String.eqb_eq in E1. subst k0.
        rewrite String.eqb_sym in E0. now rewrite E0.
      * exact IH.
Qed.

End ClosingBraces.

Ltac ws_occ :=
  repeat match goal with
         | E : Json.skip_ws ?s = _ |- _ =>
             let H := fresh "Hws" in
             pose proof (skip_ws_occ "}" s) as H; rewrite E in H;
             cbn [count_char] in H; revert E
         end;
  intros.

(** Reading an object uses up a closing brace; reading the members of
    an object uses up one for the object and one more for every member
    that is an object itself. *)
Lemma parse_braces (lossy : bool) :
  forall fuel,
    (forall s v r, Json.parse_value lossy fuel s = Json.Ok v r ->
                   count_char "}" r <= count_char "}" s
                   /\ forall d, v = JObj d ->
                                count_char "}" r < count_char "}" s)
    /\ (forall acc s v r,
           Json.parse_members lossy fuel acc s = Json.Ok v r ->
           count_char "}" r < count_char "}" s
           /\ exists d,
               v = JObj d
               /\ forall k x,
                   Dict.lookup k d = Some (JObj x) ->
                   Dict.lookup k acc = Some (JObj x)
                   \/ count_char "}" r + 2 <= count_char "}" s)
    /\ (forall acc s v r, Json.parse_elements lossy fuel acc s = Json.Ok v r ->
                          count_char "}" r <= count_char "}" s
                          /\ forall d, v <> JObj d).
Proof.
  induction fuel as [|fuel (IHv & IHm & IHe)];
    [repeat split; intros; discriminate|].
  split; [|split].
  - intros s v r H. cbn [Json.parse_value] in H.
    destruct s as [|x s']; [discriminate|].
    pose proof (occ_tail "}" x s') as Hx.
    destruct (Ascii.eqb x Json.quote).
    { destruct (Json.scan_string lossy s') as [[v0 r0]|] eqn:E; [|discriminate].
      injection H as <- <-.
      apply (scan_string_occ "}" _ _ _ _ _ (le_n _)) in E.
      split; [lia | discriminate]. }
    destruct (Ascii.eqb x "{").
    { destruct (Json.skip_ws s') as [|c1 r1] eqn:E; [discriminate|].
      ws_occ.
      destruct (Ascii.eqb c1 "}") eqn:E1.
      - injection H as _ <-. apply Ascii.eqb_eq in E1. subst c1.
        cbn [Ascii.eqb Bool.eqb] in Hws. split; [lia | intros; lia].
      - apply IHm in H. destruct H as [H _]. cbn [count_char] in H.
        rewrite E1 in H. split; [lia | intros; lia]. }
    destruct (Ascii.eqb x "[").
    { destruct (Json.skip_ws s') as [|c1 r1] eqn:E; [discriminate|].
      ws_occ.
      destruct (Ascii.eqb c1 "]").
      - injection H as <- <-.
        split; [lia | discriminate].
      - apply IHe in H. destruct H as [H Hno]. cbn [count_char] in H.
        split; [lia|]. intros d Hd. now destruct (Hno d). }
    destruct (Json.scan_scalar (String x s')) as [[v0 r0]|] eqn:E;
      [|discriminate].
    injection H as <- <-. apply (scan_scalar_occ "}") in E.
    destruct E as [E Hno]. split; [exact E|].
    intros d Hd. now destruct (Hno d).
  - intros acc s v r H. cbn [Json.parse_members] in H.
    destruct s as [|x s']; [discriminate|].
    pose proof (occ_tail "}" x s') as Hx.
    destruct (Ascii.eqb x Json.quote); [|discriminate].
    destruct (Json.scan_string lossy s') as [[key r0]|] eqn:Ekey; [|discriminate].
    apply (scan_string_occ "}" _ _ _ _ _ (le_n _)) in Ekey.
    destruct (Json.skip_ws r0) as [|c1 r1] eqn:E1; [discriminate|].
    destruct (Ascii.eqb c1 ":"); [|discriminate].
    destruct (Json.parse_value lossy fuel (Json.skip_ws r1)) as [v0 r2| |] eqn:Ev;
      try discriminate.
    apply IHv in Ev. destruct Ev as [Ev Hobj].
    pose proof (skip_ws_occ "}" r1) as Hr1.
    pose proof (occ_tail "}" c1 r1) as Hc1.
    destruct (Json.skip_ws r2) as [|c2 r3] eqn:E2; [discriminate|].
    ws_occ.
    destruct (Ascii.eqb c2 "}") eqn:Eclose.
    + injection H as <- <-. apply Ascii.eqb_eq in Eclose. subst c2.
      cbn [Ascii.eqb Bool.eqb] in Hws0.
      split; [lia|]. eexists. split; [reflexivity|].
      intros k y Hk. rewrite lookup_set in Hk.
      destruct (String.eqb key k); [|now left].
      injection Hk as ->. specialize (Hobj y eq_refl). right. lia.
    + destruct (Ascii.eqb c2 ","); [|discriminate].
      apply IHm in H. destruct H as (H & d & -> & Hd).
      pose proof (skip_ws_occ "}" r3) as Hr3.
      split; [lia|]. exists d. split; [reflexivity|].
      intros k y Hk. destruct (Hd k y Hk) as [Hacc | Hmore]; [|right; lia].
      rewrite lookup_set in Hacc.
      destruct (String.eqb key k); [|now left].
      injection Hacc as ->. specialize (Hobj y eq_refl). right. lia.
  - intros acc s v r H. cbn [Json.parse_elements] in H.
    destruct (Json.parse_value lossy fuel s) as [v0 r0| |] eqn:Ev; try discriminate.
    apply IHv in Ev. destruct Ev as [Ev _].
    destruct (Json.skip_ws r0) as [|x r1] eqn:E; [discriminate|].
    ws_occ.
    destruct (Ascii.eqb x "]").
    + injection H as <- <-.
      split; [lia | discriminate].
    + destruct (Ascii.eqb x ","); [|discriminate].
      apply IHe in H. destruct H as [H Hno].
      pose proof (skip_ws_occ "}" r1). pose proof (occ_tail "}" x r1).
      split; [lia | exact Hno].
Qed.

(** An object whose text has no closing brace but the last character
    has no member that is an object. *)
Lemma flat_block_members (body : string) (d : Dict.t) :
  free_of "}" body ->
  Json.loads_latin1 ("{" ++ body ++ "}") = Some (JObj d) ->
  forall k x, Dict.lookup k d <> Some (JObj x).
Proof.
  intros Hfree Hloads k x Hk.
  apply free_of_count in Hfree.
  assert (Hone : count_char "}" (body ++ "}") = 1)
    by (rewrite count_char_app, Hfree; reflexivity).
  unfold Json.loads_latin1, Json.read, Json.parse in Hloads.
  cbn [append Json.skip_ws Json.is_ws] in Hloads.
  change (Json.is_ws "{") with false in Hloads. cbv iota in Hloads.
  destruct (Json.parse_value true _ _) as [v r| |] eqn:Hparse; try discriminate.
  destruct (PyStr.is_empty (Json.skip_ws r)); [|discriminate].
  injection Hloads as ->.
  cbn [Json.parse_value Nat.add] in Hparse.
  change (Ascii.eqb "{" Json.quote) with false in Hparse.
  change (Ascii.eqb "{" "{") with true in Hparse. cbv iota in Hparse.
  destruct (Json.skip_ws (body ++ "}")) as [|c1 r1] eqn:E; [discriminate|].
  ws_occ.
  destruct (Ascii.eqb c1 "}") eqn:E1.
  - injection Hparse as <- _. discriminate Hk.
  - destruct (parse_braces true (2 * String.length (String "{" (body ++ "}"))))
      as (_ & Hm & _).
    apply Hm in Hparse. destruct Hparse as (_ & d' & Hd' & Hmembers).
    injection Hd' as <-.
    destruct (Hmembers k x Hk) as [Hnil | Hmore]; [discriminate Hnil|].
    cbn [count_char] in Hmore. rewrite E1 in Hmore. lia.
Qed.


(** *** Detected calls at the server *)

(** X20. What the detector can return.  The block that the detector reads
    ends at the first closing brace, so neither the name nor the
    arguments of a call it returns is ever a JSON object: the form
    with an arguments object, which the system instruction asks the
    model for, is never detected. *)
Theorem detected_call_has_no_object (text : string) (tool args : json) :
  detect_tool_call (JStr text) = Ret (tool, args) ->
  (forall d, tool <> JObj d) /\ (forall d, args <> JObj d).
Proof.
  intros Hdetect.
  assert (Hcases : (tool, args) = (JNull, JNull)
                   \/ (tool, args) <> (JNull, JNull)).
  { destruct tool; try (right; intros H; discriminate H).
    destruct args; try (right; intros H; discriminate H). now left. }
  destruct Hcases as [Hnone | Hcall].
  - injection Hnone as -> ->. split; intros d; discriminate.
  - destruct (detect_tool_call_block text tool args Hdetect Hcall)
      as (pre & body & rest & d & _ & _ & Hbody & Hloads & Hname & Hargs).
    split; intros x ->.
    + exact (flat_block_members body d Hbody Hloads "name"%string x Hname).
    + exact (flat_block_members body d Hbody Hloads "arguments"%string x Hargs).
Qed.

(** The handler on a call that dies in [handle]. *)
Lemma handler_internal_error (W : world) (T : server_texts) (d : Dict.t)
      (upstream : post_outcome) (e : pyexn) (effects : list effect)
      (method : string) :
  method <> "GET"%string ->
  is_Exception e = true ->
  handle W T (JObj d) upstream = (Raise e, effects) ->
  mcp_http_handler W T method (Ret (JObj d)) upstream
  = (Ret (error_reply
            (match Dict.lookup "id" d with Some id => id | None => JNull end)
            (-32000) ("Internal Server Error: " ++ str_exn T e)%string,
          500%Z),
     effects ++ [Print_traceback]).
Proof.
  intros Hmethod He Hhandle. apply String.eqb_neq in Hmethod.
  unfold mcp_http_handler. rewrite Hmethod, Hhandle.
  unfold catching, sbind, did, slift, sret. cbn [Py.get]. now rewrite He.
Qed.

(** X21. A detected call at the server.  When the detector returns a call
    of one of the two tools, the server answers the connector's request
    for it with status 500 and the JSON-RPC error -32000, and the tool
    makes no request: the arguments are no object, and reading the
    tool's argument from them raises [AttributeError]. *)
Theorem detected_call_is_refused (W : world) (T : server_texts)
        (text id : string) (tool args : json) (upstream : post_outcome) :
  detect_tool_call (JStr text) = Ret (tool, args) ->
  tool = JStr "get_weather" \/ tool = JStr "send_notification" ->
  mcp_http_handler W T "POST" (Ret (mcp_payload id tool args)) upstream
  = (Ret (error_reply (JStr id) (-32000)
            ("Internal Server Error: " ++ str_exn T AttributeError)%string,
          500%Z),
     [Print_traceback]).
Proof.
  intros Hdetect Htool.
  assert (Hargs : forall d, args <> JObj d).
  { intros d ->.
    assert (Hcall : (tool, JObj d) <> (JNull, JNull)) by discriminate.
    destruct (detect_tool_call_block text tool (JObj d) Hdetect Hcall)
      as (pre & body & rest & d' & _ & _ & Hbody & Hloads & _ & Hlookup).
    exact (flat_block_members body d' Hbody Hloads "arguments"%string d Hlookup). }
  unfold mcp_payload.
  rewrite (handler_internal_error W T _ upstream AttributeError []).
  - reflexivity.
  - discriminate.
  - reflexivity.
  - apply (handle_refuses W T id tool args upstream Htool Hargs).
Qed.

(** X22. A failure of the weather tool at the handler.  Unlike
    [send_notification], [get_weather] lets an exception pass: when it
    raises an [Exception], the handler answers the connector's request
    with status 500 and the JSON-RPC error -32000. *)
Theorem weather_failure_is_internal_error (W : world) (T : server_texts)
        (id : string) (city : json) (upstream : post_outcome) (e : pyexn) :
  fst (get_weather W city upstream) = Raise e ->
  is_Exception e = true ->
  mcp_http_handler W T "POST"
    (Ret (mcp_payload id (JStr "get_weather") (JObj [("city", city)])))
    upstream
  = (Ret (error_reply (JStr id) (-32000)
            ("Internal Server Error: " ++ str_exn T e)%string,
          500%Z),
     [Get (weather_url (fmt W city)); Print_traceback]).
Proof.
  intros Hraise He. unfold mcp_payload.
  rewrite (handler_internal_error W T _ upstream e
             [Get (weather_url (fmt W city))]).
  - reflexivity.
  - discriminate.
  - exact He.
  - fold (mcp_payload id (JStr "get_weather") (JObj [("city", city)])).
    rewrite handle_weather_call.
    cbn [Dict.lookup String.eqb Ascii.eqb Bool.eqb].
    pose proof (get_weather_url W city upstream) as Hurl.
    destruct (get_weather W city upstream) as [r ev].
    cbn [fst snd] in *. subst r ev. reflexivity.
Qed.

(** *** [call_tool] *)

Lemma sbind_raise_inv {A B} (m : Run A) (f : A -> Run B) (e : pyexn) :
  fst (sbind m f) = Raise e ->
  fst m = Raise e \/ exists a, fst m = Ret a /\ fst (f a) = Raise e.
Proof.
  unfold sbind. destruct m as [[a|e'] ev]; cbn;
    [|intros H; left; congruence].
  destruct (f a) as [r ev'] eqn:Hf. cbn. intros ->.
  right. exists a. now rewrite Hf.
Qed.

Lemma item_raises v key e : Py.item v key = Raise e -> is_Exception e = true.
Proof.
  destruct v as [| | | | | | |d]; cbn; try (intros H; now inversion H).
  destruct (Dict.lookup key d); intros H; now inversion H.
Qed.

Lemma lower_raises v e : Py.lower v = Raise e -> is_Exception e = true.
Proof. destruct v; cbn; intros H; now inversion H. Qed.

Lemma response_json_raises r e :
  response_json r = Raise e -> is_Exception e = true.
Proof.
  unfold response_json. destruct (Json.loads_latin1 (text r)); intros H; now inversion H.
Qed.

Ltac sraise_step H :=
  apply sbind_raise_inv in H; destruct H as [H | (? & _ & H)].

(** What [get_weather] raises is an [Exception] of its own, or what its
    request raised. *)
Lemma get_weather_raises (W : world) (city : json) (upstream : post_outcome)
      (e : pyexn) :
  fst (get_weather W city upstream) = Raise e ->
  is_Exception e = true \/ upstream = PostRaises e.
Proof.
  intros H. unfold get_weather in H. cbn [PyStr.is_empty api_key] in H.
  sraise_step H.
  { right. destruct upstream; cbn in H; congruence. }
  left.
  destruct (negb (status_code x =? 200)%Z).
  { sraise_step H; [now apply response_json_raises in H|].
    sraise_step H; [now apply get_raises in H | discriminate H]. }
  sraise_step H; [now apply response_json_raises in H|].
  sraise_step H; [now apply get_raises in H|].
  sraise_step H.
  { destruct (Py.truthy x1); [now apply get_raises in H | discriminate H]. }
  destruct (Py.truthy x2); [|discriminate H].
  sraise_step H; [now apply item_raises in H|].
  sraise_step H; [now apply item_raises in H|].
  sraise_step H; [now apply item_raises in H|].
  sraise_step H; [now apply item0_raises in H|].
  sraise_step H; [now apply item_raises in H|].
  sraise_step H; [now apply lower_raises in H|].
  destruct (PyStr.contains "rain" x8); discriminate H.
Qed.

(** X23. [call_tool] swallows every [Exception]: whatever name and
    arguments it is given and whatever the tool meets, nothing leaves
    it but the [KeyboardInterrupt] of an interrupted request, and what
    it returns is always one text content. *)
Theorem call_tool_never_fails (W : world) (T : server_texts)
        (name arguments : json) (upstream : post_outcome) :
  (forall e, fst (call_tool W T name arguments upstream) = Raise e ->
             e = KeyboardInterrupt /\ upstream = PostRaises KeyboardInterrupt)
  /\ (forall content,
         fst (call_tool W T name arguments upstream) = Ret content ->
         exists text, content = [TextContent "text" text]).
Proof.
  unfold call_tool.
  match goal with
  | |- context [catching ?m ?k] => set (body := m); set (handler := k)
  end.
  assert (Hret : forall content, fst body = Ret content ->
                                 exists text, content = [TextContent "text" text]).
  { intros content H. unfold body in H.
    destruct (Py.eq_str name "get_weather").
    - sbind_step H city. sbind_step H result. injection H as <-. eauto.
    - destruct (Py.eq_str name "send_notification").
      + sbind_step H notification_input. sbind_step H result.
        injection H as <-. eauto.
      + injection H as <-. eauto. }
  assert (Hraise : forall e, fst body = Raise e -> is_Exception e = false ->
                             upstream = PostRaises KeyboardInterrupt).
  { intros e H He. apply not_Exception in He. subst e. unfold body in H.
    destruct (Py.eq_str name "get_weather").
    - sraise_step H; [now apply get_raises in H|].
      sraise_step H; [|discriminate H].
      destruct (get_weather_raises W _ _ _ H) as [He | He];
        [discriminate He | exact He].
    - destruct (Py.eq_str name "send_notification"); [|discriminate H].
      sraise_step H; [now apply get_raises in H|].
      sraise_step H; [|discriminate H].
      now destruct (send_notification_raises W T _ _ _ H). }
  unfold catching.
  destruct body as [[content|e0] ev] eqn:Hbody; cbn [fst] in *.
  - split; [intros e H; discriminate H|]. intros c H. injection H as <-.
    now apply Hret.
  - destruct (is_Exception e0) eqn:He0.
    + unfold handler, sbind, did, sret. cbn [fst].
      split; [intros e H; discriminate H|]. intros c H. injection H as <-.
      eauto.
    + cbn [fst]. split; [|intros c H; discriminate H].
      intros e H. injection H as <-.
      split; [now apply not_Exception | now apply (Hraise e0)].
Qed.

(** X24. The two dispatchers.  Whenever the JSON-RPC handler answers a
    call of one of the two tools with a result, [call_tool], the
    dispatcher registered with the MCP server, returns the same text
    for the same tool and arguments and makes the same requests. *)
Theorem call_tool_agrees_with_handle (W : world) (T : server_texts)
        (id : string) (tool args : json) (upstream : post_outcome)
        (answer : json) :
  tool = JStr "get_weather" \/ tool = JStr "send_notification" ->
  fst (handle W T (mcp_payload id tool args) upstream) = Ret answer ->
  exists text,
    answer = tool_reply (JStr id) text
    /\ call_tool W T tool args upstream
       = (Ret [TextContent "text" text],
          snd (handle W T (mcp_payload id tool args) upstream)).
Proof.
  intros Htool Hreply.
  assert (Hargs : exists a, args = JObj a).
  { destruct args as [| | | | | | |a]; try (exfalso;
      rewrite (handle_refuses W T id tool _ upstream Htool) in Hreply;
      [discriminate Hreply | intros a; discriminate]).
    now exists a. }
  destruct Hargs as [a ->].
  destruct Htool as [-> | ->].
  - rewrite handle_weather_call in Hreply |- *.
    unfold call_tool.
    cbn [Py.eq_str String.eqb Ascii.eqb Bool.eqb andb].
    rewrite (sbind_slift (Py.get (JObj a) "city" (JStr ""))
               (match Dict.lookup "city" a with
                | Some city => city
                | None => JStr ""%string
                end)) by reflexivity.
    destruct (get_weather W _ upstream) as [[text|e] ev];
      [|discriminate Hreply].
    injection Hreply as <-. exists text. split; [reflexivity|].
    unfold sbind, sret, catching. cbn [fst snd]. reflexivity.
  - rewrite handle_notification_call in Hreply |- *.
    unfold call_tool.
    cbn [Py.eq_str String.eqb Ascii.eqb Bool.eqb andb].
    rewrite (sbind_slift (Py.get (JObj a) "notification_input" (JStr ""))
               (match Dict.lookup "notification_input" a with
                | Some notification_input => notification_input
                | None => JStr ""%string
                end)) by reflexivity.
    destruct (send_notification W T _ upstream) as [[text|e] ev];
      [|discriminate Hreply].
    injection Hreply as <-. exists text. split; [reflexivity|].
    unfold sbind, sret, catching. cbn [fst snd]. reflexivity.
Qed.


(** *** The start of a session *)

Lemma chat_loop_unfold (W : world) (rounds : nat) (h : history) :
  chat_loop W rounds h
  = after [Print Banner; Print Type_exit_to_quit]
      (bind (ask_ollama W system_instruction 3) (fun _ =>
       bind (log System_prompt_initialized) (fun _ =>
       while_true W rounds))) h.
Proof.
  unfold chat_loop.
  rewrite (bind_ret _ _ h tt [Print Banner]) by reflexivity.
  unfold after at 1.
  rewrite (bind_ret _ _ (h ++ [Print Banner]) tt [Print Type_exit_to_quit])
    by reflexivity.
  unfold after. cbn [fst snd app]. now rewrite <- app_assoc.
Qed.

(** X25. The start of a session.  [chat_loop] prints its two banner lines,
    then sends the system instruction, in three requests at most and
    without reading the console, and then, whatever the model has
    answered, logs that the system prompt is initialized and enters the
    loop.  An exception leaves [chat_loop] only when one of the
    requests for the system instruction is interrupted from the
    keyboard. *)
Theorem chat_loop_start (W : world) (rounds : nat) (h : history) :
  (exists requests rest,
      snd (chat_loop W rounds h)
      = Print Banner :: Print Type_exit_to_quit :: requests ++ rest
      /\ posts requests <= 3 /\ inputs requests = 0
      /\ forall left_loop,
          fst (chat_loop W rounds h) = Ret left_loop ->
          exists loop, rest = Log System_prompt_initialized :: loop)
  /\ (forall e,
         fst (chat_loop W rounds h) = Raise e ->
         e = KeyboardInterrupt
         /\ exists i, i < 3 /\ net W (posts h + i) = PostRaises KeyboardInterrupt).
Proof.
  rewrite chat_loop_unfold. unfold after. cbn [fst snd app].
  assert (Hposts : posts (h ++ [Print Banner; Print Type_exit_to_quit])
                   = posts h)
    by (rewrite posts_app; cbn; lia).
  revert Hposts.
  generalize (h ++ [Print Banner; Print Type_exit_to_quit]).
  intros h0 Hposts.
  split.
  - destruct (ask_ollama_counts W system_instruction 3 h0) as [Hp Hi].
    destruct (ask_ollama W system_instruction 3 h0) as [[a|e'] ev] eqn:Hask.
    + rewrite (bind_ret _ _ _ _ _ Hask). unfold after. cbn [fst snd] in *.
      eexists ev, _. split; [reflexivity|].
      split; [exact Hp|]. split; [lia|].
      intros left_loop _.
      rewrite (bind_ret _ _ _ tt [Log System_prompt_initialized]) by reflexivity.
      unfold after. cbn [snd app]. eauto.
    + rewrite (bind_raise _ _ _ _ _ Hask). cbn [fst snd] in *.
      exists ev, []. rewrite app_nil_r. split; [reflexivity|].
      split; [exact Hp|]. split; [lia|].
      intros left_loop H. discriminate H.
  - intros e Hraise.
    apply bind_raise_inv in Hraise.
    destruct Hraise as [Hraise | (answer & Hanswer & Hraise)].
    + unfold ask_ollama in Hraise.
      destruct (ollama_attempts_raise W _ _ _ _ _ Hraise) as [-> (i & Hi & Hnet)].
      split; [reflexivity|]. exists i. split; [exact Hi|].
      now rewrite <- Hposts.
    + exfalso.
      apply bind_raise_inv in Hraise.
      destruct Hraise as [Hraise | (u & _ & Hraise)]; [discriminate Hraise|].
      match type of Hraise with
      | fst (while_true W rounds ?h') = _ =>
          destruct (while_true_total W rounds h') as [b Hb]
      end.
      congruence.
Qed.


(** *** What stands behind a final answer *)

Section FinalAnswer.

Variable W : world.

Lemma silent_app ev1 ev2 : silent ev1 -> silent ev2 -> silent (ev1 ++ ev2).
Proof.
  intros H1 H2 e Hin. apply in_app_or in Hin.
  destruct Hin; [now apply H1 | now apply H2].
Qed.

Lemma silent_nil : silent [].
Proof. intros e []. Qed.

Lemma silent_bind {A B} (m : M A) (f : A -> M B) (h : history) :
  silent (snd (m h)) ->
  (forall a h', silent (snd (f a h'))) ->
  silent (snd (bind m f h)).
Proof.
  intros Hm Hf. rewrite bind_snd. apply silent_app; [exact Hm|].
  destruct (fst (m h)); [apply Hf | apply silent_nil].
Qed.

Lemma ollama_try_silent payload attempt h :
  silent (snd (ollama_try W payload attempt h)).
Proof.
  destruct (ollama_outcome_cases (net W (posts h)))
    as [(r & d & Hnet & Hbody) | [Hfail | Hint]].
  - rewrite (ollama_try_returns W payload attempt h r d Hnet Hbody).
    intros e [<- | []]. reflexivity.
  - destruct (ollama_try_failure W payload attempt h Hfail) as [e' ->].
    intros e [<- | [<- | [<- | []]]]; reflexivity.
  - rewrite (ollama_try_interrupted W payload attempt h Hint).
    intros e [<- | []]. reflexivity.
Qed.

Lemma ask_ollama_silent prompt max_retries h :
  silent (snd (ask_ollama W prompt max_retries h)).
Proof.
  unfold ask_ollama. generalize 0 as attempt. revert h.
  induction max_retries as [|n IH]; intros h attempt; [apply silent_nil|].
  cbn [ollama_attempts]. apply silent_bind; [apply ollama_try_silent|].
  intros [v|] h'; [apply silent_nil | apply IH].
Qed.

Lemma mcp_try_silent payload h : silent (snd (mcp_try W payload h)).
Proof.
  unfold mcp_try, try_except, mcp_request, bind, post, lift, response_json,
    ret, log, sleep, emit, except_Exception.
  destruct (net W (posts h)) as [r|e]; cbn.
  - destruct (status_code r =? 200)%Z; cbn.
    + destruct (Json.loads_latin1 (text r)); cbn;
        intros e H; repeat destruct H as [H|H]; subst; try reflexivity;
        now destruct H.
    + intros e H; repeat destruct H as [H|H]; subst; try reflexivity;
        now destruct H.
  - destruct (is_Exception e); cbn;
      intros e' H; repeat destruct H as [H|H]; subst; try reflexivity;
      now destruct H.
Qed.

Lemma mcp_attempts_silent tool payload :
  forall remaining h, silent (snd (mcp_attempts W tool payload remaining h)).
Proof.
  induction remaining as [|n IH]; intros h; [apply silent_nil|].
  cbn [mcp_attempts]. apply silent_bind; [apply mcp_try_silent|].
  intros [j|] h'; [apply silent_nil | apply IH].
Qed.

Lemma call_mcp_tool_silent tool args max_retries h :
  silent (snd (call_mcp_tool W tool args max_retries h)).
Proof.
  rewrite call_mcp_tool_payload. unfold after. cbn [snd].
  intros e [<- | Hin]; [reflexivity|].
  now apply (mcp_attempts_silent _ _ _ _ e Hin).
Qed.

Lemma alert_policy_silent tool text h :
  silent (snd (alert_policy W tool text h)).
Proof.
  unfold alert_policy.
  destruct (Py.eq_str tool "get_weather"); [|apply silent_nil].
  apply silent_bind; [apply silent_nil|]. intros lower_text h1.
  destruct (existsb _ ALERT_KEYWORDS); [|apply silent_nil].
  apply silent_bind; [intros e [<- | []]; reflexivity|]. intros _ h2.
  apply silent_bind; [apply call_mcp_tool_silent|]. intros notif_result h3.
  apply silent_bind; [apply silent_nil|]. intros notif_text h4.
  intros e [<- | []]. reflexivity.
Qed.

Lemma resolve_intent_silent user_input model_output h :
  silent (snd (resolve_intent user_input model_output h)).
Proof.
  destruct (resolve_intent_any_history h h user_input model_output) as [_ Hlog].
  rewrite Forall_forall in Hlog.
  intros e Hin. destruct (Hlog e Hin) as [m ->]. reflexivity.
Qed.

Lemma bind_events_r {A B} (m : M A) (f : A -> M B) (h : history) (a : A)
      (e : event) :
  fst (m h) = Ret a -> In e (snd (f a (h ++ snd (m h)))) ->
  In e (snd (bind m f h)).
Proof.
  intros Hm Hin. rewrite bind_snd, Hm. apply in_or_app. now right.
Qed.

Lemma ask_ollama_first_post prompt remaining h :
  In (Post OLLAMA_URL (ollama_payload prompt) 60)
     (snd (ask_ollama W prompt (S remaining) h)).
Proof.
  unfold ask_ollama. fold (ollama_payload prompt). cbn [ollama_attempts].
  apply bind_events_l.
  destruct (ollama_outcome_cases (net W (posts h)))
    as [(r & d & Hnet & Hbody) | [Hfail | Hint]].
  - rewrite (ollama_try_returns W _ 0 h r d Hnet Hbody). now left.
  - destruct (ollama_try_failure W (ollama_payload prompt) 0 h Hfail)
      as [e' ->].
    now left.
  - rewrite (ollama_try_interrupted W _ 0 h Hint). now left.
Qed.

End FinalAnswer.

Ltac not_printed H :=
  match type of H with
  | In ?e ?ev =>
      exfalso;
      let S := fresh "S" in
      assert (S : silent ev)
        by first [ apply ask_ollama_silent | apply call_mcp_tool_silent
                 | apply alert_policy_silent | apply resolve_intent_silent
                 | apply silent_nil ];
      specialize (S _ H); discriminate S
  end.

Ltac passed :=
  eapply bind_events_r; [eassumption|]; cbv beta iota zeta.

(** X26. What stands behind a final answer.  The connector never
    answers from the model alone: whenever a turn prints a final
    answer, a tool was called before, its result text was not empty and
    was printed, and the model was asked for a one-line summary of
    exactly that text. *)
Theorem final_answer_summarizes_a_tool_result (W : world) (h : history)
        (summary : json) :
  In (Print (Final_answer summary)) (snd (turn W h)) ->
  exists tool args text,
    Py.truthy tool = true
    /\ Py.truthy text = true
    /\ In (Log (Tool_detected tool args)) (snd (turn W h))
    /\ In (Print (Mcp_result text)) (snd (turn W h))
    /\ In (Post OLLAMA_URL
             (ollama_payload
                ("Summarize in one line, clearly and concisely: "
                 ++ fmt W text)%string) 60)
          (snd (turn W h)).
Proof.
  unfold turn. intros H.
  apply bind_events_inv in H.
  destruct H as [H | (line & Hline & H)].
  { destruct H as [H | []]. discriminate H. }
  destruct (String.eqb _ "exit" || String.eqb _ "quit") eqn:Hexit.
  { destruct H as [H | []]. discriminate H. }
  apply bind_events_inv in H.
  destruct H as [H | (model_output & Hmodel & H)]; [not_printed H|].
  apply bind_events_inv in H.
  destruct H as [H | (u1 & Hu1 & H)].
  { destruct H as [H | []]. discriminate H. }
  apply bind_events_inv in H.
  destruct H as [H | (call & Hcall & H)]; [not_printed H|].
  cbv zeta in H.
  destruct (negb (Py.truthy (fst call))) eqn:Htool.
  { destruct H as [H | []]. discriminate H. }
  apply bind_events_inv in H.
  destruct H as [H | (u2 & Hu2 & H)].
  { destruct H as [H | []]. discriminate H. }
  apply bind_events_inv in H.
  destruct H as [H | (mcp_response & Hmcp & H)]; [not_printed H|].
  apply bind_events_inv in H.
  destruct H as [H | (text & Htext & H)]; [not_printed H|].
  destruct (negb (Py.truthy text)) eqn:Hnonempty.
  { destruct H as [H | []]. discriminate H. }
  apply bind_events_inv in H.
  destruct H as [H | (u3 & Hu3 & H)].
  { destruct H as [H | []]. discriminate H. }
  apply bind_events_inv in H.
  destruct H as [H | (u4 & Hu4 & H)]; [not_printed H|].
  exists (fst call), (snd call), text.
  split; [now apply negb_false_iff in Htool|].
  split; [now apply negb_false_iff in Hnonempty|].
  split; [|split].
  - passed. rewrite Hexit. do 3 passed. rewrite Htool.
    apply bind_events_l. now left.
  - passed. rewrite Hexit. do 3 passed. rewrite Htool. do 3 passed.
    rewrite Hnonempty. apply bind_events_l. now left.
  - passed. rewrite Hexit. do 3 passed. rewrite Htool. do 3 passed.
    rewrite Hnonempty. do 2 passed. apply bind_events_l.
    apply ask_ollama_first_post.
Qed.


(* ------------------------------------------------------------------ *)
(** ** Properties of the connection test *)
(* ------------------------------------------------------------------ *)

Lemma contains_raises key v e :
  Py.contains key v = Raise e -> is_Exception e = true.
Proof. destruct v; cbn; intros H; now inversion H. Qed.

Lemma mem_lookup key d :
  Dict.mem key d = true <-> exists v, Dict.lookup key d = Some v.
Proof.
  induction d as [|[k w] d IH]; cbn.
  - split; [discriminate | intros [v H]; discriminate H].
  - destruct (String.eqb k key); cbn; [|exact IH].
    split; [eauto | trivial].
Qed.

(** X27. The connection test.  Unlike [ask_ollama], [test_ollama] makes
    its request once and guards it with nothing: it raises exactly when
    the request does.  Once the request has returned, no failure of the
    parsing leaves it; and it prints what the model said exactly when
    the body of the reply is a JSON object with a ["response"] member,
    whose value it prints (the body as [response.json()] reads it,
    escapes above U+00FF included). *)
Theorem test_ollama_report (prompt : string) (upstream : post_outcome) :
  (forall e, fst (test_ollama prompt upstream) = Raise e
             <-> upstream = PostRaises e)
  /\ (forall v,
         In (Model_said v) (snd (test_ollama prompt upstream))
         <-> exists r d,
               upstream = PostReturns r
               /\ Json.loads_latin1 (text r) = Some (JObj d)
               /\ Dict.lookup "response" d = Some v)
  /\ (exists payload later,
         snd (test_ollama prompt upstream)
         = Sending_prompt :: Test_post OLLAMA_URL payload :: later
         /\ Py.item payload "model" = Ret (JStr "gpt-oss:120b-cloud")
         /\ Py.item payload "prompt" = Ret (JStr prompt)
         /\ forall url p, ~ In (Test_post url p) later).
Proof.
  unfold test_ollama.
  destruct upstream as [r|e0].
  2:{ split; [|split].
      - intros e. cbn. split; intros H; congruence.
      - intros v. split.
        + intros [H | [H | []]]; discriminate H.
        + intros (r & d & H & _). discriminate H.
      - eexists _, []. repeat split. intros url p []. }
  cbv zeta. unfold response_json.
  destruct (Json.loads_latin1 (text r)) as [data|] eqn:Hbody.
  2:{ cbn. split; [|split].
      - intros e. split; intros H; discriminate H.
      - intros v. split.
        + intros H. repeat destruct H as [H|H]; try discriminate H.
          destruct H.
        + intros (r' & d & H & H' & _). injection H as <-. congruence.
      - eexists _, _. repeat split.
        intros url p H. repeat destruct H as [H|H]; try discriminate H.
        destruct H. }
  destruct (Py.contains "response" data) as [[|]|e1] eqn:Hin.
  - destruct (Py.item data "response") as [v0|e2] eqn:Hitem.
    + cbn. split; [|split].
      * intros e. split; intros H; discriminate H.
      * intros v. split.
        -- intros H. repeat destruct H as [H|H]; try discriminate H;
             [|destruct H].
           injection H as <-. exists r.
           destruct data as [| | | | | | |d]; try discriminate Hitem.
           exists d. repeat split; trivial.
           cbn in Hitem. destruct (Dict.lookup "response" d); congruence.
        -- intros (r' & d & H & H' & Hv). injection H as <-.
           rewrite Hbody in H'. injection H' as ->.
           cbn in Hitem. rewrite Hv in Hitem. injection Hitem as <-.
           do 5 right. now left.
      * eexists _, _. repeat split.
        intros url p H. repeat destruct H as [H|H]; try discriminate H.
        destruct H.
    + assert (He2 : is_Exception e2 = true) by now apply item_raises in Hitem.
      rewrite He2. cbn. split; [|split].
      * intros e. split; intros H; discriminate H.
      * intros v. split.
        -- intros H. repeat destruct H as [H|H]; try discriminate H.
           destruct H.
        -- intros (r' & d & H & H' & Hv). injection H as <-.
           rewrite Hbody in H'. injection H' as ->.
           cbn in Hitem. rewrite Hv in Hitem. discriminate Hitem.
      * eexists _, _. repeat split.
        intros url p H. repeat destruct H as [H|H]; try discriminate H.
        destruct H.
  - cbn. split; [|split].
    + intros e. split; intros H; discriminate H.
    + intros v. split.
      * intros H. repeat destruct H as [H|H]; try discriminate H.
        destruct H.
      * intros (r' & d & H & H' & Hv). injection H as <-.
        rewrite Hbody in H'. injection H' as ->.
        cbn in Hin. injection Hin as Hmem.
        assert (Dict.mem "response" d = true) by (apply mem_lookup; eauto).
        congruence.
    + eexists _, _. repeat split.
      intros url p H. repeat destruct H as [H|H]; try discriminate H.
      destruct H.
  - assert (He1 : is_Exception e1 = true) by now apply contains_raises in Hin.
    rewrite He1. cbn. split; [|split].
    + intros e. split; intros H; discriminate H.
    + intros v. split.
      * intros H. repeat destruct H as [H|H]; try discriminate H.
        destruct H.
      * intros (r' & d & H & H' & Hv). injection H as <-.
        rewrite Hbody in H'. injection H' as ->. discriminate Hin.
    + eexists _, _. repeat split.
      intros url p H. repeat destruct H as [H|H]; try discriminate H.
      destruct H.
Qed.


(** *** The properties at work *)

Lemma turn_without_intent_witness :
  turn small_talk []
  = (Ret Continue,
     [Input "You: ";
      Post OLLAMA_URL (ollama_payload (enforced_input "hello there")) 60;
      Print (Ollama_said (JStr "I can not help with that."));
      Log No_tool_call_detected]).
Proof.
  apply (turn_without_intent small_talk [] "hello there"
           (Response 200 (dq "{'response': 'I can not help with that.'}"))
           [("response"%string, JStr "I can not help with that.")]
           "I can not help with that." JNull JNull).
  - reflexivity.
  - intros [H | H]; discriminate H.
  - reflexivity.
  - vm_compute. reflexivity.
  - reflexivity.
  - vm_compute. reflexivity.
  - reflexivity.
  - intros H. apply (contains_lower_iff "weather" _ eq_refl) in H.
    discriminate H.
  - intros H. apply (contains_lower_iff "notify" _ eq_refl) in H.
    discriminate H.
  - intros H. apply (contains_lower_iff "alert" _ eq_refl) in H.
    discriminate H.
Defined.

Lemma turn_on_answer_without_text_witness :
  iteration numeric_answer []
  = (Ret Continue,
     [Input "You: ";
      Post OLLAMA_URL (ollama_payload (enforced_input "hello there")) 60;
      Print (Ollama_said (JInt 42));
      Log (Unexpected_error TypeError)]).
Proof.
  apply (turn_on_answer_without_text numeric_answer [] "hello there"
           (Response 200 (dq "{'response': 42}"))
           [("response"%string, JInt 42)]).
  - reflexivity.
  - intros [H | H]; discriminate H.
  - reflexivity.
  - vm_compute. reflexivity.
  - intros s H. discriminate H.
Defined.

Lemma turn_with_tool_server_down_witness :
  exists events,
    turn server_down [] = (Ret Continue, events ++ [Log Empty_mcp_result])
    /\ posts events = 3.
Proof.
  apply (turn_with_tool_server_down server_down [] "weather in Paris"
           (Response 200 (dq "{'response': 'ok'}"))
           [("response"%string, JStr "ok")]
           (JStr "get_weather") (JObj [("city"%string, JStr "Paris")])
           [Log Forcing_get_weather]).
  - reflexivity.
  - intros [H | H]; discriminate H.
  - reflexivity.
  - vm_compute. reflexivity.
  - vm_compute. reflexivity.
  - reflexivity.
  - intros i Hi.
    destruct i as [|[|i]]; [reflexivity | left; discriminate |].
    exfalso. apply (Nat.nlt_0_r i). now do 2 apply PeanoNat.lt_S_n.
Defined.

Lemma alert_survives_failed_notification_witness :
  exists requests,
    alert_policy failing_mcp (JStr "get_weather")
      (JStr "Light rain in Paris") []
    = (Ret tt,
       Log Weather_alert_detected
         :: requests ++ [Log (Notification (JStr ""))])
    /\ posts requests = 2.
Proof.
  apply (alert_survives_failed_notification failing_mcp
           "Light rain in Paris" []).
  - exists "rain"%string. split; [left; reflexivity|].
    exists "Light "%string, "rain"%string, " in Paris"%string.
    split; reflexivity.
  - intros i Hi.
    destruct i as [|[|i]]; [left; discriminate | left; discriminate |].
    exfalso. apply (Nat.nlt_0_r i). now do 2 apply PeanoNat.lt_S_n.
Defined.

Lemma detect_tool_call_accepts_witness :
  detect_tool_call (JStr flat_call) = Ret (JStr "get_weather", JStr "Paris")
  /\ (Py.truthy (JStr "get_weather") = true ->
      forall user_input h,
        resolve_intent user_input (JStr flat_call) h
        = (Ret (JStr "get_weather", JStr "Paris"), [])).
Proof.
  apply (detect_tool_call_accepts "Sure: "
           (dq "'name': 'get_weather', 'arguments': 'Paris'") " done"
           [("name"%string, JStr "get_weather");
            ("arguments"%string, JStr "Paris")]
           (JStr "get_weather") (JStr "Paris")).
  - apply free_of_count. reflexivity.
  - apply free_of_count. reflexivity.
  - vm_compute. reflexivity.
  - reflexivity.
  - reflexivity.
Defined.

Lemma detected_call_has_no_object_witness :
  (forall d, JStr "get_weather" <> JObj d)
  /\ (forall d, JStr "Paris" <> JObj d).
Proof.
  apply (detected_call_has_no_object flat_call
           (JStr "get_weather") (JStr "Paris")).
  vm_compute. reflexivity.
Defined.


Lemma weather_text_raises_alert_witness :
  exists id,
    In (Post MCP_URL
          (mcp_payload id (JStr "send_notification")
             (JObj [("notification_input",
                     JStr (weather_info offline (JStr "Bahrain") (JInt 30)
                             "clear sky" ++ "|weather_alerts")%string)]))
          60)
       (snd (alert_policy rainy_world (JStr "get_weather")
               (JStr (weather_info offline (JStr "Bahrain") (JInt 30)
                        "clear sky")) [])).
Proof.
  apply (weather_text_raises_alert offline rainy_world (JStr "Bahrain")
           clear_report
           (weather_info offline (JStr "Bahrain") (JInt 30) "clear sky") []).
  - reflexivity.
  - vm_compute. reflexivity.
  - right. exists "rain"%string. split; [left; reflexivity|].
    exists "Bah"%string, "rain"%string, ""%string. split; reflexivity.
Defined.

Lemma notification_splits_at_first_bar_witness :
  snd (send_notification offline no_texts
         (JStr " storm at five |a|b") timeout)
  = [Post_data "https://ntfy.sh/athlour" "storm at five"]
  /\ forall body,
      timeout = reply 200 body ->
      fst (send_notification offline no_texts
             (JStr " storm at five |a|b") timeout)
      = Ret (check_mark no_texts ++ " Notification sent to '"
             ++ PyStr.strip "a|b" ++ "': "
             ++ PyStr.strip " storm at five ")%string.
Proof.
  apply (notification_splits_at_first_bar offline no_texts
           " storm at five " "a|b" timeout).
  apply free_of_count. reflexivity.
Defined.

Lemma server_replies_are_readable_witness :
  exists text,
    result_text
      (JObj [("jsonrpc", JStr "2.0"); ("id", JInt 7);
             ("result", JObj [("tools", tool_dumps no_texts)])])
    = Ret (JStr text).
Proof.
  apply (server_replies_are_readable offline no_texts "POST"
           (Ret (JObj [("method"%string, JStr "mcp/list_tools");
                       ("id"%string, JInt 7)]))
           timeout
           (JObj [("jsonrpc"%string, JStr "2.0"); ("id"%string, JInt 7);
                  ("result"%string,
                   JObj [("tools"%string, tool_dumps no_texts)])])
           200%Z).
  vm_compute. reflexivity.
Defined.

Lemma weather_call_round_trip_witness :
  exists answer,
    mcp_http_handler offline no_texts "POST"
      (Ret (mcp_payload "1700000000" (JStr "get_weather")
              (JObj [("city", JStr "Paris")])))
      (PostReturns clear_report)
    = (Ret (answer, 200%Z), [Get (weather_url "Paris")])
    /\ result_text answer
       = Ret (JStr (weather_info offline (JStr "Paris") (JInt 30) "clear sky"))
    /\ Py.item answer "id" = Ret (JStr "1700000000").
Proof.
  apply (weather_call_round_trip offline no_texts "1700000000" (JStr "Paris")
           (PostReturns clear_report)
           (weather_info offline (JStr "Paris") (JInt 30) "clear sky")).
  vm_compute. reflexivity.
Defined.

Lemma notification_call_round_trip_witness :
  exists answer,
    mcp_http_handler offline no_texts "POST"
      (Ret (mcp_payload "1700000000" (JStr "send_notification")
              (JObj [("notification_input",
                      JStr ("storm ahead" ++ "|" ++ "weather_alerts")%string)])))
      (reply 200 "ok")
    = (Ret (answer, 200%Z),
       [Post_data "https://ntfy.sh/athlour" (PyStr.strip "storm ahead")])
    /\ forall body,
        reply 200 "ok" = reply 200 body ->
        result_text answer
        = Ret (JStr (check_mark no_texts ++ " Notification sent to '"
                     ++ PyStr.strip "weather_alerts" ++ "': "
                     ++ PyStr.strip "storm ahead")%string).
Proof.
  apply (notification_call_round_trip offline no_texts "1700000000"
           "storm ahead" "weather_alerts" (reply 200 "ok")).
  - apply free_of_count. reflexivity.
  - discriminate.
Defined.

Lemma detected_call_is_refused_witness :
  mcp_http_handler offline no_texts "POST"
    (Ret (mcp_payload "1700000000" (JStr "get_weather") (JStr "Paris")))
    timeout
  = (Ret (error_reply (JStr "1700000000") (-32000)
            ("Internal Server Error: " ++ str_exn no_texts AttributeError)%string,
          500%Z),
     [Print_traceback]).
Proof.
  apply (detected_call_is_refused offline no_texts flat_call "1700000000"
           (JStr "get_weather") (JStr "Paris") timeout).
  - vm_compute. reflexivity.
  - left. reflexivity.
Defined.

Lemma weather_failure_is_internal_error_witness :
  mcp_http_handler offline no_texts "POST"
    (Ret (mcp_payload "1700000000" (JStr "get_weather")
            (JObj [("city", JStr "Paris")])))
    (reply 401 "<html>Unauthorized</html>")
  = (Ret (error_reply (JStr "1700000000") (-32000)
            ("Internal Server Error: " ++ str_exn no_texts JSONDecodeError)%string,
          500%Z),
     [Get (weather_url (fmt offline (JStr "Paris"))); Print_traceback]).
Proof.
  apply (weather_failure_is_internal_error offline no_texts "1700000000"
           (JStr "Paris") (reply 401 "<html>Unauthorized</html>")
           JSONDecodeError).
  - vm_compute. reflexivity.
  - reflexivity.
Defined.

Lemma call_tool_agrees_with_handle_witness :
  exists text,
    tool_reply (JStr "1700000000")
      (weather_info offline (JStr "Paris") (JInt 30) "clear sky")
    = tool_reply (JStr "1700000000") text
    /\ call_tool offline no_texts (JStr "get_weather")
         (JObj [("city", JStr "Paris")]) (PostReturns clear_report)
       = (Ret [TextContent "text" text],
          snd (handle offline no_texts
                 (mcp_payload "1700000000" (JStr "get_weather")
                    (JObj [("city", JStr "Paris")]))
                 (PostReturns clear_report))).
Proof.
  apply (call_tool_agrees_with_handle offline no_texts "1700000000"
           (JStr "get_weather") (JObj [("city"%string, JStr "Paris")])
           (PostReturns clear_report)
           (tool_reply (JStr "1700000000")
              (weather_info offline (JStr "Paris") (JInt 30) "clear sky"))).
  - left. reflexivity.
  - vm_compute. reflexivity.
Defined.

Lemma final_answer_summarizes_a_tool_result_witness :
  exists tool args text,
    Py.truthy tool = true
    /\ Py.truthy text = true
    /\ In (Log (Tool_detected tool args)) (snd (turn sunny_day []))
    /\ In (Print (Mcp_result text)) (snd (turn sunny_day []))
    /\ In (Post OLLAMA_URL
             (ollama_payload
                ("Summarize in one line, clearly and concisely: "
                 ++ fmt sunny_day text)%string) 60)
          (snd (turn sunny_day [])).
Proof.
  apply (final_answer_summarizes_a_tool_result sunny_day []
           (JStr "It is sunny.")).
  vm_compute. repeat (first [left; reflexivity | right]).
Defined.
